(** * xv6-riscv process subsystem and pipes: a shallow embedding

    The kernel functions of [kernel/proc.c] and [kernel/pipe.c] are
    embedded as computations of a resumption monad over an explicit kernel
    state.  A computation runs on one CPU until it returns, panics, or
    reaches the context switch [swtch] inside [sched]; at a switch the
    computation is suspended and resumed later with the kernel state it
    finds when the scheduler dispatches it again. *)

From stdpp Require Import base numbers list strings relations.
From Stdlib Require Import ZArith Lia Sorted.

Local Open Scope Z_scope.

(** ** Data model *)

(** [enum procstate] of proc.h. *)
Inductive procstate : Type :=
  UNUSED | USED | SLEEPING | RUNNABLE | RUNNING | ZOMBIE.

#[global] Instance procstate_eq_dec : EqDecision procstate.
Proof. solve_decision. Defined.

(** A wait channel is a [void *]: the address of some kernel datum.  The
    addresses this code sleeps on are a process slot ([wait]) and the two
    counters of a pipe; [NoChan] is the null pointer. *)
Inductive channel : Type :=
| NoChan
| ProcChan (i : nat)
| PipeNread
| PipeNwrite
| AddrChan (a : Z).

#[global] Instance channel_eq_dec : EqDecision channel.
Proof. solve_decision. Defined.

(** The spinlocks of the two files: [pid_lock], [wait_lock], the lock of
    each process slot and the lock of the pipe. *)
Inductive lockid : Type :=
| PidLock
| WaitLock
| ProcLock (i : nat)
| PipeLock.

#[global] Instance lockid_eq_dec : EqDecision lockid.
Proof. solve_decision. Defined.

(** [struct proc].  The slot lock lives in the set of held locks of the
    kernel state; a [struct proc *] is an index into the table, the null
    pointer is [None]. *)

Record proc : Type := mkProc {
  state : procstate;
  chan : channel;
  killed : Z;
  xstate : Z;
  pid : Z;
  parent : option nat;
  kstack : Z;
  sz : Z;
  pagetable : Z;
  trapframe : Z;
  context : Z * Z;
  ofile : list Z;
  cwd : Z;
  name : list Z
}.

Definition set_state (v : procstate) (p : proc) : proc :=
  mkProc v (chan p) (killed p) (xstate p) (pid p) (parent p) (kstack p)
         (sz p) (pagetable p) (trapframe p) (context p) (ofile p) (cwd p) (name p).
Definition set_chan (v : channel) (p : proc) : proc :=
  mkProc (state p) v (killed p) (xstate p) (pid p) (parent p) (kstack p)
         (sz p) (pagetable p) (trapframe p) (context p) (ofile p) (cwd p) (name p).
Definition set_killed (v : Z) (p : proc) : proc :=
  mkProc (state p) (chan p) v (xstate p) (pid p) (parent p) (kstack p)
         (sz p) (pagetable p) (trapframe p) (context p) (ofile p) (cwd p) (name p).
Definition set_xstate (v : Z) (p : proc) : proc :=
  mkProc (state p) (chan p) (killed p) v (pid p) (parent p) (kstack p)
         (sz p) (pagetable p) (trapframe p) (context p) (ofile p) (cwd p) (name p).
Definition set_pid (v : Z) (p : proc) : proc :=
  mkProc (state p) (chan p) (killed p) (xstate p) v (parent p) (kstack p)
         (sz p) (pagetable p) (trapframe p) (context p) (ofile p) (cwd p) (name p).
Definition set_parent (v : option nat) (p : proc) : proc :=
  mkProc (state p) (chan p) (killed p) (xstate p) (pid p) v (kstack p)
         (sz p) (pagetable p) (trapframe p) (context p) (ofile p) (cwd p) (name p).
Definition set_sz (v : Z) (p : proc) : proc :=
  mkProc (state p) (chan p) (killed p) (xstate p) (pid p) (parent p) (kstack p)
         v (pagetable p) (trapframe p) (context p) (ofile p) (cwd p) (name p).
Definition set_pagetable (v : Z) (p : proc) : proc :=
  mkProc (state p) (chan p) (killed p) (xstate p) (pid p) (parent p) (kstack p)
         (sz p) v (trapframe p) (context p) (ofile p) (cwd p) (name p).
Definition set_trapframe (v : Z) (p : proc) : proc :=
  mkProc (state p) (chan p) (killed p) (xstate p) (pid p) (parent p) (kstack p)
         (sz p) (pagetable p) v (context p) (ofile p) (cwd p) (name p).
Definition set_name (v : list Z) (p : proc) : proc :=
  mkProc (state p) (chan p) (killed p) (xstate p) (pid p) (parent p) (kstack p)
         (sz p) (pagetable p) (trapframe p) (context p) (ofile p) (cwd p) v.

(** [struct cpu], together with the interrupt-enable bit of the hart
    ([sie], what [intr_get] reads). *)

Record cpu : Type := mkCpu {
  cproc : option nat;
  noff : Z;
  intena : bool;
  sie : bool
}.

(** [struct pipe] without its lock. *)

Record pipe : Type := mkPipe {
  data : list Z;
  nread : Z;
  nwrite : Z;
  readopen : Z;
  writeopen : Z
}.

Definition PIPESIZE : Z := 512.

(** Calls into the page allocator and the virtual-memory layer, which are
    outside these two files, are recorded in the order they are made. *)
Inductive event : Type :=
| EvKfree (pa : Z)
| EvUvmunmap (pt va npages do_free : Z)
| EvUvmfree (pt size : Z)
| EvKfreePipe.

(** Wrap-around of the C integer types. *)
Definition wrap_uint (x : Z) : Z := x mod 2 ^ 32.
Definition wrap_uint64 (x : Z) : Z := x mod 2 ^ 64.
Definition wrap_int (x : Z) : Z := (x + 2 ^ 31) mod 2 ^ 32 - 2 ^ 31.

Section Kernel.

(** User memory and the bridge to it ([copyin], [copyout] of vm.c) are
    outside the two files: they are parameters.  [copyin um pt va] is the
    byte a one-byte [copyin] reads, [None] when it returns -1;
    [copyout um pt va bytes] gives the status ([true] for 0, [false] for
    -1) and the user memory afterwards. *)
Context {umem : Type}.
Variable copyin : umem -> Z -> Z -> option Z.
Variable copyout : umem -> Z -> Z -> list Z -> bool * umem.

(** Constants of memlayout.h. *)
Variable TRAMPOLINE : Z.
Variable TRAPFRAME : Z.

(** The kernel state seen by one CPU: the process table [proc[NPROC]]
    (NPROC is the length of [procs]), this CPU, the locks this CPU holds,
    [nextpid], one pipe, user memory and the log of allocator calls. *)

Record kstate : Type := mkK {
  procs : list proc;
  kcpu : cpu;
  held : list lockid;
  nextpid : Z;
  kpipe : pipe;
  mem : umem;
  trace : list event
}.

Definition set_procs (v : list proc) (s : kstate) : kstate :=
  mkK v (kcpu s) (held s) (nextpid s) (kpipe s) (mem s) (trace s).
Definition set_kcpu (v : cpu) (s : kstate) : kstate :=
  mkK (procs s) v (held s) (nextpid s) (kpipe s) (mem s) (trace s).
Definition set_held (v : list lockid) (s : kstate) : kstate :=
  mkK (procs s) (kcpu s) v (nextpid s) (kpipe s) (mem s) (trace s).
Definition set_nextpid (v : Z) (s : kstate) : kstate :=
  mkK (procs s) (kcpu s) (held s) v (kpipe s) (mem s) (trace s).
Definition set_kpipe (v : pipe) (s : kstate) : kstate :=
  mkK (procs s) (kcpu s) (held s) (nextpid s) v (mem s) (trace s).
Definition set_mem (v : umem) (s : kstate) : kstate :=
  mkK (procs s) (kcpu s) (held s) (nextpid s) (kpipe s) v (trace s).
Definition emit (e : event) (s : kstate) : kstate :=
  mkK (procs s) (kcpu s) (held s) (nextpid s) (kpipe s) (mem s) (trace s ++ [e]).

(** ** The resumption monad *)

(** Result of running kernel code from a state: it returns, panics,
    dereferences a null process pointer, is switched out with a
    continuation waiting for the state at the next dispatch, or the loop
    budget of the embedding is used up. *)
Inductive res (A : Type) : Type :=
| Ret (a : A) (s : kstate)
| Panic (msg : string) (s : kstate)
| Fault (s : kstate)
| Swtch (s : kstate) (k : kstate -> res A)
| Diverge.

Arguments Ret {A} a s.
Arguments Panic {A} msg s.
Arguments Fault {A} s.
Arguments Swtch {A} s k.
Arguments Diverge {A}.

Definition M (A : Type) : Type := kstate -> res A.

Fixpoint bindr {A B : Type} (r : res A) (f : A -> M B) : res B :=
  match r with
  | Ret a s => f a s
  | Panic msg s => Panic msg s
  | Fault s => Fault s
  | Swtch s k => Swtch s (fun s' => bindr (k s') f)
  | Diverge => Diverge
  end.

Definition ret {A : Type} (a : A) : M A := fun s => Ret a s.
Definition bind {A B : Type} (m : M A) (f : A -> M B) : M B :=
  fun s => bindr (m s) f.
Definition panic {A : Type} (msg : string) : M A := fun s => Panic msg s.
Definition fault {A : Type} : M A := fun s => Fault s.
Definition gets {A : Type} (f : kstate -> A) : M A := fun s => Ret (f s) s.
Definition modify (f : kstate -> kstate) : M unit := fun s => Ret tt (f s).

Notation "x <- m ;; k" := (bind m (fun x => k))
  (at level 100, m at next level, right associativity, only parsing).
Notation "m ;;; k" := (bind m (fun _ => k))
  (at level 100, k at level 200, right associativity, only parsing).

(** [swtch(&p->context, &mycpu()->context)]: the kernel thread leaves the
    CPU and continues when the scheduler switches back to it. *)
Definition swtch : M unit := fun s => Swtch s (fun s' => Ret tt s').

(** A C loop whose body may [break] or [return]: the body tests the loop
    condition itself and says how the loop goes on.  Every iteration uses
    one unit of [fuel]. *)
Inductive ctl (S R : Type) : Type :=
| Continue (x : S)
| Break (x : S)
| Return (v : R).

Arguments Continue {S R} x.
Arguments Break {S R} x.
Arguments Return {S R} v.

Fixpoint loop {S R : Type} (fuel : nat) (body : S -> M (ctl S R)) (x : S)
    : M (S + R) :=
  match fuel with
  | O => fun _ => Diverge
  | Datatypes.S fuel' =>
      c <- body x ;;
      match c with
      | Continue x' => loop fuel' body x'
      | Break x' => ret (inl x')
      | Return v => ret (inr v)
      end
  end.

(** ** Process slots *)

(** Reading [p->...] through a pointer: a null pointer or an index outside
    the table has no slot behind it. *)
Definition deref (p : option nat) : M nat :=
  match p with
  | Some i => ret i
  | None => fault
  end.

Definition getp (i : nat) : M proc :=
  fun s => match procs s !! i with
           | Some p => Ret p s
           | None => Fault s
           end.

Definition setp (i : nat) (f : proc -> proc) : M unit :=
  fun s => match procs s !! i with
           | Some p => Ret tt (set_procs (<[i := f p]> (procs s)) s)
           | None => Fault s
           end.

(** ** Spinlocks *)

(** Modelled from the spec: riscv.h ([intr_get], [intr_on]) is not among
    the sources; [intr_get] tells whether interrupts are enabled on this
    CPU. *)
Definition intr_get : M bool := gets (fun s => sie (kcpu s)).

(** Modelled from the spec: [intr_on] of riscv.h, not among the sources,
    enables interrupts on this CPU. *)
Definition intr_on : M unit :=
  modify (fun s => set_kcpu (mkCpu (cproc (kcpu s)) (noff (kcpu s))
                                   (intena (kcpu s)) true) s).

(** Modelled from the spec: spinlock.c ([push_off], [pop_off], [holding],
    [acquire], [release]) is not among the sources.  The spec has it as
    mutual exclusion with interrupt-disable nesting per CPU: acquiring
    disables interrupts on the current CPU and increments the nesting
    counter [noff], [intena] saves the interrupt-enable state from before
    the outermost acquire, releasing decrements and re-enables interrupts
    only when the nesting reaches zero, and violations of the lock
    discipline are fatal panics.  [push_cpu] is the effect of [push_off]
    on the CPU. *)
Definition push_cpu (c : cpu) : cpu :=
  mkCpu (cproc c) (noff c + 1)
        (if noff c =? 0 then sie c else intena c) false.

(** Modelled from the spec: the effect of [pop_off] of spinlock.c on the
    CPU; interrupts come back on only when the nesting reaches zero and
    they were on before the outermost [push_off]. *)
Definition pop_cpu (c : cpu) : cpu :=
  mkCpu (cproc c) (noff c - 1) (intena c)
        (if (noff c - 1 =? 0) && intena c then true else sie c).

(** Modelled from the spec: [push_off] of spinlock.c disables interrupts
    and counts one more level of nesting. *)
Definition push_off : M unit := modify (fun s => set_kcpu (push_cpu (kcpu s)) s).

(** Modelled from the spec: [pop_off] of spinlock.c undoes one
    [push_off]; it is fatal with interrupts enabled or with no level of
    nesting left. *)
Definition pop_off : M unit :=
  i <- intr_get ;;
  if i then panic "pop_off - interruptible"
  else
    n <- gets (fun s => noff (kcpu s)) ;;
    if n <? 1 then panic "pop_off"
    else modify (fun s => set_kcpu (pop_cpu (kcpu s)) s).

(** Modelled from the spec: [holding] of spinlock.c, whether this CPU
    holds the lock. *)
Definition holding (lk : lockid) : M bool :=
  gets (fun s => bool_decide (lk ∈ held s)).

(** Modelled from the spec: [acquire] of spinlock.c; taking a lock this
    CPU already holds is fatal. *)
Definition acquire (lk : lockid) : M unit :=
  push_off ;;;
  h <- holding lk ;;
  if h then panic "acquire"
  else modify (fun s => set_held (lk :: held s) s).

(** Modelled from the spec: [release] of spinlock.c; releasing a lock
    this CPU does not hold is fatal. *)
Definition release (lk : lockid) : M unit :=
  h <- holding lk ;;
  if negb h then panic "release"
  else
    modify (fun s => set_held (filter (fun l => l ≠ lk) (held s)) s) ;;;
    pop_off.

(** ** proc.c *)

Definition mycpu : M cpu := gets kcpu.

Definition myproc : M (option nat) :=
  push_off ;;;
  c <- mycpu ;;
  let p := cproc c in
  pop_off ;;;
  ret p.

Definition allocpid : M Z :=
  acquire PidLock ;;;
  pid <- gets nextpid ;;
  modify (fun s => set_nextpid (wrap_int (nextpid s + 1)) s) ;;;
  release PidLock ;;;
  ret pid.

Definition set_intena (v : bool) : M unit :=
  modify (fun s => set_kcpu (mkCpu (cproc (kcpu s)) (noff (kcpu s)) v
                                   (sie (kcpu s))) s).

Definition sched : M unit :=
  p <- myproc ;;
  p <- deref p ;;
  h <- holding (ProcLock p) ;;
  if negb h then panic "sched p->lock"
  else
    c <- mycpu ;;
    if negb (noff c =? 1) then panic "sched locks"
    else
      pr <- getp p ;;
      if bool_decide (state pr = RUNNING) then panic "sched running"
      else
        i <- intr_get ;;
        if i then panic "sched interruptible"
        else
          c <- mycpu ;;
          let intena := intena c in
          swtch ;;;
          set_intena intena.

Definition yield : M unit :=
  p <- myproc ;;
  p <- deref p ;;
  acquire (ProcLock p) ;;;
  setp p (set_state RUNNABLE) ;;;
  sched ;;;
  release (ProcLock p).

Definition sleep (ch : channel) (lk : lockid) : M unit :=
  p <- myproc ;;
  p <- deref p ;;
  acquire (ProcLock p) ;;;
  release lk ;;;
  setp p (set_chan ch) ;;;
  setp p (set_state SLEEPING) ;;;
  sched ;;;
  setp p (set_chan NoChan) ;;;
  release (ProcLock p) ;;;
  acquire lk.

(** [wakeup]: one pass over the table; [n] counts the slots still to
    visit, [i] is the slot [p] points at. *)
Fixpoint wakeup_scan (n : nat) (i : nat) (ch : channel) : M unit :=
  match n with
  | O => ret tt
  | S n' =>
      me <- myproc ;;
      (if bool_decide (Some i ≠ me) then
         acquire (ProcLock i) ;;;
         pr <- getp i ;;
         (if bool_decide (state pr = SLEEPING) && bool_decide (chan pr = ch)
          then setp i (set_state RUNNABLE)
          else ret tt) ;;;
         release (ProcLock i)
       else ret tt) ;;;
      wakeup_scan n' (S i) ch
  end.

Definition NPROC : M nat := gets (fun s => length (procs s)).

Definition wakeup (ch : channel) : M unit :=
  n <- NPROC ;;
  wakeup_scan n 0%nat ch.

Definition kfree (pa : Z) : M unit := modify (emit (EvKfree pa)).
Definition uvmunmap (pt va npages do_free : Z) : M unit :=
  modify (emit (EvUvmunmap pt va npages do_free)).
Definition uvmfree (pt size : Z) : M unit := modify (emit (EvUvmfree pt size)).

Definition proc_freepagetable (pt size : Z) : M unit :=
  uvmunmap pt TRAMPOLINE 1 0 ;;;
  uvmunmap pt TRAPFRAME 1 0 ;;;
  uvmfree pt size.

Definition freeproc (p : nat) : M unit :=
  pr <- getp p ;;
  (if bool_decide (trapframe pr ≠ 0) then kfree (trapframe pr) else ret tt) ;;;
  setp p (set_trapframe 0) ;;;
  pr <- getp p ;;
  (if bool_decide (pagetable pr ≠ 0)
   then proc_freepagetable (pagetable pr) (sz pr)
   else ret tt) ;;;
  setp p (set_pagetable 0) ;;;
  setp p (set_sz 0) ;;;
  setp p (set_pid 0) ;;;
  setp p (set_parent None) ;;;
  setp p (fun q => set_name (<[0%nat := 0]> (name q)) q) ;;;
  setp p (set_chan NoChan) ;;;
  setp p (set_killed 0) ;;;
  setp p (set_xstate 0) ;;;
  setp p (set_state UNUSED).

(** [kill]: the scan returns from inside the loop at the first slot whose
    pid matches. *)
Fixpoint kill_scan (n : nat) (i : nat) (pid0 : Z) : M Z :=
  match n with
  | O => ret (-1)
  | S n' =>
      acquire (ProcLock i) ;;;
      pr <- getp i ;;
      if pid pr =? pid0 then
        setp i (set_killed 1) ;;;
        pr <- getp i ;;
        (if bool_decide (state pr = SLEEPING)
         then setp i (set_state RUNNABLE)
         else ret tt) ;;;
        release (ProcLock i) ;;;
        ret 0
      else
        release (ProcLock i) ;;;
        kill_scan n' (S i) pid0
  end.

Definition kill (pid0 : Z) : M Z :=
  n <- NPROC ;;
  kill_scan n 0%nat pid0.

(** The four bytes of an [int] in memory (little endian). *)
Definition int_bytes (x : Z) : list Z :=
  [wrap_uint x mod 256; wrap_uint x / 256 mod 256;
   wrap_uint x / 65536 mod 256; wrap_uint x / 16777216 mod 256].

Definition do_copyout (pt va : Z) (bytes : list Z) : M bool :=
  fun s => let r := copyout (mem s) pt va bytes in Ret (fst r) (set_mem (snd r) s).

(** The inner [for] of [wait]: [Some v] when the scan returns [v] from
    inside the loop, [None] with [havekids] when it runs to the end. *)
Fixpoint wait_scan (n : nat) (np : nat) (p : option nat) (addr : Z)
    (havekids : bool) : M (option Z * bool) :=
  match n with
  | O => ret (None, havekids)
  | S n' =>
      npr <- getp np ;;
      if bool_decide (parent npr = p) then
        acquire (ProcLock np) ;;;
        npr <- getp np ;;
        if bool_decide (state npr = ZOMBIE) then
          let pid := pid npr in
          failed <-
            (if bool_decide (addr ≠ 0) then
               pi <- deref p ;;
               pr <- getp pi ;;
               ok <- do_copyout (pagetable pr) addr (int_bytes (xstate npr)) ;;
               ret (negb ok)
             else ret false) ;;
          if (failed : bool) then
            release (ProcLock np) ;;;
            release WaitLock ;;;
            ret (Some (-1), true)
          else
            freeproc np ;;;
            release (ProcLock np) ;;;
            release WaitLock ;;;
            ret (Some pid, true)
        else
          release (ProcLock np) ;;;
          wait_scan n' (S np) p addr true
      else wait_scan n' (S np) p addr havekids
  end.

(** The body of the outer [for(;;)] of [wait]; the loop has no exit but
    the two [return]s. *)
Definition wait_body (p : option nat) (addr : Z) (_ : unit) : M (ctl unit Z) :=
  n <- NPROC ;;
  r <- wait_scan n 0%nat p addr false ;;
  match r with
  | (Some v, _) => ret (Return v)
  | (None, havekids) =>
      stop <-
        (if negb havekids then ret true
         else pi <- deref p ;; pr <- getp pi ;;
              ret (negb (killed pr =? 0))) ;;
      if (stop : bool) then
        release WaitLock ;;;
        ret (Return (-1))
      else
        pi <- deref p ;;
        sleep (ProcChan pi) WaitLock ;;;
        ret (Continue tt)
  end.

Definition wait (fuel : nat) (addr : Z) : M Z :=
  p <- myproc ;;
  acquire WaitLock ;;;
  r <- loop fuel (wait_body p addr) tt ;;
  match r with
  | inr v => ret v
  | inl _ => fun _ => Diverge
  end.

(** One visit of a slot by [scheduler], up to the switch into the process
    and from the switch back. *)
Definition set_cproc (v : option nat) : M unit :=
  modify (fun s => set_kcpu (mkCpu v (noff (kcpu s)) (intena (kcpu s))
                                   (sie (kcpu s))) s).

Definition scheduler_visit (p : nat) : M unit :=
  acquire (ProcLock p) ;;;
  pr <- getp p ;;
  (if bool_decide (state pr = RUNNABLE) then
     setp p (set_state RUNNING) ;;;
     set_cproc (Some p) ;;;
     swtch ;;;
     set_cproc None
   else ret tt) ;;;
  release (ProcLock p).

(** ** pipe.c *)

Definition set_pipe (f : pipe -> pipe) : M unit :=
  modify (fun s => set_kpipe (f (kpipe s)) s).

(** The initialisation [pipealloc] gives a new pipe. *)
Definition pipe_init (pi : pipe) : pipe := mkPipe (data pi) 0 0 1 1.

Definition pipeclose (writable : Z) : M unit :=
  acquire PipeLock ;;;
  (if negb (writable =? 0) then
     set_pipe (fun pi => mkPipe (data pi) (nread pi) (nwrite pi) (readopen pi) 0) ;;;
     wakeup PipeNread
   else
     set_pipe (fun pi => mkPipe (data pi) (nread pi) (nwrite pi) 0 (writeopen pi)) ;;;
     wakeup PipeNwrite) ;;;
  pi <- gets kpipe ;;
  if (readopen pi =? 0) && (writeopen pi =? 0) then
    release PipeLock ;;;
    modify (emit EvKfreePipe)
  else release PipeLock.

(** [pi->nwrite == pi->nread + PIPESIZE], the test of [pipewrite] for a
    full pipe, and [pi->nread == pi->nwrite], the test of [piperead] for
    an empty one; both in [uint] arithmetic. *)
Definition pipe_full (pi : pipe) : bool :=
  nwrite pi =? wrap_uint (nread pi + PIPESIZE).

Definition pipe_empty (pi : pipe) : bool :=
  nread pi =? nwrite pi.

(** [pi->data[pi->nwrite++ % PIPESIZE] = ch] *)
Definition pipe_put (ch : Z) (pi : pipe) : pipe :=
  mkPipe (<[Z.to_nat (nwrite pi mod PIPESIZE) := ch]> (data pi))
         (nread pi) (wrap_uint (nwrite pi + 1)) (readopen pi) (writeopen pi).

(** [pi->nread++] of [ch = pi->data[pi->nread++ % PIPESIZE]] *)
Definition pipe_take (pi : pipe) : pipe :=
  mkPipe (data pi) (wrap_uint (nread pi + 1)) (nwrite pi) (readopen pi)
         (writeopen pi).

Definition pipe_byte (pi : pipe) : Z :=
  default 0 (data pi !! Z.to_nat (nread pi mod PIPESIZE)).

(** The body of the [while(i < n)] of [pipewrite], run with the pipe lock
    held. *)
Definition pipewrite_body (pr : option nat) (addr n : Z) (i : Z) : M (ctl Z Z) :=
  if i <? n then
    pi <- gets kpipe ;;
    stop <-
      (if readopen pi =? 0 then ret true
       else p <- deref pr ;; q <- getp p ;; ret (negb (killed q =? 0))) ;;
    if (stop : bool) then
      release PipeLock ;;;
      ret (Return (-1))
    else
      pi <- gets kpipe ;;
      if pipe_full pi then
        wakeup PipeNread ;;;
        sleep PipeNwrite PipeLock ;;;
        ret (Continue i)
      else
        p <- deref pr ;;
        q <- getp p ;;
        um <- gets mem ;;
        match copyin um (pagetable q) (wrap_uint64 (addr + i)) with
        | None => ret (Break i)
        | Some ch =>
            set_pipe (pipe_put ch) ;;;
            ret (Continue (i + 1))
        end
  else ret (Break i).

Definition pipewrite (fuel : nat) (addr n : Z) : M Z :=
  pr <- myproc ;;
  acquire PipeLock ;;;
  r <- loop fuel (pipewrite_body pr addr n) 0 ;;
  match r with
  | inr v => ret v
  | inl i =>
      wakeup PipeNread ;;;
      release PipeLock ;;;
      ret i
  end.

(** The body of the [while] of [piperead] that waits for data. *)
Definition piperead_wait (pr : option nat) (_ : unit) : M (ctl unit Z) :=
  pi <- gets kpipe ;;
  if pipe_empty pi && negb (writeopen pi =? 0) then
    p <- deref pr ;;
    q <- getp p ;;
    if negb (killed q =? 0) then
      release PipeLock ;;;
      ret (Return (-1))
    else
      sleep PipeNread PipeLock ;;;
      ret (Continue tt)
  else ret (Break tt).

(** The [for(i = 0; i < n; i++)] of [piperead]; [cnt] is the number of
    iterations left before [i] reaches [n]. *)
Fixpoint piperead_copy (cnt : nat) (pr : option nat) (addr i : Z) : M Z :=
  match cnt with
  | O => ret i
  | S cnt' =>
      pi <- gets kpipe ;;
      if pipe_empty pi then ret i
      else
        let ch := pipe_byte pi in
        set_pipe pipe_take ;;;
        p <- deref pr ;;
        q <- getp p ;;
        ok <- do_copyout (pagetable q) (wrap_uint64 (addr + i)) [ch] ;;
        if (ok : bool) then piperead_copy cnt' pr addr (i + 1)
        else ret i
  end.

Definition piperead (fuel : nat) (addr n : Z) : M Z :=
  pr <- myproc ;;
  acquire PipeLock ;;;
  r <- loop fuel (piperead_wait pr) tt ;;
  match r with
  | inr v => ret v
  | inl _ =>
      i <- piperead_copy (Z.to_nat n) pr addr 0 ;;
      wakeup PipeNwrite ;;;
      release PipeLock ;;;
      ret i
  end.

(** A process using the pipe: its system calls on the pipe, and the
    timer interrupts that make it [yield] in between. *)
Inductive pipe_op : Type :=
| OpWrite (addr n : Z)
| OpRead (addr n : Z)
| OpClose (writable : Z)
| OpYield.

Definition do_op (fuel : nat) (op : pipe_op) : M unit :=
  match op with
  | OpWrite addr n => pipewrite fuel addr n ;;; ret tt
  | OpRead addr n => piperead fuel addr n ;;; ret tt
  | OpClose writable => pipeclose writable
  | OpYield => yield
  end.

Fixpoint pipe_ops (fuel : nat) (ops : list pipe_op) : M unit :=
  match ops with
  | [] => ret tt
  | op :: ops' => do_op fuel op ;;; pipe_ops fuel ops'
  end.

(** ** Running a computation against the states found at each dispatch *)

Inductive outcome (A : Type) : Type :=
| Done (a : A) (s : kstate)
| Panicked (msg : string) (s : kstate)
| Faulted (s : kstate)
| Blocked (s : kstate)
| OutOfFuel.

Arguments Done {A} a s.
Arguments Panicked {A} msg s.
Arguments Faulted {A} s.
Arguments Blocked {A} s.
Arguments OutOfFuel {A}.

(** [runk r ws]: the computation is resumed, at its successive
    switches, with the states of [ws]; it stays [Blocked] when they are
    used up.  The states not consumed are returned as well. *)
Fixpoint runk {A : Type} (r : res A) (ws : list kstate)
    : outcome A * list kstate :=
  match r with
  | Ret a s => (Done a s, ws)
  | Panic msg s => (Panicked msg s, ws)
  | Fault s => (Faulted s, ws)
  | Diverge => (OutOfFuel, ws)
  | Swtch s k =>
      match ws with
      | [] => (Blocked s, [])
      | w :: ws' => runk (k w) ws'
      end
  end.

Definition run {A : Type} (r : res A) (ws : list kstate) : outcome A :=
  fst (runk r ws).

(** One iteration of a loop body that ends in [Continue], between two
    visits of the loop head; [visits] are the loop heads an execution
    goes through. *)
Definition iter_step {S R : Type} (body : S -> M (ctl S R))
    (c c' : S * kstate * list kstate) : Prop :=
  runk (body c.1.1 c.1.2) c.2 = (Done (Continue c'.1.1) c'.1.2, c'.2).


End Kernel.

Notation "x <- m ;; k" := (bind m (fun x => k))
  (at level 100, m at next level, right associativity, only parsing).
Notation "m ;;; k" := (bind m (fun _ => k))
  (at level 100, k at level 200, right associativity, only parsing).

Arguments Ret {umem A} a s.
Arguments Continue {S R} x.
Arguments Break {S R} x.
Arguments Return {S R} v.
Arguments Panic {umem A} msg s.
Arguments Fault {umem A} s.
Arguments Swtch {umem A} s k.
Arguments Diverge {umem A}.
Arguments Done {umem A} a s.
Arguments Panicked {umem A} msg s.
Arguments Faulted {umem A} s.
Arguments Blocked {umem A} s.
Arguments OutOfFuel {umem A}.
Arguments mkK {umem} procs kcpu held nextpid kpipe mem trace.

(** ** proc.c: the scheduler loop *)

Section Scheduler.

Context {umem : Type}.

(** The inner [for] of [scheduler]: [n] counts the slots still to visit,
    [i] is the slot [p] points at. *)
Fixpoint scheduler_scan (n : nat) (i : nat) : @M umem unit :=
  match n with
  | O => ret tt
  | S n' => scheduler_visit i ;;; scheduler_scan n' (S i)
  end.

(** The body of the [for(;;)] of [scheduler]. *)
Definition scheduler_body (_ : unit) : @M umem (ctl unit Empty_set) :=
  intr_on ;;;
  n <- NPROC ;;
  scheduler_scan n 0%nat ;;;
  ret (Continue tt).

(** [scheduler] has no [return]: its result type is empty. *)
Definition scheduler (fuel : nat) : @M umem Empty_set :=
  c <- mycpu ;;
  set_cproc None ;;;
  r <- loop fuel scheduler_body tt ;;
  match r with
  | inr e => ret e
  | inl _ => fun _ => Diverge
  end.

End Scheduler.

(** ** proc.c: creating and ending processes *)

Definition set_context (v : Z * Z) (p : proc) : proc :=
  mkProc (state p) (chan p) (killed p) (xstate p) (pid p) (parent p) (kstack p)
         (sz p) (pagetable p) (trapframe p) v (ofile p) (cwd p) (name p).
Definition set_ofile (v : list Z) (p : proc) : proc :=
  mkProc (state p) (chan p) (killed p) (xstate p) (pid p) (parent p) (kstack p)
         (sz p) (pagetable p) (trapframe p) (context p) v (cwd p) (name p).
Definition set_cwd (v : Z) (p : proc) : proc :=
  mkProc (state p) (chan p) (killed p) (xstate p) (pid p) (parent p) (kstack p)
         (sz p) (pagetable p) (trapframe p) (context p) (ofile p) v (name p).

(** A [struct proc *] used as a wait channel. *)
Definition chan_of (p : option nat) : channel :=
  match p with
  | Some i => ProcChan i
  | None => NoChan
  end.

Section Process.

Context {umem : Type}.

(** Constants of memlayout.h and riscv.h, and the addresses of
    [trampoline] and [forkret]. *)
Variable TRAMPOLINE : Z.
Variable TRAPFRAME : Z.
Variable PGSIZE : Z.
Variable PTE_R : Z.
Variable PTE_W : Z.
Variable PTE_X : Z.
Variable trampoline : Z.
Variable forkret : Z.

(** [initproc], written once by [userinit]. *)
Variable initproc : option nat.

(** The functions of the other kernel files that return a value the code
    here looks at, or that work on data this model does not hold (the
    file table, the inodes, the page tables, the trapframe pages), are
    parameters: [kalloc] (0 when out of memory), [uvmcreate] (0 on
    failure), [mappages] and [uvmcopy] (negative on failure), [uvmalloc]
    and [uvmdealloc] (the new size), [filedup], [idup], [fileclose],
    [begin_op], [iput], [end_op], the copy of one trapframe to another,
    the store to [trapframe->a0], and [safestrcpy dst src n], the new
    contents of [dst]. *)
Variable kalloc : @M umem Z.
Variable uvmcreate : @M umem Z.
Variable mappages : Z -> Z -> Z -> Z -> Z -> @M umem Z.
Variable uvmcopy : Z -> Z -> Z -> @M umem Z.
Variable uvmalloc : Z -> Z -> Z -> @M umem Z.
Variable uvmdealloc : Z -> Z -> Z -> @M umem Z.
Variable filedup : Z -> @M umem Z.
Variable idup : Z -> @M umem Z.
Variable fileclose : Z -> @M umem unit.
Variable begin_op : @M umem unit.
Variable iput : Z -> @M umem unit.
Variable end_op : @M umem unit.
Variable trapframe_copy : Z -> Z -> @M umem unit.
Variable trapframe_set_a0 : Z -> Z -> @M umem unit.
Variable safestrcpy : list Z -> list Z -> Z -> list Z.

(** [proc_pagetable]: an empty page table with the trampoline and the
    trapframe mapped; what has been set up is undone when a step fails. *)
Definition proc_pagetable (p : nat) : @M umem Z :=
  pagetable <- uvmcreate ;;
  if pagetable =? 0 then ret 0
  else
    r <- mappages pagetable TRAMPOLINE PGSIZE trampoline (Z.lor PTE_R PTE_X) ;;
    if r <? 0 then
      uvmfree pagetable 0 ;;;
      ret 0
    else
      pr <- getp p ;;
      r <- mappages pagetable TRAPFRAME PGSIZE (trapframe pr) (Z.lor PTE_R PTE_W) ;;
      if r <? 0 then
        uvmunmap pagetable TRAMPOLINE 1 0 ;;;
        uvmfree pagetable 0 ;;;
        ret 0
      else ret pagetable.

(** The scan of [allocproc]: the first UNUSED slot, returned with its
    lock held, or the null pointer. *)
Fixpoint allocproc_scan (n : nat) (i : nat) : @M umem (option nat) :=
  match n with
  | O => ret None
  | S n' =>
      acquire (ProcLock i) ;;;
      pr <- getp i ;;
      if bool_decide (state pr = UNUSED) then ret (Some i)
      else
        release (ProcLock i) ;;;
        allocproc_scan n' (S i)
  end.

(** [allocproc]: after the scan, the slot found is set up; when an
    allocation fails it is freed again.  [p->kstack + PGSIZE] is uint64
    arithmetic. *)
Definition allocproc : @M umem (option nat) :=
  n <- NPROC ;;
  r <- allocproc_scan n 0%nat ;;
  match r with
  | None => ret None
  | Some p =>
      pid <- allocpid ;;
      setp p (set_pid pid) ;;;
      setp p (set_state USED) ;;;
      tf <- kalloc ;;
      setp p (set_trapframe tf) ;;;
      if tf =? 0 then
        freeproc TRAMPOLINE TRAPFRAME p ;;;
        release (ProcLock p) ;;;
        ret None
      else
        pt <- proc_pagetable p ;;
        setp p (set_pagetable pt) ;;;
        if pt =? 0 then
          freeproc TRAMPOLINE TRAPFRAME p ;;;
          release (ProcLock p) ;;;
          ret None
        else
          pr <- getp p ;;
          setp p (set_context (forkret, wrap_uint64 (kstack pr + PGSIZE))) ;;;
          ret (Some p)
  end.

(** [growproc]: the local [sz] is a [uint], so the size is cut to 32
    bits on the way in and on the way out. *)
Definition growproc (n : Z) : @M umem Z :=
  p <- myproc ;;
  p <- deref p ;;
  pr <- getp p ;;
  let sz := wrap_uint (sz pr) in
  if 0 <? n then
    r <- uvmalloc (pagetable pr) sz (wrap_uint (sz + n)) ;;
    let sz := wrap_uint r in
    if sz =? 0 then ret (-1)
    else
      setp p (set_sz sz) ;;;
      ret 0
  else if n <? 0 then
    r <- uvmdealloc (pagetable pr) sz (wrap_uint (sz + n)) ;;
    setp p (set_sz (wrap_uint r)) ;;;
    ret 0
  else
    setp p (set_sz sz) ;;;
    ret 0.

(** The loop of [fork] over the open files; NOFILE is the length of
    [ofile]. *)
Fixpoint fork_files (n : nat) (i : nat) (p np : nat) : @M umem unit :=
  match n with
  | O => ret tt
  | S n' =>
      pr <- getp p ;;
      match ofile pr !! i with
      | None => fault
      | Some f =>
          (if negb (f =? 0) then
             f' <- filedup f ;;
             setp np (fun q => set_ofile (<[i := f']> (ofile q)) q)
           else ret tt) ;;;
          fork_files n' (S i) p np
      end
  end.

Definition fork : @M umem Z :=
  p <- myproc ;;
  np <- allocproc ;;
  match np with
  | None => ret (-1)
  | Some np =>
      p <- deref p ;;
      pr <- getp p ;;
      npr <- getp np ;;
      r <- uvmcopy (pagetable pr) (pagetable npr) (sz pr) ;;
      if r <? 0 then
        freeproc TRAMPOLINE TRAPFRAME np ;;;
        release (ProcLock np) ;;;
        ret (-1)
      else
        pr <- getp p ;;
        setp np (set_sz (sz pr)) ;;;
        npr <- getp np ;;
        trapframe_copy (trapframe npr) (trapframe pr) ;;;
        trapframe_set_a0 (trapframe npr) 0 ;;;
        fork_files (length (ofile pr)) 0%nat p np ;;;
        pr <- getp p ;;
        c <- idup (cwd pr) ;;
        setp np (set_cwd c) ;;;
        pr <- getp p ;;
        setp np (fun q => set_name (safestrcpy (name q) (name pr)
                                      (Z.of_nat (length (name pr)))) q) ;;;
        npr <- getp np ;;
        let pid := pid npr in
        release (ProcLock np) ;;;
        acquire WaitLock ;;;
        setp np (set_parent (Some p)) ;;;
        release WaitLock ;;;
        acquire (ProcLock np) ;;;
        setp np (set_state RUNNABLE) ;;;
        release (ProcLock np) ;;;
        ret pid
  end.

(** [reparent]: the children of [p] are given to [initproc], which is
    woken for each of them. *)
Fixpoint reparent_scan (n : nat) (i : nat) (p : option nat) : @M umem unit :=
  match n with
  | O => ret tt
  | S n' =>
      pp <- getp i ;;
      (if bool_decide (parent pp = p) then
         setp i (set_parent initproc) ;;;
         wakeup (chan_of initproc)
       else ret tt) ;;;
      reparent_scan n' (S i) p
  end.

Definition reparent (p : option nat) : @M umem unit :=
  n <- NPROC ;;
  reparent_scan n 0%nat p.

(** The loop of [exit] that closes the open files. *)
Fixpoint close_files (n : nat) (fd : nat) (p : nat) : @M umem unit :=
  match n with
  | O => ret tt
  | S n' =>
      pr <- getp p ;;
      match ofile pr !! fd with
      | None => fault
      | Some f =>
          (if negb (f =? 0) then
             fileclose f ;;;
             setp p (fun q => set_ofile (<[fd := 0]> (ofile q)) q)
           else ret tt) ;;;
          close_files n' (S fd) p
      end
  end.

Definition exit (status : Z) : @M umem unit :=
  p <- myproc ;;
  if bool_decide (p = initproc) then panic "init exiting"
  else
    pi <- deref p ;;
    pr <- getp pi ;;
    close_files (length (ofile pr)) 0%nat pi ;;;
    begin_op ;;;
    pr <- getp pi ;;
    iput (cwd pr) ;;;
    end_op ;;;
    setp pi (set_cwd 0) ;;;
    acquire WaitLock ;;;
    reparent p ;;;
    pr <- getp pi ;;
    wakeup (chan_of (parent pr)) ;;;
    acquire (ProcLock pi) ;;;
    setp pi (set_xstate status) ;;;
    setp pi (set_state ZOMBIE) ;;;
    release WaitLock ;;;
    sched ;;;
    panic "zombie exit".

End Process.

(** The calls [exit] makes into the file system: [fileclose(f)],
    [begin_op()], [iput(ip)], [end_op()]. *)
Inductive fs_call : Type :=
| FsClose (f : Z)
| FsBegin
| FsIput (ip : Z)
| FsEnd.

(** ** user/cat.c *)

(** How a call in a user program ends: it returns to its caller, or the
    process has called [exit], which does not return, or the fuel given to
    a loop has run out. *)
Inductive ures (S A : Type) : Type :=
| UReturn (a : A) (s : S)
| UExit (status : Z) (s : S)
| UFuel.
Arguments UReturn {S A} a s.
Arguments UExit {S A} status s.
Arguments UFuel {S A}.

(** The newline of a C string. *)
Definition nl : string := String (Ascii.ascii_of_nat 10) EmptyString.

Section Cat.

(** [W] is the state of the world outside the program.  The system calls
    and [fprintf] of user/user.h are functions of it: [read fd buf n]
    returns its result and the buffer as the kernel leaves it,
    [write fd buf n] is given the buffer, [open] the path and the mode. *)
Context {W : Type}.
Variable read : Z -> list Z -> Z -> W -> Z * list Z * W.
Variable write : Z -> list Z -> Z -> W -> Z * W.
Variable open : string -> Z -> W -> Z * W.
Variable close : Z -> W -> Z * W.
Variable fprintf : Z -> string -> list string -> W -> W.

(** The state of the program: the global [buf] and the world. *)
Definition ustate : Type := list Z * W.

(** [char buf[512]]. *)
Definition buf0 : list Z := replicate 512 0.

(** [cat]: the while loop, one read per unit of fuel. *)
Fixpoint cat (fuel : nat) (fd : Z) (s : ustate) : ures ustate unit :=
  match fuel with
  | O => UFuel
  | S fuel' =>
      let '(n, b, w) := read fd s.1 512 s.2 in
      if 0 <? n then
        let '(m, w1) := write 1 b n w in
        if negb (m =? n) then
          UExit 1 (b, fprintf 2 ("cat: write error" ++ nl)%string [] w1)
        else cat fuel' fd (b, w1)
      else if n <? 0 then
        UExit 1 (b, fprintf 2 ("cat: read error" ++ nl)%string [] w)
      else UReturn tt (b, w)
  end.

(** The for loop of [main] over the arguments from [argv[1]] on, and the
    [exit(0)] that follows it. *)
Fixpoint main_args (fuel : nat) (args : list string) (s : ustate) : ures ustate Z :=
  match args with
  | [] => UExit 0 s
  | a :: rest =>
      let '(fd, w) := open a 0 s.2 in
      if fd <? 0 then
        UExit 1 (s.1, fprintf 2 ("cat: cannot open %s" ++ nl)%string [a] w)
      else
        match cat fuel fd (s.1, w) with
        | UReturn _ s1 =>
            let '(_, w2) := close fd s1.2 in
            main_args fuel rest (s1.1, w2)
        | UExit st s1 => UExit st s1
        | UFuel => UFuel
        end
  end.

(** [main]: [argc] is the length of [argv]. *)
Definition main (fuel : nat) (argv : list string) (s : ustate) : ures ustate Z :=
  if Z.of_nat (length argv) <=? 1 then
    match cat fuel 0 s with
    | UReturn _ s1 => UExit 0 s1
    | UExit st s1 => UExit st s1
    | UFuel => UFuel
    end
  else main_args fuel (drop 1 argv) s.

End Cat.

(** ** Concrete instances *)

(** A user memory that is all one page: addresses below 4096 are mapped,
    a byte read at [va] is [va mod 256]; and the constants of
    memlayout.h for MAXVA = 2^38. *)
Definition copyin0 : unit -> Z -> Z -> option Z :=
  fun _ _ va => if va <? 4096 then Some (va mod 256) else None.
Definition copyout0 : unit -> Z -> Z -> list Z -> bool * unit :=
  fun um _ va _ => (va <? 4096, um).
Definition TRAMPOLINE0 : Z := 274877902848.
Definition TRAPFRAME0 : Z := 274877898752.

Definition init_name : list Z :=
  [105; 110; 105; 116; 0; 0; 0; 0; 0; 0; 0; 0; 0; 0; 0; 0].

(** The running process, pid 1, and a child of it, pid 2, that has
    exited with status 7. *)
Definition proc_run : proc :=
  mkProc RUNNING NoChan 0 0 1 None 0 4096 7 9 (0, 0) [] 0 init_name.
Definition proc_zombie : proc :=
  mkProc ZOMBIE NoChan 0 7 2 (Some 0%nat) 0 4096 8 10 (0, 0) [] 0 init_name.
Definition proc_run_killed : proc := set_killed 1 proc_run.

Definition pipe_new : pipe := mkPipe (replicate 512 0) 0 0 1 1.

(** Process 0 in a system call, no lock held, interrupts enabled. *)
Definition K_user (ps : list proc) : @kstate unit :=
  mkK ps (mkCpu (Some 0%nat) 0 false true) [] 3 pipe_new tt [].
Definition K1 : @kstate unit := K_user [proc_run].
Definition K_parent : @kstate unit := K_user [proc_run; proc_zombie].
(** Process 0 calls [wait] while its child, pid 2 in slot 1, is still
    running; it is dispatched again once the child has exited with status
    7; and the state [wait] then returns in, the child reaped. *)
Definition proc_live_child : proc :=
  mkProc RUNNABLE NoChan 0 0 2 (Some 0%nat) 0 4096 8 10 (0, 0) [] 0 init_name.
Definition K_waiting : @kstate unit := K_user [proc_run; proc_live_child].
Definition K_child_exited : @kstate unit :=
  mkK [set_state RUNNING (set_chan (ProcChan 0) proc_run); proc_zombie]
      (mkCpu (Some 0%nat) 1 false false) [ProcLock 0] 3 pipe_new tt [].
Definition K_reaped : @kstate unit :=
  mkK [proc_run;
       mkProc UNUSED NoChan 0 0 0 None 0 0 0 0 (0, 0) [] 0 (<[0%nat := 0]> init_name)]
      (mkCpu (Some 0%nat) 0 true true) [] 3 pipe_new tt
      [EvKfree 10; EvUvmunmap 8 TRAMPOLINE0 1 0; EvUvmunmap 8 TRAPFRAME0 1 0;
       EvUvmfree 8 4096].
Definition K_killed_parent : @kstate unit := K_user [proc_run_killed; proc_zombie].

(** [nextpid] at the largest [int]. *)
Definition K_maxpid : @kstate unit :=
  mkK [proc_run] (mkCpu (Some 0%nat) 0 false true) [] 2147483647 pipe_new tt [].

(** Process 0 about to call [sched]: its slot lock held, nesting one, not
    RUNNING, but interrupts enabled. *)
Definition K_intr_on : @kstate unit :=
  mkK [set_state RUNNABLE proc_run] (mkCpu (Some 0%nat) 1 false true)
      [ProcLock 0] 3 pipe_new tt [].

(** Process 0 holding its own slot lock, as [yield] does. *)
Definition K_own_lock : @kstate unit :=
  mkK [proc_run] (mkCpu (Some 0%nat) 1 true false) [ProcLock 0] 3 pipe_new tt [].

(** The pipe holds the two bytes 65, 66; the user buffer of the reader
    starts at the last mapped address, so the second copy fails. *)
Definition pipe_two : pipe :=
  mkPipe (<[0%nat := 65]> (<[1%nat := 66]> (replicate 512 0))) 0 2 1 1.
Definition K_two : @kstate unit :=
  mkK [proc_run] (mkCpu (Some 0%nat) 0 false true) [] 3 pipe_two tt [].

(** The state after process 0 has written three bytes to the new pipe. *)
Definition K_written : @kstate unit :=
  Eval vm_compute in
    match pipe_ops copyin0 copyout0 5 [OpWrite 10 3] K1 with
    | Ret _ s => s
    | _ => K1
    end.

(** A process asleep in [piperead], waiting for data. *)
Definition proc_reader : proc :=
  mkProc SLEEPING PipeNread 0 0 2 None 0 4096 8 10 (0, 0) [] 0 init_name.

(** A process ready to run. *)
Definition proc_ready : proc :=
  mkProc RUNNABLE NoChan 0 0 3 None 0 4096 11 12 (0, 0) [] 0 init_name.

(** Process 0 inside a pipe operation, the pipe lock held; process 1
    sleeps in [piperead]. *)
Definition K_in_pipe : @kstate unit :=
  mkK [proc_run; proc_reader] (mkCpu (Some 0%nat) 1 true false) [PipeLock] 3
      pipe_new tt [].

(** A CPU in its scheduler: no current process, no lock held. *)
Definition K_sched (ps : list proc) : @kstate unit :=
  mkK ps (mkCpu None 0 false false) [] 3 pipe_new tt [].

(** A process that has come back to the scheduler asleep, its lock held. *)
Definition K_back : @kstate unit :=
  mkK [proc_reader; set_state SLEEPING proc_ready; proc_ready]
      (mkCpu (Some 1%nat) 1 true false) [ProcLock 1] 3 pipe_new tt [].

(** A pipe with one free byte. *)
Definition pipe_511 : pipe := mkPipe (replicate 512 0) 0 511 1 1.
Definition K_511 : @kstate unit :=
  mkK [proc_run] (mkCpu (Some 0%nat) 0 false true) [] 3 pipe_511 tt [].

(** The states process 0 finds when it is dispatched again: nothing has
    changed; the write end has been closed; the read end has been closed;
    it has been killed. *)
Definition K_resumed (ps : list proc) (pi : pipe) : @kstate unit :=
  mkK ps (mkCpu (Some 0%nat) 1 true false) [ProcLock 0] 3 pi tt [].
Definition K_wclosed : @kstate unit :=
  K_resumed [proc_run] (mkPipe (replicate 512 0) 0 0 1 0).
Definition K_rclosed : @kstate unit :=
  K_resumed [proc_run] (mkPipe (replicate 512 0) 0 512 0 1).
Definition K_resumed_killed : @kstate unit :=
  K_resumed [proc_run_killed] pipe_new.

(** Stand-ins for the functions of the other kernel files: they return a
    fixed answer and leave the state alone. *)
Definition PGSIZE0 : Z := 4096.
Definition PTE_R0 : Z := 2.
Definition PTE_W0 : Z := 4.
Definition PTE_X0 : Z := 8.
Definition trampoline0 : Z := 2147491840.
Definition forkret0 : Z := 2147487744.
Definition answer {A : Type} (a : A) : @M unit A := ret a.
Definition mappages_ok : Z -> Z -> Z -> Z -> Z -> @M unit Z :=
  fun _ _ _ _ _ => answer 0.
Definition mappages_trapframe_fails : Z -> Z -> Z -> Z -> Z -> @M unit Z :=
  fun _ va _ _ _ => answer (if va =? TRAPFRAME0 then -1 else 0).
Definition uvmcopy_ret (r : Z) : Z -> Z -> Z -> @M unit Z := fun _ _ _ => answer r.
Definition uvm_resize : Z -> Z -> Z -> @M unit Z := fun _ _ newsz => answer newsz.
Definition filedup0 : Z -> @M unit Z := fun f => answer f.
Definition idup0 : Z -> @M unit Z := fun ip => answer ip.
Definition fileclose0 : Z -> @M unit unit := fun _ => answer tt.
Definition iput0 : Z -> @M unit unit := fun _ => answer tt.
Definition trapframe_op0 : Z -> Z -> @M unit unit := fun _ _ => answer tt.
Definition safestrcpy0 : list Z -> list Z -> Z -> list Z := fun _ src _ => src.

(** A process with two open files and a free slot after it. *)
Definition proc_parent : proc :=
  mkProc RUNNING NoChan 0 0 1 None 0 4096 7 9 (0, 0) [5; 0; 6] 3 init_name.
Definition proc_free : proc :=
  mkProc UNUSED NoChan 0 0 0 None 8192 0 0 0 (0, 0) [0; 0; 0] 0 (replicate 16 0).
Definition K_fork : @kstate unit := K_user [proc_parent; proc_free].

(** Process 1 about to exit: its parent, process 0, sleeps in [wait], and
    process 2 is its child. *)
Definition proc_waiting : proc :=
  mkProc SLEEPING (ProcChan 0) 0 0 1 None 0 4096 7 9 (0, 0) [] 0 init_name.
Definition proc_child : proc :=
  mkProc RUNNING NoChan 0 0 2 (Some 0%nat) 0 4096 8 10 (0, 0) [5; 0; 6] 3 init_name.
Definition proc_grandchild : proc :=
  mkProc RUNNABLE NoChan 0 0 3 (Some 1%nat) 0 4096 11 12 (0, 0) [] 0 init_name.
Definition K_exit : @kstate unit :=
  mkK [proc_waiting; proc_child; proc_grandchild] (mkCpu (Some 1%nat) 0 false true)
      [] 4 pipe_new tt [].

(** The same state over a part outside the model that is the log of the
    calls into the file system, and calls that write to it. *)
Definition K_exit_logged : @kstate (list fs_call) :=
  mkK [proc_waiting; proc_child; proc_grandchild] (mkCpu (Some 1%nat) 0 false true)
      [] 4 pipe_new [] [].
Definition fs_log (c : fs_call) : @M (list fs_call) unit :=
  fun s => Ret tt (set_mem (mem s ++ [c]) s).

(** A world for [cat]: the bytes left on the open file, the bytes written
    to the standard output, the messages printed.  A read delivers at most
    two bytes; the files are [a] and [b]. *)
Record world0 : Type := mkW {
  w_in : list Z;
  w_out : list Z;
  w_err : list string
}.
Definition input0 (fd : Z) (w : world0) : list Z := w_in w.
Definition read0 (fd : Z) (b : list Z) (n : Z) (w : world0) : Z * list Z * world0 :=
  let k := Z.to_nat (Z.min (Z.min n 2) (Z.of_nat (length (w_in w)))) in
  (Z.of_nat k, take k (w_in w) ++ drop k b, mkW (drop k (w_in w)) (w_out w) (w_err w)).
Definition write0 (fd : Z) (b : list Z) (n : Z) (w : world0) : Z * world0 :=
  (n, mkW (w_in w) (w_out w ++ take (Z.to_nat n) b) (w_err w)).
Definition content0 (a : string) : option (list Z) :=
  if String.eqb a "a" then Some [1; 2; 3]
  else if String.eqb a "b" then Some [4; 5] else None.
Definition open0 (a : string) (mode : Z) (w : world0) : Z * world0 :=
  match content0 a with
  | Some bs => (3, mkW bs (w_out w) (w_err w))
  | None => (-1, w)
  end.
Definition close0 (fd : Z) (w : world0) : Z * world0 := (0, w).
Definition fprintf0 (fd : Z) (fmt : string) (args : list string) (w : world0) : world0 :=
  mkW (w_in w) (w_out w) (w_err w ++ fmt :: args).
Definition W_start : world0 := mkW [7; 8; 9] [] [].

Arguments pop_off : simpl never.
Arguments push_off : simpl never.
Arguments acquire : simpl never.
Arguments release : simpl never.
Arguments myproc : simpl never.
Arguments sched : simpl never.
Arguments sleep : simpl never.
Arguments allocpid : simpl never.
Arguments freeproc : simpl never.
Arguments kill : simpl never.
Arguments wakeup : simpl never.

(** ** Vocabulary of the specification *)

Section Verification.

Context {umem : Type}.
Variable copyin : umem -> Z -> Z -> option Z.
Variable copyout : umem -> Z -> Z -> list Z -> bool * umem.
Variable TRAMPOLINE : Z.
Variable TRAPFRAME : Z.
Implicit Types (s w : @kstate umem) (lk : lockid).

Set Default Proof Using "Type".

Local Abbreviation pw_body p addr n := (pipewrite_body copyin (Some p) addr n).
Local Abbreviation pr_body p := (@piperead_wait umem (Some p)).
Local Abbreviation wscan := (@wait_scan umem copyout TRAMPOLINE TRAPFRAME).

(** State transformers of the spinlock operations. *)
Definition norm_cpu (c : cpu) : cpu := pop_cpu (push_cpu c).
Definition lock lk s : kstate :=
  set_held (lk :: held s) (set_kcpu (push_cpu (kcpu s)) s).
Definition unlock lk s : kstate :=
  set_kcpu (pop_cpu (kcpu s)) (set_held (filter (fun l => l ≠ lk) (held s)) s).

Definition critical s : Prop := 1 <= noff (kcpu s) /\ sie (kcpu s) = false.

(** The interrupt discipline of the locks: interrupts are off as long as
    the nesting count of [push_off] is positive.  [push_off] establishes
    it and [pop_off] keeps it; [intr_on] is called by [scheduler] only,
    with no lock held. *)
Definition disciplined (c : cpu) : Prop := 0 < noff c -> sie c = false.

Definition set_slot (i : nat) (f : proc -> proc) s : kstate :=
  match procs s !! i with
  | Some p => set_procs (<[i := f p]> (procs s)) s
  | None => s
  end.

Definition sleep_resume (p : nat) lk (ie : bool) : @M umem unit :=
  set_intena ie ;;;
  setp p (set_chan NoChan) ;;;
  release (ProcLock p) ;;;
  acquire lk.

(** The state in which [sleep] leaves the CPU. *)
Definition sleeping (p : nat) (ch : channel) s : kstate :=
  set_held [ProcLock p]
    (set_slot p (fun q => set_state SLEEPING (set_chan ch q)) s).

(** The state in which a sleeper that was dispatched again leaves
    [sleep]. *)
Definition woken (p : nat) lk (ie : bool) w : kstate :=
  set_held [lk]
    (set_kcpu (mkCpu (cproc (kcpu w)) 1 ie false)
       (set_slot p (set_chan NoChan) w)).

Definition dispatched (p : nat) w : Prop :=
  cproc (kcpu w) = Some p /\ (p < length (procs w))%nat /\
  held w = [ProcLock p] /\ noff (kcpu w) = 1 /\ sie (kcpu w) = false.

(** The slot [freeproc] leaves behind. *)
Definition freed (pr : proc) : proc :=
  mkProc UNUSED NoChan 0 0 0 None (kstack pr) 0 0 0 (context pr) (ofile pr)
         (cwd pr) (<[0%nat := 0]> (name pr)).

(** The calls [freeproc] makes into the allocator and the VM layer. *)
Definition freeproc_calls (pr : proc) : list event :=
  (if bool_decide (trapframe pr ≠ 0) then [EvKfree (trapframe pr)] else []) ++
  (if bool_decide (pagetable pr ≠ 0)
   then [EvUvmunmap (pagetable pr) TRAMPOLINE 1 0;
         EvUvmunmap (pagetable pr) TRAPFRAME 1 0;
         EvUvmfree (pagetable pr) (sz pr)]
   else []).

Definition set_trace (v : list event) s : kstate :=
  mkK (procs s) (kcpu s) (held s) (nextpid s) (kpipe s) (mem s) v.

(** What [kill] does to the slot it finds. *)
Definition kill_slot (pr : proc) : proc :=
  if bool_decide (state pr = SLEEPING)
  then set_state RUNNABLE (set_killed 1 pr)
  else set_killed 1 pr.

(** Everything of the kernel state but the process table and the saved
    interrupt bits of the CPU. *)
Definition frame s s' : Prop :=
  held s' = held s /\ nextpid s' = nextpid s /\ kpipe s' = kpipe s /\
  mem s' = mem s /\ trace s' = trace s /\
  cproc (kcpu s') = cproc (kcpu s) /\ noff (kcpu s') = noff (kcpu s).

(** What one pass of [wakeup] does to slot [j]. *)
Definition wake_slot (ch : channel) (me : option nat) (j : nat) (pr : proc) : proc :=
  if bool_decide (Some j ≠ me) && bool_decide (state pr = SLEEPING)
     && bool_decide (chan pr = ch)
  then set_state RUNNABLE pr else pr.

Definition wake (ch : channel) (me : option nat) (ps : list proc) : list proc :=
  imap (wake_slot ch me) ps.

Definition woke (ch : channel) s : kstate :=
  set_procs (wake ch (cproc (kcpu s)) (procs s)) s.

Definition bind_outcome {A B} (o : @outcome umem A * list (@kstate umem))
    (k : A -> @kstate umem -> list (@kstate umem) -> @outcome umem B * list (@kstate umem))
    : @outcome umem B * list (@kstate umem) :=
  match o with
  | (Done a s, ws) => k a s ws
  | (Panicked msg s, ws) => (Panicked msg s, ws)
  | (Faulted s, ws) => (Faulted s, ws)
  | (Blocked s, ws) => (Blocked s, ws)
  | (OutOfFuel, ws) => (OutOfFuel, ws)
  end.

(** [wpr I r Q]: when [r] returns, [Q] holds; [I] holds each time [r] is
    switched out, provided it holds each time [r] is resumed. *)
Fixpoint wpr {A} (I : @kstate umem -> Prop) (r : res A)
    (Q : A -> kstate -> Prop) : Prop :=
  match r with
  | Ret a s => Q a s
  | Panic _ _ | Fault _ | Diverge => True
  | Swtch s k => I s /\ forall s', I s' -> wpr I (k s') Q
  end.

Definition safe {A} (I : @kstate umem -> Prop) (r : res A) : Prop :=
  wpr I r (fun _ s => I s).

(** [n_write - n_read] as the C code computes it on [uint]. *)
Definition used (pi : pipe) : Z := wrap_uint (nwrite pi - nread pi).

Definition pipe_ok (pi : pipe) : Prop :=
  (0 <= nread pi < 2 ^ 32 /\ 0 <= nwrite pi < 2 ^ 32) /\
  0 <= used pi <= PIPESIZE /\
  (pipe_full pi = true <-> used pi = PIPESIZE) /\
  (pipe_empty pi = true <-> used pi = 0).

(** [quiet m]: [m] runs without a switch and does not touch the pipe. *)
Definition quiet {A} (m : @M umem A) : Prop :=
  forall s, match m s with
            | Ret _ s' => kpipe s' = kpipe s
            | Swtch _ _ | Diverge => False
            | _ => True
            end.

(** [keeps P m]: started with the invariant [P] of the pipe, [m] has it
    whenever it is switched out and when it returns, if it has it whenever
    it is resumed. *)
Definition keeps (P : pipe -> Prop) {A} (m : @M umem A) : Prop :=
  forall s (Q : A -> kstate -> Prop),
    P (kpipe s) -> (forall a s', P (kpipe s') -> Q a s') ->
    wpr (fun s0 => P (kpipe s0)) (m s) Q.

(** The kernel as a pool of suspended kernel threads around the shared
    state: a step dispatches one thread, in a state [g1] that has the pipe
    as the last thread left it (the scheduler and the code that ran in
    between do not touch the pipe), and runs it until it is switched out
    again or returns. *)
Inductive pool_step :
    @kstate umem * list (@kstate umem -> res unit) ->
    @kstate umem * list (@kstate umem -> res unit) -> Prop :=
| pool_switch g ts j k g1 g2 k2 :
    ts !! j = Some k -> kpipe g1 = kpipe g -> k g1 = Swtch g2 k2 ->
    pool_step (g, ts) (g2, <[j := k2]> ts)
| pool_return g ts j k g1 g2 :
    ts !! j = Some k -> kpipe g1 = kpipe g -> k g1 = Ret tt g2 ->
    pool_step (g, ts) (g2, delete j ts).

Definition pool_ok (c : @kstate umem * list (@kstate umem -> res unit)) : Prop :=
  pipe_ok (kpipe c.1) /\
  Forall (fun k => forall g1, pipe_ok (kpipe g1) ->
                   safe (fun s' => pipe_ok (kpipe s')) (k g1)) c.2.

(** A process [p] enters a system call holding no lock. *)
Definition entry (p : nat) s : Prop :=
  cproc (kcpu s) = Some p /\ (p < length (procs s))%nat /\
  held s = [] /\ noff (kcpu s) = 0.

(** Process [p] runs holding [lk] and nothing else. *)
Definition inlock lk (p : nat) s : Prop :=
  cproc (kcpu s) = Some p /\ (p < length (procs s))%nat /\
  held s = [lk] /\ noff (kcpu s) = 1 /\ sie (kcpu s) = false.

(** The state after [myproc()] and [acquire(lk)] at entry. *)
Definition enter lk s : kstate := lock lk (set_kcpu (norm_cpu (kcpu s)) s).

Definition pkilled (p : nat) s : bool :=
  match procs s !! p with
  | Some q => negb (killed q =? 0)
  | None => false
  end.

(** What an iteration of the [while] of [pipewrite] comes to, from a loop
    head where process [p] holds the pipe lock. *)
Definition pw_outcome (p : nat) (addr n i : Z) s (ws : list (@kstate umem))
    : outcome (ctl Z Z) * list (@kstate umem) :=
  if negb (i <? n) then (Done (Break i) s, ws)
  else if (readopen (kpipe s) =? 0) || pkilled p s then
    (Done (Return (-1)) (unlock PipeLock s), ws)
  else if pipe_full (kpipe s) then
    match ws with
    | [] => (Blocked (sleeping p PipeNwrite (woke PipeNread s)), [])
    | w :: ws' => (Done (Continue i) (woken p PipeLock (intena (kcpu s)) w), ws')
    end
  else
    match procs s !! p with
    | Some q =>
        match copyin (mem s) (pagetable q) (wrap_uint64 (addr + i)) with
        | None => (Done (Break i) s, ws)
        | Some ch => (Done (Continue (i + 1)) (set_kpipe (pipe_put ch (kpipe s)) s), ws)
        end
    | None => (Faulted s, ws)
    end.


Definition head_ok lk (p : nat) (c : Z * @kstate umem * list (@kstate umem)) : Prop :=
  inlock lk p c.1.2 /\ Forall (dispatched p) c.2 /\ 0 <= c.1.1.



Definition pr_waiting (pi : pipe) : bool :=
  pipe_empty pi && negb (writeopen pi =? 0).

Definition pr_outcome (p : nat) s (ws : list (@kstate umem))
    : outcome (ctl unit Z) * list (@kstate umem) :=
  if pr_waiting (kpipe s) then
    if pkilled p s then (Done (Return (-1)) (unlock PipeLock s), ws)
    else
      match ws with
      | [] => (Blocked (sleeping p PipeNread s), [])
      | w :: ws' => (Done (Continue tt) (woken p PipeLock (intena (kcpu s)) w), ws')
      end
  else (Done (Break tt) s, ws).


(** [delivered k um pt addr pi i]: the next [k] bytes of the ring are
    there and each [copyout], to [addr + i] onwards, succeeds; the result
    is the user memory afterwards. *)
Fixpoint delivered (k : nat) (um : umem) (pt addr : Z) (pi : pipe) (i : Z)
    : option umem :=
  match k with
  | O => Some um
  | S k' =>
      if pipe_empty pi then None
      else
        let r := copyout um pt (wrap_uint64 (addr + i)) [pipe_byte pi] in
        if r.1 then delivered k' r.2 pt addr (pipe_take pi) (i + 1) else None
  end.

(** The pipe after [k] bytes have been taken from the ring. *)
Definition taken (k : nat) (pi : pipe) : pipe := Nat.iter k pipe_take pi.

(** A child of [p] that has exited. *)
Definition zombie_child (p : nat) (q : proc) : Prop :=
  parent q = Some p /\ state q = ZOMBIE.

#[global] Instance zombie_child_dec p q : Decision (zombie_child p q).
Proof. unfold zombie_child. apply _. Defined.

Definition has_child (p : nat) (ps : list proc) : bool :=
  existsb (fun q => bool_decide (parent q = Some p)) ps.

(** The state after the child in slot [k] has been reaped, user memory
    being [um]; the wait lock is still held. *)
Definition reaped (k : nat) (z : proc) (um : umem) s : kstate :=
  set_trace (trace s ++ freeproc_calls z)
    (set_procs (<[k := freed z]> (procs s)) (set_mem um s)).

(** What [wait] does once the scan has found the zombie child [z] in
    slot [k]: the result of the scan and the state, both locks
    released. *)
Definition reap (p k : nat) (z me : proc) (addr : Z) s : res (option Z * bool) :=
  if bool_decide (addr ≠ 0) then
    let r := copyout (mem s) (pagetable me) addr (int_bytes (xstate z)) in
    if r.1 then Ret (Some (pid z), true) (unlock WaitLock (reaped k z r.2 s))
    else Ret (Some (-1), true) (unlock WaitLock (set_mem r.2 s))
  else Ret (Some (pid z), true) (unlock WaitLock (reaped k z (mem s) s)).

(** What [wait(addr)] called by process [p] comes to from a head of its
    loop, in the state [h] with the wait lock held, when [ws] are the
    states in which [p] is dispatched again after its sleeps.  A ZOMBIE
    child, the first in table order, is reaped: its xstate is copied to
    [addr] unless [addr] is 0, its slot is freed and its pid returned, or
    -1 when the copy fails.  With no ZOMBIE child the result is -1 when
    [p] has no child or is killed; otherwise [p] sleeps on its own slot
    and, dispatched again in the state [w], scans the table again. *)
Fixpoint wait_outcome (p : nat) (addr : Z) (ws : list (@kstate umem))
    (h : @kstate umem) : @outcome umem Z :=
  match list_find (zombie_child p) (procs h) with
  | Some (k, z) =>
      if bool_decide (addr ≠ 0) then
        match procs h !! p with
        | Some me =>
            let r := copyout (mem h) (pagetable me) addr (int_bytes (xstate z)) in
            if r.1 then Done (pid z) (unlock WaitLock (reaped k z r.2 h))
            else Done (-1) (unlock WaitLock (set_mem r.2 h))
        | None => Faulted h
        end
      else Done (pid z) (unlock WaitLock (reaped k z (mem h) h))
  | None =>
      if negb (has_child p (procs h)) || pkilled p h
      then Done (-1) (unlock WaitLock h)
      else
        match ws with
        | [] => Blocked (sleeping p (ProcChan p) h)
        | w :: ws' => wait_outcome p addr ws' (woken p WaitLock (intena (kcpu h)) w)
        end
  end.

(** [k] calls of [allocpid] in a row, with the pids they return. *)
Fixpoint allocpids (k : nat) : @M umem (list Z) :=
  match k with
  | O => ret []
  | S k' =>
      pid <- allocpid ;;
      rest <- allocpids k' ;;
      ret (pid :: rest)
  end.

Definition runnable (q : proc) : Prop := state q = RUNNABLE.

#[global] Instance runnable_dec q : Decision (runnable q).
Proof. unfold runnable. apply _. Defined.

(** The state in which [scheduler] switches to the process in slot [k],
    whose contents were [pr]: the slot is RUNNING, it is the CPU's current
    process, and its lock, taken by the scheduler, is the only one held. *)
Definition dispatch (k : nat) (pr : proc) s : kstate :=
  mkK (<[k := set_state RUNNING pr]> (procs s))
      (mkCpu (Some k) 1 (sie (kcpu s)) false) [ProcLock k]
      (nextpid s) (kpipe s) (mem s) (trace s).

(** What [scheduler] does when the process it switched to comes back:
    the rest of the pass over the table. *)
Definition scheduler_rest (n k : nat) : @M umem unit :=
  set_cproc None ;;;
  release (ProcLock k) ;;;
  scheduler_scan n (S k).

(** [scheduler] from the point where the process in slot [k] has come
    back: the rest of the pass, then the passes that are left. *)
Definition scheduler_from (fuel n k : nat) : @M umem Empty_set :=
  r <- (c <- (scheduler_rest n k ;;; ret (Continue tt)) ;;
        match c with
        | Continue x' => loop fuel scheduler_body x'
        | Break x' => ret (inl x')
        | Return v => ret (inr v)
        end) ;;
  match r with
  | inr e => ret e
  | inl _ => fun _ => Diverge
  end.

(** The bytes in the ring that have been written and not yet read, oldest
    first: the pipe seen as a queue. *)
Definition contents (pi : pipe) : list Z :=
  (fun j => pipe_byte (taken j pi)) <$> seq 0 (Z.to_nat (used pi)).

(** The pipe after the bytes [bs] have been put in the ring, in order. *)
Definition put_all (bs : list Z) (pi : pipe) : pipe :=
  fold_left (fun pi ch => pipe_put ch pi) bs pi.

(** User memory after the bytes [bs] have been copied out one by one to
    [addr + i] onwards; [None] when one of the copies fails. *)
Fixpoint copied_out (bs : list Z) (um : umem) (pt addr i : Z) : option umem :=
  match bs with
  | [] => Some um
  | ch :: bs' =>
      let r := copyout um pt (wrap_uint64 (addr + i)) [ch] in
      if r.1 then copied_out bs' r.2 pt addr (i + 1) else None
  end.

(** A pipe whose counters are within bounds and whose ring is the
    512-byte array of [struct pipe]. *)
Definition pipe_wf (pi : pipe) : Prop :=
  pipe_ok pi /\ length (data pi) = 512%nat.

(** A loop head of [pipewrite] from which the writer can go on: it holds
    the pipe lock, is not killed and the read end is open. *)
Definition whead (p : nat) (q : proc) s : Prop :=
  inlock PipeLock p s /\ procs s !! p = Some q /\ killed q = 0 /\
  readopen (kpipe s) <> 0 /\ pipe_wf (kpipe s).


(** [same_kernel s s']: the two states differ at most in user memory and
    in the log of allocator calls. *)
Definition same_kernel s s' : Prop :=
  procs s' = procs s /\ kcpu s' = kcpu s /\ held s' = held s /\
  nextpid s' = nextpid s /\ kpipe s' = kpipe s.

(** A function of another kernel file that returns to its caller and
    leaves the process table, the CPU, the locks, the pid counter and the
    pipe alone; [returns m a] when, moreover, it returns [a]. *)
Definition extern {A} (m : @M umem A) : Prop :=
  forall s, exists a s', m s = Ret a s' /\ same_kernel s s'.

Definition returns {A} (m : @M umem A) (a : A) : Prop :=
  forall s, exists s', m s = Ret a s' /\ same_kernel s s'.

(** The file table and the inodes are not part of this model: what the
    calls of [exit] into the file system do is seen through an observation
    [obs] of the part of the state the model does not interpret, the log
    of the calls made so far.  [logs obs m c]: [m] returns, leaves the
    process table, the CPU, the locks, the pid counter and the pipe alone,
    and adds the calls [c] to the log. *)
Definition logs {A} (obs : umem -> list fs_call) (m : @M umem A)
    (c : list fs_call) : Prop :=
  forall s, exists a s',
    m s = Ret a s' /\ same_kernel s s' /\ obs (mem s') = obs (mem s) ++ c.

(** What [reparent(p)] does to a slot: a child of [p] gets [initproc] as
    its parent. *)
Definition adopt (initproc : option nat) (p : nat) (q : proc) : proc :=
  if bool_decide (parent q = Some p) then set_parent initproc q else q.

(** Slot [j] once [reparent(p)] has visited the slots from [i] on:
    [b] tells whether it found a child there, in which case it has called
    [wakeup(initproc)]. *)
Definition rp_slot (initproc : option nat) (b : bool) (i p : nat) (j : nat)
    (q : proc) : proc :=
  let q1 := if bool_decide (i <= j)%nat then adopt initproc p q else q in
  if b then wake_slot (chan_of initproc) (Some p) j q1 else q1.

(** The process table after [reparent(p)]. *)
Definition orphaned (initproc : option nat) (p : nat) (ps : list proc)
    : list proc :=
  imap (rp_slot initproc (has_child p ps) 0 p) ps.

(** The slot of a process that has called [exit(status)]. *)
Definition exited (status : Z) (pr : proc) : proc :=
  set_state ZOMBIE (set_xstate status
    (set_cwd 0 (set_ofile (replicate (length (ofile pr)) 0) pr))).

(** The open files of a child after [fork]: each open file of the parent
    is duplicated ([dup] is what [filedup] returns), and where the parent
    has none the entry of the slot is left as it was. *)
Definition fork_ofile (dup : Z -> Z) (pf cf : list Z) : list Z :=
  zip_with (fun f c => if f =? 0 then c else dup f) pf cf.

(** The slot of the child that [fork], called by process [p] with slot
    [pr], makes of the UNUSED slot [q]; the stack pointer of its context
    is [kstack + PGSIZE] in uint64, as [allocproc] computes it. *)
Definition forked (PGSIZE forkret : Z) (safestrcpy : list Z -> list Z -> Z -> list Z)
    (dup : Z -> Z) (p : nat) (pr q : proc) (pid tf pt c : Z) : proc :=
  mkProc RUNNABLE (chan q) (killed q) (xstate q) pid (Some p) (kstack q)
         (sz pr) pt tf (forkret, wrap_uint64 (kstack q + PGSIZE))
         (fork_ofile dup (ofile pr) (ofile q)) c
         (safestrcpy (name q) (name pr) (Z.of_nat (length (name pr)))).

(** [at_state s ps c h n pi]: the kernel part of the state [s], field by
    field. *)
Definition at_state s (ps : list proc) (c : cpu) (h : list lockid) (n : Z)
    (pi : pipe) : Prop :=
  procs s = ps /\ kcpu s = c /\ held s = h /\ nextpid s = n /\ kpipe s = pi.

(** What [cat] expects of the system calls, in terms of two observations
    of the world: [input fd w], the bytes not yet read from [fd], and
    [output w], the bytes written to the standard output so far.
    [file_reads]: a read delivers some of the bytes that are left, at
    least one and at most the number asked for, and 0 at the end. *)
Definition file_reads {W} (read : Z -> list Z -> Z -> W -> Z * list Z * W)
    (input : Z -> W -> list Z) (output : W -> list Z) : Prop :=
  forall fd b n (w : W), 0 < n ->
    output (read fd b n w).2 = output w /\
    (input fd w = [] ->
       (read fd b n w).1.1 = 0 /\ input fd (read fd b n w).2 = []) /\
    (input fd w <> [] ->
       0 < (read fd b n w).1.1 <= n /\
       take (Z.to_nat (read fd b n w).1.1) (read fd b n w).1.2
         = take (Z.to_nat (read fd b n w).1.1) (input fd w) /\
       (Z.to_nat (read fd b n w).1.1 <= length (input fd w))%nat /\
       input fd (read fd b n w).2 = drop (Z.to_nat (read fd b n w).1.1) (input fd w)).

(** [stdout_writes]: a write to descriptor 1 takes all the bytes it is
    given and leaves the inputs alone. *)
Definition stdout_writes {W} (write : Z -> list Z -> Z -> W -> Z * W)
    (input : Z -> W -> list Z) (output : W -> list Z) : Prop :=
  forall b n (w : W), 0 < n ->
    (write 1 b n w).1 = n /\
    output (write 1 b n w).2 = output w ++ take (Z.to_nat n) b /\
    forall fd, input fd (write 1 b n w).2 = input fd w.

(** [opens content]: [open] of a path that names a file gives a
    descriptor from which the content of the file is to be read; of
    another path it fails. *)
Definition opens {W} (open : string -> Z -> W -> Z * W)
    (input : Z -> W -> list Z) (output : W -> list Z)
    (content : string -> option (list Z)) : Prop :=
  forall a (w : W),
    output (open a 0 w).2 = output w /\
    match content a with
    | Some bs => 0 <= (open a 0 w).1 /\ input (open a 0 w).1 (open a 0 w).2 = bs
    | None => (open a 0 w).1 < 0
    end.

(** [closes]: [close] writes nothing. *)
Definition closes {W} (close : Z -> W -> Z * W) (output : W -> list Z) : Prop :=
  forall fd (w : W), output (close fd w).2 = output w.

(** The contents of the files named by [args], one after the other. *)
Fixpoint contents_of (content : string -> option (list Z)) (args : list string)
    : list Z :=
  match args with
  | [] => []
  | a :: rest => default [] (content a) ++ contents_of content rest
  end.

(** ** Proofs *)

Lemma filter_ne_cons_self (lk : lockid) (l : list lockid) :
  lk ∉ l -> filter (fun x => x ≠ lk) (lk :: l) = l.
Proof.
  intros Hn. rewrite filter_cons_False by (intros H; apply H; reflexivity).
  induction l as [|x l IH]; [reflexivity|].
  apply not_elem_of_cons in Hn as [Hx Hl].
  rewrite filter_cons_True by congruence. f_equal. auto.
Qed.

(** Apply a tactic to every hypothesis that is a proposition. *)
Ltac allp tac :=
  repeat match goal with
         | H : ?T |- _ => lazymatch type of T with Prop => progress (tac H) end
         end.

(** Drop the variables the goal does not depend on. *)
Ltac clear_unused :=
  repeat match goal with
         | x : ?T |- _ =>
             lazymatch type of T with Prop => fail | _ => clear x end
         end.

Lemma bind_eq {A B} (m : M A) (f : A -> M B) s r :
  m s = r -> bind m f s = bindr r f.
Proof. intros <-. reflexivity. Qed.

Lemma pop_off_ok s :
  sie (kcpu s) = false -> 1 <= noff (kcpu s) ->
  pop_off s = Ret tt (set_kcpu (pop_cpu (kcpu s)) s).
Proof.
  intros Hs Hn. unfold pop_off, bind, intr_get, gets. cbn. rewrite Hs. cbn.
  destruct (noff (kcpu s) <? 1) eqn:E; [lia|]. reflexivity.
Qed.

Lemma acquire_ok lk s :
  lk ∉ held s -> acquire lk s = Ret tt (lock lk s).
Proof.
  intros Hn. unfold acquire, bind, push_off, holding, modify, gets. cbn.
  rewrite bool_decide_eq_false_2 by exact Hn. reflexivity.
Qed.

Lemma acquire_held lk s :
  lk ∈ held s -> acquire lk s = Panic "acquire" (set_kcpu (push_cpu (kcpu s)) s).
Proof.
  intros Hn. unfold acquire, bind, push_off, holding, modify, gets. cbn.
  rewrite bool_decide_eq_true_2 by exact Hn. reflexivity.
Qed.

Lemma release_ok lk s :
  lk ∈ held s -> sie (kcpu s) = false -> 1 <= noff (kcpu s) ->
  release lk s = Ret tt (unlock lk s).
Proof.
  intros Hh Hs Hn. unfold release, bind, holding, gets, modify. cbn.
  rewrite bool_decide_eq_true_2 by exact Hh. cbn.
  rewrite pop_off_ok by (cbn; assumption). reflexivity.
Qed.

Lemma release_unheld lk s :
  lk ∉ held s -> release lk s = Panic "release" s.
Proof.
  intros Hh. unfold release, bind, holding, gets. cbn.
  rewrite bool_decide_eq_false_2 by exact Hh. reflexivity.
Qed.

Lemma myproc_ok s :
  0 <= noff (kcpu s) ->
  myproc s = Ret (cproc (kcpu s)) (set_kcpu (norm_cpu (kcpu s)) s).
Proof.
  intros Hn. unfold myproc, bind, push_off, mycpu, gets, modify. cbn.
  rewrite pop_off_ok by (cbn; lia). reflexivity.
Qed.

Lemma norm_cpu_critical (c : cpu) :
  1 <= noff c -> sie c = false -> norm_cpu c = c.
Proof.
  intros Hn Hs. destruct c as [p n ie si]. cbn in Hn, Hs. subst si.
  unfold norm_cpu, pop_cpu, push_cpu. cbn.
  replace (n + 1 - 1) with n by lia.
  destruct (n =? 0) eqn:E0; [lia|]. reflexivity.
Qed.

Lemma myproc_critical s :
  critical s -> myproc s = Ret (cproc (kcpu s)) s.
Proof.
  intros [Hn Hs]. rewrite myproc_ok by lia. rewrite norm_cpu_critical by assumption.
  destruct s; reflexivity.
Qed.

Lemma unlock_lock lk s :
  critical s -> lk ∉ held s -> unlock lk (lock lk s) = s.
Proof.
  intros [Hn Hs] Hh. unfold unlock, lock, set_held, set_kcpu. cbn [held kcpu procs nextpid kpipe mem trace].
  rewrite filter_ne_cons_self by assumption.
  fold (norm_cpu (kcpu s)). rewrite norm_cpu_critical by assumption.
  destruct s; reflexivity.
Qed.

Ltac mred :=
  unfold bind, ret, gets, modify, panic, fault; cbn [bindr].
Ltac ksimpl :=
  cbn [procs kcpu held nextpid kpipe mem trace set_procs set_kcpu set_held
       set_nextpid set_kpipe set_mem emit cproc noff intena sie push_cpu pop_cpu
       lock unlock].
Ltac pdone :=
  let H := fresh in intros H; injection H as <- _; discriminate.

Lemma kstate_eq s1 s2 :
  procs s1 = procs s2 -> kcpu s1 = kcpu s2 -> held s1 = held s2 ->
  nextpid s1 = nextpid s2 -> kpipe s1 = kpipe s2 -> mem s1 = mem s2 ->
  trace s1 = trace s2 -> s1 = s2.
Proof. destruct s1, s2; cbn; intros; subst; reflexivity. Qed.

Lemma getp_ok i s pr : procs s !! i = Some pr -> getp i s = Ret pr s.
Proof. unfold getp. intros ->. reflexivity. Qed.

Lemma setp_ok i f s pr :
  procs s !! i = Some pr -> setp i f s = Ret tt (set_procs (<[i := f pr]> (procs s)) s).
Proof. unfold setp. intros ->. reflexivity. Qed.

(** What [sched] does, branch by branch.  [myproc] runs first: its
    [push_off] turns interrupts off and, at nesting one, its [pop_off]
    leaves them off. *)
Lemma sched_unfold s p pr :
  0 <= noff (kcpu s) -> cproc (kcpu s) = Some p -> procs s !! p = Some pr ->
  let s0 := set_kcpu (norm_cpu (kcpu s)) s in
  sched s =
    if negb (bool_decide (ProcLock p ∈ held s)) then Panic "sched p->lock" s0
    else if negb (noff (kcpu s) =? 1) then Panic "sched locks" s0
    else if bool_decide (state pr = RUNNING) then Panic "sched running" s0
    else Swtch s0 (set_intena (intena (kcpu s0))).
Proof.
  intros Hn Hc Hp s0. unfold sched.
  erewrite bind_eq by (apply myproc_ok; exact Hn). cbn [bindr].
  rewrite Hc. unfold deref, ret, bind at 1. cbn [bindr].
  unfold bind at 1, holding, gets. cbn [bindr]. fold s0.
  change (held s0) with (held s).
  destruct (bool_decide (ProcLock p ∈ held s)); cbn [negb]; [|reflexivity].
  unfold bind at 1, mycpu, gets. cbn [bindr].
  assert (Hno : noff (kcpu s0) = noff (kcpu s)).
  { unfold s0, norm_cpu, pop_cpu, push_cpu. cbn. lia. }
  rewrite Hno.
  destruct (noff (kcpu s) =? 1) eqn:E1; cbn [negb]; [|reflexivity].
  erewrite bind_eq by (apply getp_ok; exact Hp). cbn [bindr].
  destruct (bool_decide (state pr = RUNNING)); [reflexivity|].
  unfold bind at 1, intr_get, gets. cbn [bindr].
  assert (Hsie : sie (kcpu s0) = false).
  { unfold s0, norm_cpu, pop_cpu, push_cpu. cbn.
    apply Z.eqb_eq in E1. rewrite E1. reflexivity. }
  rewrite Hsie. unfold bind at 1, gets. cbn [bindr].
  unfold bind, swtch. cbn [bindr]. reflexivity.
Qed.

(** [sched] panics exactly when the lock is not held, the nesting is not
    one, or the state is RUNNING; the fourth check never fires. *)
Lemma sched_panics_iff s p pr :
  0 <= noff (kcpu s) -> cproc (kcpu s) = Some p -> procs s !! p = Some pr ->
  (exists msg s', sched s = Panic msg s') <->
  (ProcLock p ∉ held s \/ noff (kcpu s) <> 1 \/ state pr = RUNNING).
Proof.
  intros Hn Hc Hp. rewrite (sched_unfold s p pr Hn Hc Hp). cbn zeta.
  destruct (bool_decide_reflect (ProcLock p ∈ held s)) as [Hh|Hh]; cbn [negb].
  2:{ split; [tauto|]. intros _. eauto. }
  destruct (Z.eqb_spec (noff (kcpu s)) 1) as [E|E]; cbn [negb].
  2:{ split; [tauto|]. intros _. eauto. }
  destruct (bool_decide_reflect (state pr = RUNNING)) as [Hr|Hr].
  { split; [tauto|]. intros _. eauto. }
  split.
  - intros (msg & s' & H). discriminate H.
  - intros [H|[H|H]]; contradiction.
Qed.

Lemma sched_not_interruptible s msg s' :
  sched s = Panic msg s' -> msg <> "sched interruptible".
Proof.
  unfold sched, myproc, push_off, pop_off, mycpu, intr_get, holding. mred.
  cbn [kcpu set_kcpu sie noff push_cpu].
  destruct (noff (kcpu s) + 1 <? 1) eqn:En; mred; [pdone|].
  set (s0 := set_kcpu _ _).
  destruct (cproc (push_cpu (kcpu s))) as [p|]; cbn [deref]; mred; [|discriminate].
  destruct (bool_decide (ProcLock p ∈ held s0)); cbn [negb]; mred; [|pdone].
  destruct (Z.eqb_spec (noff (kcpu s0)) 1) as [E|E]; cbn [negb]; mred; [|pdone].
  unfold getp. destruct (procs s0 !! p) as [pr|]; mred; [|discriminate].
  destruct (bool_decide (state pr = RUNNING)); mred; [pdone|].
  assert (Hsie : sie (kcpu s0) = false).
  { revert E. unfold s0. cbn. intros E.
    replace (noff (kcpu s) + 1 - 1 =? 0) with false by (symmetry; apply Z.eqb_neq; lia).
    reflexivity. }
  rewrite Hsie. unfold swtch. mred. discriminate.
Qed.

Lemma bind_panic {A B} (m : M A) (f : A -> M B) s msg s' :
  m s = Panic msg s' -> bind m f s = Panic msg s'.
Proof. unfold bind. intros ->. reflexivity. Qed.

(** [sleep] called with the caller's own slot lock as [lk] never reaches
    the switch. *)
Lemma sleep_own_lock s p pr ch :
  0 <= noff (kcpu s) -> cproc (kcpu s) = Some p -> procs s !! p = Some pr ->
  exists s',
    sleep ch (ProcLock p) s =
    Panic (if bool_decide (ProcLock p ∈ held s) then "acquire" else "sched p->lock") s'.
Proof.
  intros Hn Hc Hp. unfold sleep.
  erewrite bind_eq by (apply myproc_ok; exact Hn). cbn [bindr].
  rewrite Hc. cbn [deref]. unfold bind at 1, ret at 1. cbn [bindr].
  set (s0 := set_kcpu _ s).
  destruct (bool_decide_reflect (ProcLock p ∈ held s)) as [Hh|Hh].
  { eexists. apply bind_panic. apply acquire_held. exact Hh. }
  erewrite bind_eq by (apply acquire_ok; exact Hh). cbn [bindr].
  erewrite bind_eq.
  2:{ apply release_ok; cbn; [left | reflexivity | lia]. }
  cbn [bindr].
  set (s2 := unlock _ _).
  assert (Hh2 : held s2 = held s).
  { unfold s2, unlock, lock. cbn [held set_held set_kcpu]. apply filter_ne_cons_self, Hh. }
  erewrite bind_eq by (apply setp_ok with (pr := pr); exact Hp). cbn [bindr].
  erewrite bind_eq.
  2:{ apply setp_ok. cbn. apply list_lookup_insert_eq. eapply lookup_lt_Some, Hp. }
  cbn [bindr].
  set (s4 := set_procs _ _).
  eexists. apply bind_panic.
  erewrite sched_unfold.
  - cbn zeta. change (held s4) with (held s2). rewrite Hh2.
    rewrite bool_decide_eq_false_2 by exact Hh. cbn [negb]. reflexivity.
  - cbn. lia.
  - cbn. exact Hc.
  - cbn. apply list_lookup_insert_eq. rewrite length_insert. eapply lookup_lt_Some, Hp.
Qed.

Lemma sleep_switch s p pr ch lk :
  cproc (kcpu s) = Some p -> procs s !! p = Some pr ->
  held s = [lk] -> lk <> ProcLock p ->
  noff (kcpu s) = 1 -> sie (kcpu s) = false ->
  sleep ch lk s = Swtch (sleeping p ch s) (sleep_resume p lk (intena (kcpu s))).
Proof.
  intros Hc Hp Hh Hne Hn Hs. unfold sleep.
  erewrite bind_eq by (apply myproc_critical; split; [lia|exact Hs]). cbn [bindr].
  rewrite Hc. cbn [deref]. unfold bind at 1, ret at 1. cbn [bindr].
  erewrite bind_eq.
  2:{ apply acquire_ok. rewrite Hh. intros H%list_elem_of_singleton. congruence. }
  cbn [bindr].
  erewrite bind_eq.
  2:{ apply release_ok; cbn; [rewrite Hh; right; left | reflexivity | lia]. }
  cbn [bindr].
  set (s2 := unlock _ _).
  erewrite bind_eq by (apply setp_ok with (pr := pr); exact Hp). cbn [bindr].
  erewrite bind_eq.
  2:{ apply setp_ok. cbn. apply list_lookup_insert_eq. eapply lookup_lt_Some, Hp. }
  cbn [bindr].
  set (s4 := set_procs _ _).
  erewrite bind_eq.
  2:{ eapply sched_unfold.
      - cbn. lia.
      - cbn. exact Hc.
      - cbn. apply list_lookup_insert_eq. rewrite length_insert. eapply lookup_lt_Some, Hp. }
  cbn zeta.
  assert (Hh4 : held s4 = [ProcLock p]).
  { unfold s4, s2, unlock, lock. ksimpl. rewrite Hh.
    rewrite filter_cons_True by congruence.
    rewrite filter_cons_False by (intros H; apply H; reflexivity). reflexivity. }
  rewrite Hh4. rewrite bool_decide_eq_true_2 by left. cbn [negb].
  replace (noff (kcpu s4) =? 1) with true.
  2:{ symmetry. apply Z.eqb_eq. cbn. lia. }
  cbn [negb state set_state]. rewrite bool_decide_eq_false_2 by discriminate.
  cbn [bindr]. f_equal.
  - unfold sleeping, set_slot. rewrite Hp.
    apply kstate_eq; try reflexivity.
    + unfold s4. ksimpl. apply list_insert_insert_eq.
    + unfold s4, s2, unlock, lock, norm_cpu. ksimpl.
      destruct (kcpu s) as [cp n ie si]; cbn in Hn, Hs |- *. subst n si. reflexivity.
    + exact Hh4.
  - unfold s4, s2, unlock, lock, norm_cpu. ksimpl.
    destruct (kcpu s) as [cp n ie si]; cbn in Hn, Hs |- *. subst n si. reflexivity.
Qed.

Lemma sleep_resume_ok p lk ie w :
  dispatched p w -> lk <> ProcLock p ->
  sleep_resume p lk ie w = Ret tt (woken p lk ie w).
Proof.
  intros (Hc & Hp & Hh & Hn & Hs) Hne.
  destruct (lookup_lt_is_Some_2 _ _ Hp) as [q Hq].
  unfold sleep_resume, set_intena.
  unfold bind at 1, modify. cbn [bindr].
  erewrite bind_eq by (apply setp_ok with (pr := q); exact Hq). cbn [bindr].
  erewrite bind_eq.
  2:{ apply release_ok; ksimpl; [rewrite Hh; left | exact Hs | lia]. }
  cbn [bindr].
  rewrite acquire_ok.
  2:{ unfold unlock. ksimpl. rewrite Hh.
      rewrite filter_cons_False by (intros H; apply H; reflexivity).
      rewrite filter_nil. apply not_elem_of_nil. }
  f_equal. unfold woken, set_slot. rewrite Hq.
  apply kstate_eq; try reflexivity.
  - unfold lock, unlock. ksimpl. rewrite Hn, Hs. 
    destruct ie; reflexivity.
  - unfold lock, unlock. ksimpl. rewrite Hh.
    rewrite filter_cons_False by (intros H; apply H; reflexivity).
    rewrite filter_nil. reflexivity.
Qed.

Lemma norm_cpu_noff (c : cpu) : noff (norm_cpu c) = noff c.
Proof. unfold norm_cpu, pop_cpu, push_cpu. cbn. lia. Qed.

Lemma norm_cpu_cproc (c : cpu) : cproc (norm_cpu c) = cproc c.
Proof. reflexivity. Qed.

(** An acquire and release of a free lock with nothing in between. *)
Lemma unlock_lock_gen lk s :
  lk ∉ held s -> unlock lk (lock lk s) = set_kcpu (norm_cpu (kcpu s)) s.
Proof.
  intros Hh. apply kstate_eq; try reflexivity.
  unfold unlock, lock. ksimpl. apply filter_ne_cons_self, Hh.
Qed.

(** *** allocpid *)

Lemma allocpid_ok s :
  PidLock ∉ held s -> 0 <= noff (kcpu s) ->
  allocpid s =
  Ret (nextpid s)
      (set_kcpu (norm_cpu (kcpu s)) (set_nextpid (wrap_int (nextpid s + 1)) s)).
Proof.
  intros Hh Hn. unfold allocpid.
  erewrite bind_eq by (apply acquire_ok; exact Hh). cbn [bindr].
  unfold bind at 1, gets. cbn [bindr].
  unfold bind at 1, modify. cbn [bindr].
  erewrite bind_eq.
  2:{ apply release_ok; unfold lock; ksimpl; [left | reflexivity | lia]. }
  cbn [bindr]. unfold ret. f_equal.
  apply kstate_eq; try reflexivity.
  unfold unlock, lock. ksimpl. apply filter_ne_cons_self, Hh.
Qed.

(** *** freeproc *)

Lemma freeproc_ok p pr s :
  procs s !! p = Some pr ->
  freeproc TRAMPOLINE TRAPFRAME p s =
  Ret tt (set_trace (trace s ++ freeproc_calls pr)
            (set_procs (<[p := freed pr]> (procs s)) s)).
Proof.
  intros Hp. assert (Hlt := lookup_lt_Some _ _ _ Hp).
  unfold freeproc, getp, setp, proc_freepagetable, kfree, uvmunmap, uvmfree. mred.
  rewrite Hp. cbn [bindr]. unfold freeproc_calls.
  destruct (bool_decide (trapframe pr ≠ 0)); cbn [bindr]; ksimpl;
    rewrite Hp; cbn [bindr]; ksimpl;
    (rewrite list_lookup_insert_eq by exact Hlt); cbn [bindr]; ksimpl;
    cbn [pagetable set_trapframe sz];
    destruct (bool_decide (pagetable pr ≠ 0)); cbn [bindr]; ksimpl;
    repeat (rewrite list_lookup_insert_eq by (rewrite ?length_insert; exact Hlt);
            cbn [bindr]; ksimpl; rewrite ?list_insert_insert_eq);
    f_equal; unfold set_trace; apply kstate_eq; ksimpl; try reflexivity;
    cbn; rewrite <- ?app_assoc, ?app_nil_r; reflexivity.
Qed.

(** *** kill *)

Lemma frame_refl s : frame s s.
Proof. repeat split. Qed.

Lemma frame_trans s1 s2 s3 : frame s1 s2 -> frame s2 s3 -> frame s1 s3.
Proof.
  intros (?&?&?&?&?&?&?) (?&?&?&?&?&?&?). repeat split; congruence.
Qed.

Lemma kill_scan_ok n i pid0 s :
  0 <= noff (kcpu s) -> (forall j, ProcLock j ∉ held s) ->
  (i + n = length (procs s))%nat ->
  exists v s',
    kill_scan n i pid0 s = Ret v s' /\ frame s s' /\
    ((exists k pr, (i <= k)%nat /\ procs s !! k = Some pr /\ pid pr = pid0 /\
        (forall j pr', (i <= j < k)%nat -> procs s !! j = Some pr' -> pid pr' <> pid0) /\
        v = 0 /\ procs s' = <[k := kill_slot pr]> (procs s)) \/
     (v = -1 /\
        (forall j pr', (i <= j)%nat -> procs s !! j = Some pr' -> pid pr' <> pid0) /\
        procs s' = procs s)).
Proof.
  revert i s. induction n as [|n IH]; intros i s Hn Hh Hlen.
  - exists (-1), s. split; [reflexivity|]. split; [apply frame_refl|].
    right. split; [reflexivity|]. split; [|reflexivity].
    intros j pr' Hj Hl. pose proof (lookup_lt_Some _ _ _ Hl) as Hl'. exfalso. lia.
  - cbn [kill_scan].
    erewrite bind_eq by (apply acquire_ok, Hh). cbn [bindr].
    destruct (lookup_lt_is_Some_2 (procs s) i) as [pr Hpr]; [lia|].
    erewrite bind_eq by (apply getp_ok; exact Hpr). cbn [bindr].
    destruct (Z.eqb_spec (pid pr) pid0) as [E|E].
    + erewrite bind_eq by (apply setp_ok with (pr := pr); exact Hpr). cbn [bindr].
      erewrite bind_eq.
      2:{ apply getp_ok. ksimpl. apply list_lookup_insert_eq. lia. }
      cbn [bindr]. cbn [state set_killed].
      assert (Hfin : forall t : @kstate umem,
                 held t = ProcLock i :: held s -> kcpu t = push_cpu (kcpu s) ->
                 exists t', bind (release (ProcLock i)) (fun _ => ret 0) t = Ret 0 t' /\
                            procs t' = procs t /\ held t' = held s /\
                            nextpid t' = nextpid t /\ kpipe t' = kpipe t /\
                            mem t' = mem t /\ trace t' = trace t /\
                            kcpu t' = norm_cpu (kcpu s)).
      { intros t Ht Hc. eexists. split.
        - erewrite bind_eq.
          2:{ apply release_ok; [rewrite Ht; left | rewrite Hc; reflexivity | rewrite Hc; cbn; lia]. }
          reflexivity.
        - unfold unlock. ksimpl. rewrite Ht, Hc.
          rewrite filter_ne_cons_self by apply Hh. repeat split. }
      destruct (bool_decide (state pr = SLEEPING)) eqn:Est.
      * erewrite bind_eq.
        2:{ apply setp_ok. ksimpl. apply list_lookup_insert_eq. lia. }
        cbn [bindr].
        edestruct Hfin as (t' & Ht' & Hp' & Hh' & Hnp & Hkp & Hm & Htr & Hcpu);
          [| | rewrite Ht']; [reflexivity..|].
        exists 0, t'. split; [reflexivity|]. split.
        { repeat split; try assumption; rewrite Hcpu; [reflexivity | apply norm_cpu_noff]. }
        left. exists i, pr. repeat split; try assumption; [lia | intros; lia |].
        rewrite Hp'. ksimpl. rewrite list_insert_insert_eq. unfold kill_slot. rewrite Est.
        reflexivity.
      * unfold bind at 1, ret at 1. cbn [bindr].
        edestruct Hfin as (t' & Ht' & Hp' & Hh' & Hnp & Hkp & Hm & Htr & Hcpu);
          [| | rewrite Ht']; [reflexivity..|].
        exists 0, t'. split; [reflexivity|]. split.
        { repeat split; try assumption; rewrite Hcpu; [reflexivity | apply norm_cpu_noff]. }
        left. exists i, pr. repeat split; try assumption; [lia | intros; lia |].
        rewrite Hp'. ksimpl. unfold kill_slot. rewrite Est. reflexivity.
    + erewrite bind_eq.
      2:{ apply release_ok; unfold lock; ksimpl; [left | reflexivity | lia]. }
      cbn [bindr]. rewrite unlock_lock_gen by apply Hh.
      set (s1 := set_kcpu _ s).
      destruct (IH (S i) s1) as (v & s' & Hrun & Hfr & Hres).
      { unfold s1. ksimpl. rewrite norm_cpu_noff. exact Hn. }
      { exact Hh. }
      { unfold s1. ksimpl. lia. }
      exists v, s'. split; [exact Hrun|]. split.
      { eapply frame_trans; [|exact Hfr]. unfold s1. repeat split. ksimpl. apply norm_cpu_noff. }
      destruct Hres as [(k & pr' & Hk & Hl & Hpid & Hbefore & -> & Hps)|(-> & Hnone & Hps)].
      * left. exists k, pr'. repeat split; try assumption; [lia|].
        intros j q Hj Hq. destruct (decide (j = i)) as [->|Hji].
        -- rewrite Hpr in Hq. injection Hq as <-. exact E.
        -- eapply (Hbefore j q); [lia | exact Hq].
      * right. repeat split; try assumption.
        intros j q Hj Hq. destruct (decide (j = i)) as [->|Hji].
        -- rewrite Hpr in Hq. injection Hq as <-. exact E.
        -- eapply (Hnone j q); [lia | exact Hq].
Qed.

(** *** wakeup *)

Lemma unlock_set_procs_lock lk ps s :
  critical s -> lk ∉ held s ->
  unlock lk (set_procs ps (lock lk s)) = set_procs ps s.
Proof.
  intros Hc Hh. rewrite <- (unlock_lock lk s Hc Hh) at 2.
  apply kstate_eq; reflexivity.
Qed.

Lemma wakeup_scan_ok n i ch s :
  critical s ->
  (forall j, Some j ≠ cproc (kcpu s) -> ProcLock j ∉ held s) ->
  (i + n = length (procs s))%nat ->
  wakeup_scan n i ch s =
  Ret tt (set_procs (take i (procs s) ++
                     imap (fun k => wake_slot ch (cproc (kcpu s)) (i + k)) (drop i (procs s))) s).
Proof.
  revert i s. induction n as [|n IH]; intros i s Hc Hh Hlen.
  - cbn [wakeup_scan]. unfold ret. f_equal.
    rewrite drop_ge by lia. cbn [imap]. rewrite app_nil_r, take_ge by lia.
    destruct s; reflexivity.
  - cbn [wakeup_scan].
    erewrite bind_eq by (apply myproc_critical, Hc). cbn [bindr].
    destruct (lookup_lt_is_Some_2 (procs s) i) as [pr Hpr]; [lia|].
    assert (Hdrop : drop i (procs s) = pr :: drop (S i) (procs s)).
    { apply drop_S. exact Hpr. }
    assert (Hstep :
      exists s1, bind (if bool_decide (Some i ≠ cproc (kcpu s)) then
             (acquire (ProcLock i) ;;;
              pr <- getp i ;;
              (if bool_decide (state pr = SLEEPING) && bool_decide (chan pr = ch)
               then setp i (set_state RUNNABLE) else ret tt) ;;;
              release (ProcLock i))
           else ret tt) (fun _ => wakeup_scan n (S i) ch) s = wakeup_scan n (S i) ch s1 /\
        s1 = set_procs (<[i := wake_slot ch (cproc (kcpu s)) i pr]> (procs s)) s).
    { eexists. split; [|reflexivity]. unfold wake_slot.
      destruct (bool_decide_reflect (Some i ≠ cproc (kcpu s))) as [Hme|Hme]; cbn [andb].
      - unfold bind at 1.
        erewrite bind_eq by (apply acquire_ok, Hh, Hme). cbn [bindr].
        erewrite bind_eq by (apply getp_ok; exact Hpr). cbn [bindr].
        destruct (bool_decide (state pr = SLEEPING) && bool_decide (chan pr = ch)).
        + erewrite bind_eq by (apply setp_ok with (pr := pr); exact Hpr). cbn [bindr].
          rewrite release_ok by (ksimpl; first [left | reflexivity | destruct Hc; lia]).
          cbn [bindr]. f_equal. ksimpl.
          apply unlock_set_procs_lock; [exact Hc | apply Hh, Hme].
        + unfold bind at 1, ret at 1. cbn [bindr].
          rewrite release_ok by (ksimpl; first [left | reflexivity | destruct Hc; lia]).
          cbn [bindr]. f_equal. rewrite unlock_lock by (try apply Hh; assumption).
          rewrite list_insert_id by exact Hpr. destruct s; reflexivity.
      - unfold bind at 1, ret at 1. cbn [bindr]. f_equal.
        rewrite list_insert_id by exact Hpr. destruct s; reflexivity. }
    destruct Hstep as (s1 & -> & ->).
    rewrite IH.
    + f_equal. ksimpl. apply kstate_eq; try reflexivity. ksimpl.
      rewrite Hdrop. cbn [imap]. rewrite Nat.add_0_r.
      rewrite (take_S_r _ _ (wake_slot ch (cproc (kcpu s)) i pr))
        by (apply list_lookup_insert_eq; lia).
      rewrite <- app_assoc. cbn [app].
      rewrite take_insert_ge by lia.
      rewrite drop_insert_lt by lia.
      f_equal. f_equal.
      apply imap_ext. intros k x _. unfold compose. f_equal. lia.
    + exact Hc.
    + exact Hh.
    + ksimpl. rewrite length_insert. lia.
Qed.

Lemma wakeup_ok ch s :
  critical s ->
  (forall j, Some j ≠ cproc (kcpu s) -> ProcLock j ∉ held s) ->
  wakeup ch s = Ret tt (woke ch s).
Proof.
  intros Hc Hh. unfold wakeup, NPROC. unfold bind, gets. cbn [bindr].
  rewrite wakeup_scan_ok by (try assumption; lia).
  reflexivity.
Qed.

Lemma wake_lookup ch me ps j :
  wake ch me ps !! j = wake_slot ch me j <$> ps !! j.
Proof. apply list_lookup_imap. Qed.

Lemma wake_length ch me ps : length (wake ch me ps) = length ps.
Proof. apply length_imap. Qed.

Lemma wake_slot_killed ch me j pr : killed (wake_slot ch me j pr) = killed pr.
Proof. unfold wake_slot. destruct (_ && _); reflexivity. Qed.

Lemma wake_slot_pagetable ch me j pr : pagetable (wake_slot ch me j pr) = pagetable pr.
Proof. unfold wake_slot. destruct (_ && _); reflexivity. Qed.

(** *** Running through binds and loops *)

Lemma runk_bindr {A B} (r : res A) (f : A -> M B) ws :
  runk (bindr r f) ws = bind_outcome (runk r ws) (fun a s ws' => runk (f a s) ws').
Proof.
  revert ws. induction r as [a s|msg s|s|s k IH|]; intros ws; try reflexivity.
  cbn [bindr runk]. destruct ws as [|w ws]; [reflexivity|]. apply IH.
Qed.

Lemma runk_bind {A B} (m : M A) (f : A -> M B) s ws :
  runk (bind m f s) ws = bind_outcome (runk (m s) ws) (fun a s ws' => runk (f a s) ws').
Proof. apply runk_bindr. Qed.

Lemma loop_step {S R} (body : S -> M (ctl S R)) fuel x s ws x' s' ws' :
  iter_step body (x, s, ws) (x', s', ws') ->
  runk (loop (Datatypes.S fuel) body x s) ws = runk (loop fuel body x' s') ws'.
Proof.
  unfold iter_step. cbn [fst snd]. intros H. cbn [loop].
  rewrite runk_bind, H. reflexivity.
Qed.

Lemma loop_break {S R} (body : S -> M (ctl S R)) fuel x s ws x' s' ws' :
  runk (body x s) ws = (Done (Break x') s', ws') ->
  runk (loop (Datatypes.S fuel) body x s) ws = (Done (inl x') s', ws').
Proof. intros H. cbn [loop]. rewrite runk_bind, H. reflexivity. Qed.

Lemma loop_return {S R} (body : S -> M (ctl S R)) fuel x s ws v s' ws' :
  runk (body x s) ws = (Done (Return v) s', ws') ->
  runk (loop (Datatypes.S fuel) body x s) ws = (Done (inr v) s', ws').
Proof. intros H. cbn [loop]. rewrite runk_bind, H. reflexivity. Qed.

Lemma loop_blocked {S R} (body : S -> M (ctl S R)) fuel x s ws s' ws' :
  runk (body x s) ws = (Blocked s', ws') ->
  runk (loop (Datatypes.S fuel) body x s) ws = (Blocked s', ws').
Proof. intros H. cbn [loop]. rewrite runk_bind, H. reflexivity. Qed.

(** *** Invariants across switches *)

Lemma wpr_bindr {A B} I (r : res A) (f : A -> M B) Q :
  wpr I r (fun a s => wpr I (f a s) Q) -> wpr I (bindr r f) Q.
Proof.
  induction r as [a s|msg s|s|s k IH|]; cbn [wpr bindr]; try tauto.
  intros [Hs Hk]. split; [exact Hs|]. intros s' Hs'. apply IH, Hk, Hs'.
Qed.

Lemma wpr_bind {A B} I (m : M A) (f : A -> M B) Q s :
  wpr I (m s) (fun a s' => wpr I (f a s') Q) -> wpr I (bind m f s) Q.
Proof. apply wpr_bindr. Qed.

Lemma wpr_mono {A} I (r : res A) (Q Q' : A -> kstate -> Prop) :
  (forall a s, Q a s -> Q' a s) -> wpr I r Q -> wpr I r Q'.
Proof.
  intros HQ. induction r as [a s|msg s|s|s k IH|]; cbn [wpr]; try tauto.
  - apply HQ.
  - intros [Hs Hk]. split; [exact Hs|]. intros s' Hs'. apply IH, Hk, Hs'.
Qed.

Lemma wpr_loop {S R} I (body : S -> M (ctl S R)) (J : S -> kstate -> Prop)
    (Q : S + R -> kstate -> Prop) fuel :
  (forall x s, J x s ->
     wpr I (body x s) (fun cl s' =>
       match cl with
       | Continue x' => J x' s'
       | Break x' => Q (inl x') s'
       | Return v => Q (inr v) s'
       end)) ->
  forall x s, J x s -> wpr I (loop fuel body x s) Q.
Proof.
  intros Hbody. induction fuel as [|fuel IH]; intros x s HJ; [exact Logic.I|].
  cbn [loop]. apply wpr_bind. eapply wpr_mono; [|apply Hbody, HJ].
  intros [x'|x'|v] s' H; cbn; [apply IH, H | exact H | exact H].
Qed.

(** *** Arithmetic of the pipe counters *)

Ltac wrap_lia :=
  clear_unused;
  allp ltac:(fun H => revert H);
  unfold used, pipe_full, pipe_empty, wrap_uint, PIPESIZE;
  cbn [nread nwrite readopen writeopen data];
  change (2 ^ 32) with 4294967296; intros;
  repeat match goal with
         | |- context [(?a =? ?b)] => destruct (Z.eqb_spec a b)
         | H : context [(?a =? ?b)] |- _ => destruct (Z.eqb_spec a b)
         end;
  Z.to_euclidean_division_equations; lia.

Lemma pipe_full_iff pi :
  0 <= nread pi < 2 ^ 32 -> 0 <= nwrite pi < 2 ^ 32 ->
  pipe_full pi = true <-> used pi = PIPESIZE.
Proof. intros. split; intros; wrap_lia. Qed.

Lemma pipe_empty_iff pi :
  0 <= nread pi < 2 ^ 32 -> 0 <= nwrite pi < 2 ^ 32 ->
  pipe_empty pi = true <-> used pi = 0.
Proof. intros. split; intros; wrap_lia. Qed.

Lemma pipe_ok_intro pi :
  0 <= nread pi < 2 ^ 32 -> 0 <= nwrite pi < 2 ^ 32 ->
  0 <= used pi <= PIPESIZE -> pipe_ok pi.
Proof.
  intros H1 H2 H3. split; [split; assumption|]. split; [assumption|].
  split; [apply pipe_full_iff | apply pipe_empty_iff]; assumption.
Qed.

Lemma pipe_init_ok pi : pipe_ok (pipe_init pi).
Proof. apply pipe_ok_intro; unfold pipe_init; cbn [nread nwrite]; wrap_lia. Qed.

Lemma pipe_put_ok ch pi :
  pipe_ok pi -> pipe_full pi = false -> pipe_ok (pipe_put ch pi).
Proof.
  intros ((H1 & H2) & H3 & _ & _) Hf.
  apply pipe_ok_intro; unfold pipe_put; cbn [nread nwrite]; wrap_lia.
Qed.

Lemma pipe_take_ok pi :
  pipe_ok pi -> pipe_empty pi = false -> pipe_ok (pipe_take pi).
Proof.
  intros ((H1 & H2) & H3 & _ & _) Hf.
  apply pipe_ok_intro; unfold pipe_take; cbn [nread nwrite]; wrap_lia.
Qed.

(** *** Code that leaves the pipe alone *)

Lemma quiet_ret {A} (a : A) : quiet (ret a).
Proof. intros s. reflexivity. Qed.

Lemma quiet_gets {A} (f : kstate -> A) : quiet (gets f).
Proof. intros s. reflexivity. Qed.

Lemma quiet_panic {A} msg : quiet (@panic umem A msg).
Proof. intros s. exact I. Qed.

Lemma quiet_fault {A} : quiet (@fault umem A).
Proof. intros s. exact I. Qed.

Lemma quiet_modify (f : kstate -> kstate) :
  (forall s, kpipe (f s) = kpipe s) -> quiet (modify f).
Proof. intros H s. apply H. Qed.

Lemma quiet_bind {A B} (m : M A) (f : A -> M B) :
  quiet m -> (forall a, quiet (f a)) -> quiet (bind m f).
Proof.
  intros Hm Hf s. unfold bind. specialize (Hm s).
  destruct (m s) as [a s'|msg s'|s'|s' k|]; cbn [bindr]; try tauto.
  specialize (Hf a s'). destruct (f a s'); try tauto. congruence.
Qed.

Lemma quiet_if {A} (b : bool) (m1 m2 : @M umem A) :
  quiet m1 -> quiet m2 -> quiet (if b then m1 else m2).
Proof. destruct b; auto. Qed.

Lemma quiet_getp i : quiet (@getp umem i).
Proof. intros s. unfold getp. destruct (procs s !! i); [reflexivity|exact I]. Qed.

Lemma quiet_setp i f : quiet (@setp umem i f).
Proof. intros s. unfold setp. destruct (procs s !! i); [reflexivity|exact I]. Qed.

Lemma quiet_deref p : quiet (@deref umem p).
Proof. destruct p; [apply quiet_ret | apply quiet_fault]. Qed.

Ltac quiet_tac :=
  repeat first
    [ apply quiet_ret | apply quiet_gets | apply quiet_panic | apply quiet_fault
    | apply quiet_getp | apply quiet_setp | apply quiet_deref
    | apply quiet_modify; intros; reflexivity
    | apply quiet_if
    | apply quiet_bind; [|intros] ].

Lemma quiet_push_off : quiet (@push_off umem).
Proof. unfold push_off. quiet_tac. Qed.

Lemma quiet_pop_off : quiet (@pop_off umem).
Proof. unfold pop_off, intr_get. quiet_tac. Qed.

Lemma quiet_acquire lk : quiet (@acquire umem lk).
Proof.
  unfold acquire, holding.
  apply quiet_bind; [apply quiet_push_off|intros]. quiet_tac.
Qed.

Lemma quiet_release lk : quiet (@release umem lk).
Proof.
  unfold release, holding. quiet_tac.
Qed.

Lemma quiet_myproc : quiet (@myproc umem).
Proof.
  unfold myproc, mycpu.
  apply quiet_bind; [apply quiet_push_off|intros].
  apply quiet_bind; [apply quiet_gets|intros].
  apply quiet_bind; [apply quiet_pop_off|intros]. apply quiet_ret.
Qed.

Lemma quiet_wakeup_scan n i ch : quiet (@wakeup_scan umem n i ch).
Proof.
  revert i. induction n as [|n IH]; intros i; cbn [wakeup_scan]; [apply quiet_ret|].
  apply quiet_bind; [apply quiet_myproc|intros me].
  apply quiet_bind; [|intros; apply IH].
  apply quiet_if; [|apply quiet_ret].
  apply quiet_bind; [apply quiet_acquire|intros].
  apply quiet_bind; [apply quiet_getp|intros].
  apply quiet_bind; [|intros; apply quiet_release].
  quiet_tac.
Qed.

Lemma quiet_wakeup ch : quiet (@wakeup umem ch).
Proof.
  unfold wakeup, NPROC. apply quiet_bind; [apply quiet_gets|intros].
  apply quiet_wakeup_scan.
Qed.

(** *** Code that keeps an invariant of the pipe *)

Section Keeps.
Variable P : pipe -> Prop.

Lemma quiet_keeps {A} (m : @M umem A) : quiet m -> keeps P m.
Proof.
  intros Hm s Q HP HQ. specialize (Hm s).
  destruct (m s); cbn [wpr]; try tauto. apply HQ. congruence.
Qed.

Lemma keeps_bind {A B} (m : M A) (f : A -> M B) :
  keeps P m -> (forall a, keeps P (f a)) -> keeps P (bind m f).
Proof.
  intros Hm Hf s Q HP HQ. apply wpr_bind. apply Hm; [exact HP|].
  intros a s' HP'. apply Hf; assumption.
Qed.

Lemma keeps_swtch : keeps P (@swtch umem).
Proof.
  intros s Q HP HQ. cbn [swtch wpr]. split; [exact HP|].
  intros s' HP'. apply HQ, HP'.
Qed.

Lemma keeps_if {A} (b : bool) (m1 m2 : @M umem A) :
  keeps P m1 -> keeps P m2 -> keeps P (if b then m1 else m2).
Proof. destruct b; auto. Qed.

Lemma keeps_sched : keeps P (@sched umem).
Proof.
  unfold sched, holding, mycpu, intr_get, set_intena.
  apply keeps_bind; [apply quiet_keeps, quiet_myproc|intros p].
  apply keeps_bind; [apply quiet_keeps, quiet_deref|intros p'].
  apply keeps_bind; [apply quiet_keeps, quiet_gets|intros h].
  apply keeps_if; [apply quiet_keeps, quiet_panic|].
  apply keeps_bind; [apply quiet_keeps, quiet_gets|intros c].
  apply keeps_if; [apply quiet_keeps, quiet_panic|].
  apply keeps_bind; [apply quiet_keeps, quiet_getp|intros pr].
  apply keeps_if; [apply quiet_keeps, quiet_panic|].
  apply keeps_bind; [apply quiet_keeps, quiet_gets|intros ib].
  apply keeps_if; [apply quiet_keeps, quiet_panic|].
  apply keeps_bind; [apply quiet_keeps, quiet_gets|intros c'].
  apply keeps_bind; [apply keeps_swtch|intros].
  apply quiet_keeps, quiet_modify. reflexivity.
Qed.

Lemma keeps_sleep ch lk : keeps P (@sleep umem ch lk).
Proof.
  unfold sleep.
  apply keeps_bind; [apply quiet_keeps, quiet_myproc|intros p].
  apply keeps_bind; [apply quiet_keeps, quiet_deref|intros p'].
  apply keeps_bind; [apply quiet_keeps, quiet_acquire|intros].
  apply keeps_bind; [apply quiet_keeps, quiet_release|intros].
  apply keeps_bind; [apply quiet_keeps, quiet_setp|intros].
  apply keeps_bind; [apply quiet_keeps, quiet_setp|intros].
  apply keeps_bind; [apply keeps_sched|intros].
  apply keeps_bind; [apply quiet_keeps, quiet_setp|intros].
  apply keeps_bind; [apply quiet_keeps, quiet_release|intros].
  apply quiet_keeps, quiet_acquire.
Qed.

Lemma keeps_yield : keeps P (@yield umem).
Proof.
  unfold yield.
  apply keeps_bind; [apply quiet_keeps, quiet_myproc|intros p].
  apply keeps_bind; [apply quiet_keeps, quiet_deref|intros p'].
  apply keeps_bind; [apply quiet_keeps, quiet_acquire|intros].
  apply keeps_bind; [apply quiet_keeps, quiet_setp|intros].
  apply keeps_bind; [apply keeps_sched|intros].
  apply quiet_keeps, quiet_release.
Qed.

Lemma keeps_loop {S R} (body : S -> M (ctl S R)) fuel x :
  (forall x, keeps P (body x)) -> keeps P (loop fuel body x).
Proof.
  intros Hb. revert x. induction fuel as [|fuel IH]; intros x.
  - intros s Q _ _. exact I.
  - cbn [loop]. apply keeps_bind; [apply Hb|].
    intros [x'|x'|v]; [apply IH | apply quiet_keeps, quiet_ret..].
Qed.

End Keeps.

Lemma wpr_quiet_bind {A B} I (m : @M umem A) (f : A -> M B) Q s :
  quiet m ->
  (forall a s', kpipe s' = kpipe s -> wpr I (f a s') Q) ->
  wpr I (bind m f s) Q.
Proof.
  intros Hm Hf. unfold bind. specialize (Hm s).
  destruct (m s) as [a s'|msg s'|s'|s' k|]; cbn [bindr wpr]; try tauto.
  apply Hf, Hm.
Qed.

(** *** The pipe operations keep the counters within bounds *)

Lemma pipe_ok_flags pi ro wo :
  pipe_ok pi -> pipe_ok (mkPipe (data pi) (nread pi) (nwrite pi) ro wo).
Proof. intros ((H1 & H2) & H3 & _ & _). apply pipe_ok_intro; assumption. Qed.

Lemma keeps_pipewrite_body pr addr n i :
  keeps pipe_ok (pipewrite_body copyin pr addr n i).
Proof.
  intros s Q HP HQ. unfold pipewrite_body.
  destruct (i <? n); [|apply HQ, HP].
  apply wpr_quiet_bind; [apply quiet_gets|]. intros pi s1 E1.
  apply wpr_quiet_bind.
  { apply quiet_if; [apply quiet_ret|].
    apply quiet_bind; [apply quiet_deref|intros].
    apply quiet_bind; [apply quiet_getp|intros]. apply quiet_ret. }
  intros stop s2 E2. destruct stop.
  { apply (keeps_bind pipe_ok); [apply quiet_keeps, quiet_release| |congruence|exact HQ].
    intros. apply quiet_keeps, quiet_ret. }
  unfold bind at 1, gets at 1. cbn [bindr].
  destruct (pipe_full (kpipe s2)) eqn:Efull.
  { apply (keeps_bind pipe_ok); [apply quiet_keeps, quiet_wakeup| |congruence|exact HQ].
    intros. apply keeps_bind; [apply keeps_sleep|]. intros. apply quiet_keeps, quiet_ret. }
  apply wpr_quiet_bind; [apply quiet_deref|]. intros p s3 E3.
  apply wpr_quiet_bind; [apply quiet_getp|]. intros q s4 E4.
  unfold bind at 1, gets at 1. cbn [bindr].
  destruct (copyin _ _ _) as [ch|].
  - unfold bind, set_pipe, modify, ret. cbn [bindr wpr]. apply HQ. cbn.
    apply pipe_put_ok; rewrite E4, E3; [congruence | exact Efull].
  - apply HQ. congruence.
Qed.

Lemma keeps_pipewrite fuel addr n :
  keeps pipe_ok (pipewrite copyin fuel addr n).
Proof.
  unfold pipewrite.
  apply keeps_bind; [apply quiet_keeps, quiet_myproc|intros pr].
  apply keeps_bind; [apply quiet_keeps, quiet_acquire|intros].
  apply keeps_bind; [apply keeps_loop; intros; apply keeps_pipewrite_body|].
  intros [i|v]; [|apply quiet_keeps, quiet_ret].
  apply keeps_bind; [apply quiet_keeps, quiet_wakeup|intros].
  apply keeps_bind; [apply quiet_keeps, quiet_release|intros].
  apply quiet_keeps, quiet_ret.
Qed.

Lemma keeps_piperead_wait P pr x : keeps P (@piperead_wait umem pr x).
Proof.
  unfold piperead_wait.
  apply keeps_bind; [apply quiet_keeps, quiet_gets|intros pi].
  apply keeps_if; [|apply quiet_keeps, quiet_ret].
  apply keeps_bind; [apply quiet_keeps, quiet_deref|intros].
  apply keeps_bind; [apply quiet_keeps, quiet_getp|intros].
  apply keeps_if.
  - apply keeps_bind; [apply quiet_keeps, quiet_release|intros].
    apply quiet_keeps, quiet_ret.
  - apply keeps_bind; [apply keeps_sleep|intros]. apply quiet_keeps, quiet_ret.
Qed.

Lemma quiet_do_copyout pt va bytes : quiet (do_copyout copyout pt va bytes).
Proof. intros s. reflexivity. Qed.

Lemma keeps_piperead_copy cnt pr addr i :
  keeps pipe_ok (piperead_copy copyout cnt pr addr i).
Proof.
  revert i. induction cnt as [|cnt IH]; intros i; cbn [piperead_copy].
  { apply quiet_keeps, quiet_ret. }
  intros s Q HP HQ.
  unfold bind at 1, gets at 1. cbn [bindr].
  destruct (pipe_empty (kpipe s)) eqn:Eempty; [apply HQ, HP|].
  unfold bind at 1, set_pipe, modify. cbn [bindr].
  apply wpr_quiet_bind; [apply quiet_deref|]. intros p s3 E3.
  apply wpr_quiet_bind; [apply quiet_getp|]. intros q s4 E4.
  apply wpr_quiet_bind; [apply quiet_do_copyout|]. intros ok s5 E5.
  assert (HP5 : pipe_ok (kpipe s5)).
  { rewrite E5, E4, E3. cbn. apply pipe_take_ok; assumption. }
  destruct ok; [apply IH; assumption | apply HQ, HP5].
Qed.

Lemma keeps_piperead fuel addr n :
  keeps pipe_ok (piperead copyout fuel addr n).
Proof.
  unfold piperead.
  apply keeps_bind; [apply quiet_keeps, quiet_myproc|intros pr].
  apply keeps_bind; [apply quiet_keeps, quiet_acquire|intros].
  apply keeps_bind; [apply keeps_loop; intros; apply keeps_piperead_wait|].
  intros [i|v]; [|apply quiet_keeps, quiet_ret].
  apply keeps_bind; [apply keeps_piperead_copy|intros].
  apply keeps_bind; [apply quiet_keeps, quiet_wakeup|intros].
  apply keeps_bind; [apply quiet_keeps, quiet_release|intros].
  apply quiet_keeps, quiet_ret.
Qed.

Lemma keeps_pipeclose writable : keeps pipe_ok (@pipeclose umem writable).
Proof.
  unfold pipeclose.
  apply keeps_bind; [apply quiet_keeps, quiet_acquire|intros].
  apply keeps_bind.
  { apply keeps_if.
    - apply keeps_bind; [|intros; apply quiet_keeps, quiet_wakeup].
      intros s Q HP HQ. apply HQ. cbn. apply pipe_ok_flags, HP.
    - apply keeps_bind; [|intros; apply quiet_keeps, quiet_wakeup].
      intros s Q HP HQ. apply HQ. cbn. apply pipe_ok_flags, HP. }
  intros. apply keeps_bind; [apply quiet_keeps, quiet_gets|intros pi].
  apply keeps_if.
  - apply keeps_bind; [apply quiet_keeps, quiet_release|intros].
    apply quiet_keeps, quiet_modify. reflexivity.
  - apply quiet_keeps, quiet_release.
Qed.

Lemma keeps_pipe_ops fuel ops :
  keeps pipe_ok (pipe_ops copyin copyout fuel ops).
Proof.
  induction ops as [|op ops IH]; cbn [pipe_ops]; [apply quiet_keeps, quiet_ret|].
  apply keeps_bind; [|intros; exact IH].
  destruct op as [addr n|addr n|writable|]; cbn [do_op].
  - apply keeps_bind; [apply keeps_pipewrite|intros; apply quiet_keeps, quiet_ret].
  - apply keeps_bind; [apply keeps_piperead|intros; apply quiet_keeps, quiet_ret].
  - apply keeps_pipeclose.
  - apply keeps_yield.
Qed.

(** One process running a sequence of pipe operations keeps the counters
    within bounds, whatever the others do when it sleeps or yields, as
    long as they keep them within bounds too. *)
Lemma pipe_ops_safe fuel ops s :
  pipe_ok (kpipe s) ->
  safe (fun s' => pipe_ok (kpipe s')) (pipe_ops copyin copyout fuel ops s).
Proof.
  intros H. apply (keeps_pipe_ops fuel ops); [exact H|].
  intros _ s' H'. exact H'.
Qed.

Lemma pool_step_ok c c' : pool_ok c -> pool_step c c' -> pool_ok c'.
Proof.
  intros [Hg Hts] Hstep. destruct Hstep as [g ts j k g1 g2 k2 Hj Hp Hk|g ts j k g1 g2 Hj Hp Hk];
    cbn [fst snd]; allp ltac:(fun H => cbn [fst snd] in H).
  - pose proof (proj1 (Forall_lookup _ _) Hts j k Hj g1 ltac:(congruence)) as Hs.
    rewrite Hk in Hs. destruct Hs as [Hg2 Hk2].
    split; [exact Hg2|]. cbn [snd]. apply Forall_insert; [exact Hts|]. exact Hk2.
  - pose proof (proj1 (Forall_lookup _ _) Hts j k Hj g1 ltac:(congruence)) as Hs.
    rewrite Hk in Hs.
    split; [exact Hs|]. cbn [snd]. apply Forall_delete, Hts.
Qed.

(** C2. Any number of processes, each making any sequence of pipe
    operations (writes, reads, closes, yields in between) on a pipe that
    [pipealloc] has just initialised (n_read = n_write = 0), interleaved
    in any way at their sleeps and yields: in every state the kernel goes
    through between the pieces of these operations,
    0 <= n_write - n_read <= 512 in the [uint] arithmetic of the counters,
    the full test of [pipewrite] holds exactly when n_write - n_read = 512
    and the empty test of [piperead] exactly when n_write = n_read. *)
Theorem pipe_bounded (tss : list (nat * list pipe_op)) g0 g ts :
  rtc pool_step
      (set_kpipe (pipe_init (kpipe g0)) g0,
       (fun t => pipe_ops copyin copyout t.1 t.2) <$> tss)
      (g, ts) ->
  (0 <= used (kpipe g) <= PIPESIZE) /\
  (pipe_full (kpipe g) = true <-> used (kpipe g) = PIPESIZE) /\
  (pipe_empty (kpipe g) = true <-> used (kpipe g) = 0).
Proof.
  intros Hreach.
  assert (Hok : pool_ok (g, ts)).
  { eapply (rtc_ind_r (fun c => pool_ok c)); [| |exact Hreach].
    - split; [apply pipe_init_ok|]. cbn [snd].
      apply Forall_fmap, Forall_forall. intros [fuel ops] _ g1 Hg1.
      apply pipe_ops_safe, Hg1.
    - intros c c' _ Hstep Hc. eapply pool_step_ok; eassumption. }
  destruct Hok as [(_ & H1 & H2 & H3) _]. auto.
Qed.

(** *** System-call entry and critical sections *)

Lemma enter_inlock lk p s : entry p s -> inlock lk p (enter lk s).
Proof.
  intros (Hc & Hp & Hh & Hn). unfold enter, inlock, norm_cpu. ksimpl.
  rewrite Hh, Hn. cbn. repeat split; assumption.
Qed.

Lemma enter_run {A} lk p s (f : option nat -> @M umem A) :
  entry p s ->
  bind myproc (fun pr => bind (acquire lk) (fun _ => f pr)) s = f (Some p) (enter lk s).
Proof.
  intros (Hc & Hp & Hh & Hn).
  erewrite bind_eq by (apply myproc_ok; lia). cbn [bindr].
  erewrite bind_eq.
  2:{ apply acquire_ok. ksimpl. rewrite Hh. apply not_elem_of_nil. }
  cbn [bindr]. rewrite Hc. reflexivity.
Qed.

Lemma inlock_critical lk p s : inlock lk p s -> critical s.
Proof. intros (_ & _ & _ & Hn & Hs). split; [lia | exact Hs]. Qed.

Lemma inlock_free lk p s j :
  inlock lk p s -> lk <> ProcLock j -> ProcLock j ∉ held s.
Proof.
  intros (_ & _ & Hh & _) Hne. rewrite Hh. intros H%list_elem_of_singleton. congruence.
Qed.

Lemma inlock_release lk p s :
  inlock lk p s -> release lk s = Ret tt (unlock lk s).
Proof.
  intros (_ & _ & Hh & Hn & Hs). apply release_ok; [rewrite Hh; left | exact Hs | lia].
Qed.

Lemma inlock_wakeup lk p ch s :
  inlock lk p s -> (forall j, lk <> ProcLock j) ->
  wakeup ch s = Ret tt (woke ch s) /\ inlock lk p (woke ch s).
Proof.
  intros Hin Hne. split.
  - apply wakeup_ok; [eapply inlock_critical, Hin|].
    intros j _. eapply inlock_free; [exact Hin | apply Hne].
  - destruct Hin as (Hc & Hp & Hh & Hn & Hs). unfold woke, inlock. ksimpl.
    rewrite wake_length. repeat split; assumption.
Qed.

Lemma dispatched_woken p lk ie w :
  dispatched p w -> inlock lk p (woken p lk ie w).
Proof.
  intros (Hc & Hp & Hh & Hn & Hs). unfold woken, inlock, set_slot.
  destruct (procs w !! p); ksimpl; rewrite ?length_insert; repeat split; assumption.
Qed.

Lemma inlock_sleep lk p ch s :
  inlock lk p s -> lk <> ProcLock p ->
  sleep ch lk s = Swtch (sleeping p ch s) (sleep_resume p lk (intena (kcpu s))).
Proof.
  intros (Hc & Hp & Hh & Hn & Hs) Hne.
  destruct (lookup_lt_is_Some_2 _ _ Hp) as [q Hq].
  eapply sleep_switch; eassumption.
Qed.

Lemma pkilled_slot p s q :
  procs s !! p = Some q -> pkilled p s = negb (killed q =? 0).
Proof. unfold pkilled. intros ->. reflexivity. Qed.

(** *** pipewrite: one iteration of the loop *)

Lemma stop_eval {B} s p q (ro : bool) (k : bool -> @M umem B) :
  procs s !! p = Some q ->
  bind (if ro then ret true
        else bind (deref (Some p)) (fun p0 => bind (getp p0)
               (fun q0 => ret (negb (killed q0 =? 0))))) k s
  = k (ro || negb (killed q =? 0)) s.
Proof.
  intros Hq. destruct ro; [reflexivity|].
  unfold bind, deref, ret, getp. cbn [bindr]. rewrite Hq. reflexivity.
Qed.

Lemma pw_body_run p addr n i s ws :
  inlock PipeLock p s -> Forall (dispatched p) ws ->
  runk (pipewrite_body copyin (Some p) addr n i s) ws = pw_outcome p addr n i s ws.
Proof.
  intros Hin Hws. unfold pipewrite_body, pw_outcome.
  destruct (i <? n); cbn [negb]; [|reflexivity].
  assert (Hp := Hin). destruct Hp as (Hc & Hp & Hh & Hn & Hs).
  destruct (lookup_lt_is_Some_2 _ _ Hp) as [q Hq].
  rewrite (pkilled_slot p s q Hq), Hq.
  unfold bind at 1, gets at 1. cbn [bindr].
  rewrite (stop_eval s p q _ _ Hq).
  destruct ((readopen (kpipe s) =? 0) || negb (killed q =? 0)).
  { erewrite bind_eq by (eapply inlock_release, Hin). reflexivity. }
  unfold bind at 1, gets at 1. cbn [bindr].
  destruct (pipe_full (kpipe s)).
  - destruct (inlock_wakeup PipeLock p PipeNread s Hin) as [Hw Hin']; [discriminate|].
    erewrite bind_eq by exact Hw. cbn [bindr].
    erewrite bind_eq by (eapply inlock_sleep; [exact Hin' | discriminate]).
    cbn [bindr runk].
    destruct ws as [|w ws']; [reflexivity|].
    rewrite runk_bindr.
    rewrite sleep_resume_ok; [reflexivity | | discriminate].
    eapply Forall_inv, Hws.
  - unfold bind at 1, deref, ret at 1. cbn [bindr].
    erewrite bind_eq by (apply getp_ok; exact Hq). cbn [bindr].
    unfold bind at 1, gets at 1. cbn [bindr].
    destruct (copyin _ _ _); reflexivity.
Qed.

(** *** pipewrite: the loop *)





(** Every iteration that goes round the loop either slept on a full pipe,
    the count [i] unchanged, or put the byte read at [addr + i] into the
    ring and counted it. *)
Lemma pw_step_effect p addr n c c' :
  head_ok PipeLock p c -> iter_step (pw_body p addr n) c c' ->
  (c'.1.1 = c.1.1 /\ pipe_full (kpipe c.1.2) = true) \/
  (c'.1.1 = c.1.1 + 1 /\ pipe_full (kpipe c.1.2) = false /\
   exists q ch, procs c.1.2 !! p = Some q /\
     copyin (mem c.1.2) (pagetable q) (wrap_uint64 (addr + c.1.1)) = Some ch /\
     c'.1.2 = set_kpipe (pipe_put ch (kpipe c.1.2)) c.1.2).
Proof.
  destruct c as [[i s] ws], c' as [[i' s'] ws']. unfold head_ok, iter_step.
  cbn [fst snd]. intros (Hin & Hws & Hi) Hstep.
  rewrite pw_body_run in Hstep by assumption. unfold pw_outcome in Hstep.
  destruct (i <? n); cbn [negb] in Hstep; [|discriminate].
  destruct ((readopen (kpipe s) =? 0) || pkilled p s); [discriminate|].
  destruct (pipe_full (kpipe s)).
  - destruct ws as [|w ws0]; [discriminate|].
    injection Hstep as <- <- <-. left. auto.
  - destruct (procs s !! p) as [q|]; [|discriminate].
    destruct (copyin _ _ _) as [ch|] eqn:Hci; [|discriminate].
    injection Hstep as <- <- <-. right. split; [reflexivity|]. split; [reflexivity|].
    exists q, ch. auto.
Qed.



(** *** piperead: waiting for data *)

Lemma pr_body_run p x s ws :
  inlock PipeLock p s -> Forall (dispatched p) ws ->
  runk (pr_body p x s) ws = pr_outcome p s ws.
Proof.
  intros Hin Hws. unfold piperead_wait, pr_outcome, pr_waiting.
  unfold bind at 1, gets at 1. cbn [bindr].
  destruct (pipe_empty (kpipe s) && negb (writeopen (kpipe s) =? 0)); [|reflexivity].
  assert (Hp := Hin). destruct Hp as (Hc & Hp & Hh & Hn & Hs).
  destruct (lookup_lt_is_Some_2 _ _ Hp) as [q Hq].
  rewrite (pkilled_slot p s q Hq).
  unfold bind at 1, deref, ret at 1. cbn [bindr].
  erewrite bind_eq by (apply getp_ok; exact Hq). cbn [bindr].
  destruct (negb (killed q =? 0)).
  { erewrite bind_eq by (eapply inlock_release, Hin). reflexivity. }
  erewrite bind_eq by (eapply inlock_sleep; [exact Hin | discriminate]).
  cbn [bindr runk].
  destruct ws as [|w ws']; [reflexivity|].
  rewrite runk_bindr.
  rewrite sleep_resume_ok; [reflexivity | | discriminate].
  eapply Forall_inv, Hws.
Qed.




(** *** piperead: the copy loop *)

Lemma taken_S k pi : taken (S k) pi = taken k (pipe_take pi).
Proof. unfold taken. apply Nat.iter_succ_r. Qed.

Lemma piperead_copy_S p q cnt s addr i :
  procs s !! p = Some q ->
  piperead_copy copyout (S cnt) (Some p) addr i s =
  if pipe_empty (kpipe s) then Ret i s
  else
    let r := copyout (mem s) (pagetable q) (wrap_uint64 (addr + i)) [pipe_byte (kpipe s)] in
    let s1 := set_mem r.2 (set_kpipe (pipe_take (kpipe s)) s) in
    if r.1 then piperead_copy copyout cnt (Some p) addr (i + 1) s1 else Ret i s1.
Proof.
  intros Hq. cbn [piperead_copy]. unfold bind at 1, gets at 1. cbn [bindr].
  destruct (pipe_empty (kpipe s)); [reflexivity|].
  unfold bind at 1, set_pipe, modify. cbn [bindr].
  unfold bind at 1, deref, ret at 1. cbn [bindr].
  erewrite bind_eq by (apply getp_ok; exact Hq). cbn [bindr].
  unfold bind at 1, do_copyout. cbn [bindr]. ksimpl. cbn zeta.
  destruct (copyout _ _ _ _).1; reflexivity.
Qed.


Lemma delivered_nonempty k um pt addr pi i um' :
  delivered (S k) um pt addr pi i = Some um' -> pipe_empty pi = false.
Proof. cbn [delivered]. destruct (pipe_empty pi); [discriminate|reflexivity]. Qed.


(** *** piperead: a copyout that fails *)

Lemma piperead_wait_break p x s :
  pr_waiting (kpipe s) = false -> pr_body p x s = Ret (Break tt) s.
Proof.
  intros H. unfold piperead_wait, bind at 1, gets at 1. cbn [bindr].
  unfold pr_waiting in H. rewrite H. reflexivity.
Qed.

Lemma piperead_copy_fail p q k : forall cnt s addr i um_k,
  procs s !! p = Some q -> (k < cnt)%nat ->
  delivered k (mem s) (pagetable q) addr (kpipe s) i = Some um_k ->
  pipe_empty (taken k (kpipe s)) = false ->
  let r := copyout um_k (pagetable q) (wrap_uint64 (addr + (i + Z.of_nat k)))
             [pipe_byte (taken k (kpipe s))] in
  r.1 = false ->
  piperead_copy copyout cnt (Some p) addr i s
  = Ret (i + Z.of_nat k) (set_mem r.2 (set_kpipe (taken (S k) (kpipe s)) s)).
Proof.
  induction k as [|k IH]; intros cnt s addr i um_k Hq Hlt Hdel Hne r Hfail.
  - destruct cnt as [|cnt]; [lia|].
    rewrite (piperead_copy_S p q cnt s addr i Hq).
    cbn [delivered] in Hdel. injection Hdel as <-.
    change (taken 0 (kpipe s)) with (kpipe s) in Hne, r, Hfail. rewrite Hne. cbn zeta.
    subst r. rewrite Z.add_0_r in Hfail. rewrite Z.add_0_r.
    rewrite Hfail. reflexivity.
  - destruct cnt as [|cnt]; [lia|].
    rewrite (piperead_copy_S p q cnt s addr i Hq).
    cbn [delivered] in Hdel.
    destruct (pipe_empty (kpipe s)); [discriminate|]. cbn zeta in Hdel |- *.
    destruct (copyout (mem s) (pagetable q) (wrap_uint64 (addr + i)) [pipe_byte (kpipe s)]).1;
      [|discriminate].
    rewrite taken_S in Hne.
    erewrite IH; [| exact Hq | lia | exact Hdel | exact Hne |].
    + f_equal; [lia|]. subst r. ksimpl. rewrite <- !taken_S.
      replace (i + Z.of_nat (S k)) with (i + 1 + Z.of_nat k) by lia.
      apply kstate_eq; reflexivity.
    + subst r. rewrite taken_S in Hfail.
      replace (i + 1 + Z.of_nat k) with (i + Z.of_nat (S k)) by lia. exact Hfail.
Qed.

Lemma nread_taken_S k pi :
  nread (taken (S k) pi) = wrap_uint (nread pi + Z.of_nat (S k)).
Proof.
  induction k as [|k IH].
  - reflexivity.
  - change (taken (S (S k)) pi) with (pipe_take (taken (S k) pi)).
    unfold pipe_take at 1. cbn [nread]. rewrite IH. unfold wrap_uint.
    rewrite Zplus_mod_idemp_l. f_equal. lia.
Qed.

(** C10. When, in a [piperead] that finds data and so does not sleep,
    the first [k] bytes are delivered and the [copyout] of the next byte
    fails, the call returns [k], the count of the bytes delivered, while
    [nread] has advanced by [k + 1]: the byte whose copy failed has left
    the ring and a later [piperead] starts after it. *)
Theorem piperead_copyout_failure p fuel addr n s q (k : nat) um_k :
  entry p s -> procs s !! p = Some q -> (k < Z.to_nat n)%nat ->
  delivered k (mem s) (pagetable q) addr (kpipe s) 0 = Some um_k ->
  pipe_empty (taken k (kpipe s)) = false ->
  let r := copyout um_k (pagetable q) (wrap_uint64 (addr + Z.of_nat k))
             [pipe_byte (taken k (kpipe s))] in
  r.1 = false ->
  exists sf,
    piperead copyout (S fuel) addr n s = Ret (Z.of_nat k) sf /\
    kpipe sf = taken (S k) (kpipe s) /\
    nread (kpipe sf) = wrap_uint (nread (kpipe s) + Z.of_nat k + 1) /\
    nwrite (kpipe sf) = nwrite (kpipe s) /\ data (kpipe sf) = data (kpipe s) /\
    mem sf = r.2.
Proof.
  intros He Hq Hlt Hdel Hne r Hfail. unfold piperead.
  rewrite (enter_run PipeLock p s _ He).
  assert (Hnw : pr_waiting (kpipe (enter PipeLock s)) = false).
  { change (kpipe (enter PipeLock s)) with (kpipe s). unfold pr_waiting.
    destruct k as [|k].
    - change (taken 0 (kpipe s)) with (kpipe s) in Hne. rewrite Hne. reflexivity.
    - apply delivered_nonempty in Hdel. rewrite Hdel. reflexivity. }
  cbn [loop]. unfold bind at 1. unfold bind at 1.
  rewrite (piperead_wait_break p tt _ Hnw). cbn [bindr]. unfold ret at 1. cbn [bindr].
  assert (Hin := enter_inlock PipeLock p s He).
  erewrite bind_eq.
  2:{ eapply (piperead_copy_fail p q k (Z.to_nat n) (enter PipeLock s) addr 0 um_k);
      [exact Hq | exact Hlt | exact Hdel | exact Hne | exact Hfail]. }
  cbn [bindr]. change (kpipe (enter PipeLock s)) with (kpipe s). rewrite Z.add_0_l. fold r.
  set (s2 := set_mem r.2 (set_kpipe (taken (S k) (kpipe s)) (enter PipeLock s))).
  assert (Hin2 : inlock PipeLock p s2).
  { destruct Hin as (?&?&?&?&?). split_and!; assumption. }
  destruct (inlock_wakeup PipeLock p PipeNwrite s2 Hin2) as [Hw Hin']; [discriminate|].
  erewrite bind_eq by exact Hw. cbn [bindr].
  erewrite bind_eq by (eapply inlock_release, Hin'). cbn [bindr].
  eexists. split; [reflexivity|]. ksimpl. unfold woke, s2. ksimpl.
  split; [reflexivity|]. split.
  { rewrite nread_taken_S. f_equal. lia. }
  split; [|split; [|reflexivity]].
  - clear. induction k as [|k IH]; [reflexivity|].
    change (taken (S (S k)) (kpipe s)) with (pipe_take (taken (S k) (kpipe s))). exact IH.
  - clear. induction k as [|k IH]; [reflexivity|].
    change (taken (S (S k)) (kpipe s)) with (pipe_take (taken (S k) (kpipe s))). exact IH.
Qed.

(** *** wait *)

Lemma unlock_mid lk (f : @kstate umem -> @kstate umem) s :
  critical s -> lk ∉ held s ->
  held (f (lock lk s)) = held (lock lk s) ->
  kcpu (f (lock lk s)) = kcpu (lock lk s) ->
  procs (f (lock lk s)) = procs (f s) -> nextpid (f (lock lk s)) = nextpid (f s) ->
  kpipe (f (lock lk s)) = kpipe (f s) -> mem (f (lock lk s)) = mem (f s) ->
  trace (f (lock lk s)) = trace (f s) ->
  held (f s) = held s -> kcpu (f s) = kcpu s ->
  unlock lk (f (lock lk s)) = f s.
Proof.
  intros [Hn Hs] Hh H1 H2 H3 H4 H5 H6 H7 H8 H9.
  apply kstate_eq; unfold unlock at 1; ksimpl; try assumption.
  - rewrite H2, H9. ksimpl. fold (norm_cpu (kcpu s)). apply norm_cpu_critical; assumption.
  - rewrite H1, H8. ksimpl. apply filter_ne_cons_self, Hh.
Qed.

Lemma wait_scan_skip n np p addr hk s y :
  inlock WaitLock p s -> procs s !! np = Some y -> ~ zombie_child p y ->
  wscan (S n) np (Some p) addr hk s =
  wscan n (S np) (Some p) addr (hk || bool_decide (parent y = Some p)) s.
Proof.
  intros Hin Hy Hnz. cbn [wait_scan].
  erewrite bind_eq by (apply getp_ok; exact Hy). cbn [bindr].
  destruct (bool_decide_reflect (parent y = Some p)) as [Hpar|Hpar].
  2:{ rewrite orb_false_r. reflexivity. }
  rewrite orb_true_r.
  erewrite bind_eq.
  2:{ apply acquire_ok. eapply inlock_free; [exact Hin|discriminate]. }
  cbn [bindr].
  erewrite bind_eq by (apply getp_ok; exact Hy). cbn [bindr].
  rewrite bool_decide_eq_false_2 by (intros Hz; apply Hnz; split; assumption).
  erewrite bind_eq.
  2:{ apply release_ok; ksimpl; [left | reflexivity | destruct Hin as (_&_&_&Hn&_); lia]. }
  cbn [bindr]. rewrite unlock_lock; [reflexivity | eapply inlock_critical, Hin |].
  eapply inlock_free; [exact Hin|discriminate].
Qed.

Lemma wait_scan_none n : forall np p addr hk s,
  inlock WaitLock p s -> (np + n = length (procs s))%nat ->
  (forall j y, (np <= j)%nat -> procs s !! j = Some y -> ~ zombie_child p y) ->
  wscan n np (Some p) addr hk s = Ret (None, hk || has_child p (drop np (procs s))) s.
Proof.
  induction n as [|n IH]; intros np p addr hk s Hin Hlen Hnone.
  - cbn [wait_scan]. rewrite drop_ge by lia. unfold has_child. cbn [existsb].
    rewrite orb_false_r. reflexivity.
  - destruct (lookup_lt_is_Some_2 (procs s) np) as [y Hy]; [lia|].
    rewrite (wait_scan_skip n np p addr hk s y Hin Hy) by (eapply Hnone; [|exact Hy]; lia).
    rewrite IH; [| exact Hin | lia | intros j y' Hj; apply Hnone; lia].
    rewrite (drop_S _ _ _ Hy). unfold has_child. cbn [existsb].
    rewrite orb_assoc. reflexivity.
Qed.

Lemma wait_scan_here n np p addr hk s z me :
  inlock WaitLock p s -> procs s !! np = Some z -> zombie_child p z ->
  procs s !! p = Some me ->
  wscan (S n) np (Some p) addr hk s = reap p np z me addr s.
Proof.
  intros Hin Hz [Hpar Hst] Hme. cbn [wait_scan].
  assert (Hcrit := inlock_critical _ _ _ Hin).
  assert (Hfree : ProcLock np ∉ held s) by (eapply inlock_free; [exact Hin|discriminate]).
  assert (Hp := Hin). destruct Hp as (Hc & Hp & Hh & Hn & Hs).
  erewrite bind_eq by (apply getp_ok; exact Hz). cbn [bindr].
  rewrite bool_decide_eq_true_2 by exact Hpar.
  erewrite bind_eq by (apply acquire_ok, Hfree). cbn [bindr].
  erewrite bind_eq by (apply getp_ok; exact Hz). cbn [bindr].
  rewrite bool_decide_eq_true_2 by exact Hst.
  assert (Hrel : forall (f : @kstate umem -> @kstate umem) (v : Z),
    held (f (lock (ProcLock np) s)) = held (lock (ProcLock np) s) ->
    kcpu (f (lock (ProcLock np) s)) = kcpu (lock (ProcLock np) s) ->
    procs (f (lock (ProcLock np) s)) = procs (f s) ->
    nextpid (f (lock (ProcLock np) s)) = nextpid (f s) ->
    kpipe (f (lock (ProcLock np) s)) = kpipe (f s) ->
    mem (f (lock (ProcLock np) s)) = mem (f s) ->
    trace (f (lock (ProcLock np) s)) = trace (f s) ->
    held (f s) = held s -> kcpu (f s) = kcpu s ->
    bind (release (ProcLock np)) (fun _ => bind (release WaitLock)
       (fun _ => ret (Some v, true))) (f (lock (ProcLock np) s))
    = Ret (Some v, true) (unlock WaitLock (f s))).
  { intros f v H1 H2 H3 H4 H5 H6 H7 H8 H9.
    erewrite bind_eq.
    2:{ apply release_ok; [rewrite H1; left | rewrite H2; reflexivity | rewrite H2; ksimpl; lia]. }
    cbn [bindr]. rewrite unlock_mid by assumption.
    erewrite bind_eq.
    2:{ apply release_ok; [rewrite H8, Hh; left | rewrite H9; exact Hs | rewrite H9; lia]. }
    reflexivity. }
  unfold reap.
  destruct (bool_decide (addr ≠ 0)).
  - unfold bind at 1. unfold bind at 1, deref, ret at 1. cbn [bindr].
    erewrite bind_eq by (apply getp_ok; exact Hme). cbn [bindr].
    unfold bind at 1, do_copyout. cbn [bindr]. ksimpl. unfold ret at 1. cbn [bindr]. cbn zeta.
    set (r := copyout (mem s) (pagetable me) addr (int_bytes (xstate z))).
    destruct (r.1); cbn [negb].
    + erewrite bind_eq.
      2:{ apply freeproc_ok with (pr := z). exact Hz. }
      cbn [bindr].
      apply (Hrel (fun t => reaped np z r.2 t)); reflexivity.
    + apply (Hrel (fun t => set_mem r.2 t)); reflexivity.
  - unfold bind at 1, ret at 1. cbn [bindr].
    erewrite bind_eq.
    2:{ apply freeproc_ok with (pr := z). exact Hz. }
    cbn [bindr].
    apply (Hrel (fun t => reaped np z (mem s) t)); try reflexivity.
Qed.

Lemma wait_scan_zombie n : forall np p addr hk s k z me,
  inlock WaitLock p s -> (np + n = length (procs s))%nat ->
  (np <= k)%nat -> procs s !! k = Some z -> zombie_child p z ->
  (forall j y, (np <= j < k)%nat -> procs s !! j = Some y -> ~ zombie_child p y) ->
  procs s !! p = Some me ->
  wscan n np (Some p) addr hk s = reap p k z me addr s.
Proof.
  induction n as [|n IH]; intros np p addr hk s k z me Hin Hlen Hk Hz Hzc Hbefore Hme.
  - pose proof (lookup_lt_Some _ _ _ Hz). lia.
  - destruct (decide (np = k)) as [->|Hne].
    + eapply wait_scan_here; eassumption.
    + destruct (lookup_lt_is_Some_2 (procs s) np) as [y Hy]; [lia|].
      rewrite (wait_scan_skip n np p addr hk s y Hin Hy) by (eapply Hbefore; [|exact Hy]; lia).
      eapply IH; try eassumption; [lia | lia |].
      intros j y' Hj. apply Hbefore. lia.
Qed.

Lemma has_child_killed_eval {B} s p me (hk : bool) (k : bool -> @M umem B) :
  procs s !! p = Some me ->
  bind (if negb hk then ret true
        else bind (deref (Some p)) (fun p0 => bind (getp p0)
               (fun q0 => ret (negb (killed q0 =? 0))))) k s
  = k (negb hk || negb (killed me =? 0)) s.
Proof.
  intros Hq. destruct hk; cbn [negb]; [|reflexivity].
  unfold bind, deref, ret, getp. cbn [bindr]. rewrite Hq. reflexivity.
Qed.

(** One pass of the loop of [wait], from a head where [p] holds the wait
    lock. *)
Lemma wait_body_run p addr h ws me :
  inlock WaitLock p h -> Forall (dispatched p) ws -> procs h !! p = Some me ->
  runk (wait_body copyout TRAMPOLINE TRAPFRAME (Some p) addr tt h) ws =
  match list_find (zombie_child p) (procs h) with
  | Some (k, z) =>
      if bool_decide (addr ≠ 0) then
        let r := copyout (mem h) (pagetable me) addr (int_bytes (xstate z)) in
        if r.1 then (Done (Return (pid z)) (unlock WaitLock (reaped k z r.2 h)), ws)
        else (Done (Return (-1)) (unlock WaitLock (set_mem r.2 h)), ws)
      else (Done (Return (pid z)) (unlock WaitLock (reaped k z (mem h) h)), ws)
  | None =>
      if negb (has_child p (procs h)) || pkilled p h
      then (Done (Return (-1)) (unlock WaitLock h), ws)
      else
        match ws with
        | [] => (Blocked (sleeping p (ProcChan p) h), [])
        | w :: ws' => (Done (Continue tt) (woken p WaitLock (intena (kcpu h)) w), ws')
        end
  end.
Proof.
  intros Hin Hws Hme. unfold wait_body.
  unfold bind at 1, NPROC at 1, gets at 1. cbn [bindr]. unfold bind at 1.
  destruct (list_find (zombie_child p) (procs h)) as [[k z]|] eqn:Hfind.
  - apply list_find_Some in Hfind as (Hz & Hzc & Hbefore).
    assert (Hscan := wait_scan_zombie (length (procs h)) 0%nat p addr false h k z me
              Hin eq_refl ltac:(lia) Hz Hzc
              ltac:(intros j y Hj Hy; eapply Hbefore; [exact Hy|lia]) Hme).
    rewrite Hscan. unfold reap.
    destruct (bool_decide (addr ≠ 0)).
    + cbn zeta.
      destruct (copyout (mem h) (pagetable me) addr (int_bytes (xstate z))).1;
        reflexivity.
    + reflexivity.
  - apply list_find_None in Hfind.
    assert (Hscan := wait_scan_none (length (procs h)) 0%nat p addr false h
              Hin eq_refl
              ltac:(intros j y _ Hy; eapply (proj1 (Forall_lookup _ _) Hfind); exact Hy)).
    rewrite Hscan. cbn [bindr orb]. rewrite drop_0.
    rewrite (has_child_killed_eval h p me _ _ Hme).
    rewrite (pkilled_slot p h me Hme).
    destruct (negb (has_child p (procs h)) || negb (killed me =? 0)); cbn beta iota.
    + erewrite bind_eq by (eapply inlock_release, Hin). reflexivity.
    + unfold bind at 1, deref, ret at 1. cbn [bindr].
      erewrite bind_eq by (eapply inlock_sleep; [exact Hin | discriminate]).
      cbn [bindr runk].
      destruct ws as [|w ws']; [reflexivity|].
      rewrite runk_bindr.
      rewrite sleep_resume_ok; [reflexivity | | discriminate].
      eapply Forall_inv, Hws.
Qed.

(** The loop of [wait] from a head, with fuel for every sleep. *)
Lemma wait_loop_run p addr fuel : forall ws h,
  inlock WaitLock p h -> Forall (dispatched p) ws -> (length ws < fuel)%nat ->
  run (bind (loop fuel (wait_body copyout TRAMPOLINE TRAPFRAME (Some p) addr) tt)
            (fun r => match r with inr v => ret v | inl _ => fun _ => Diverge end) h) ws
  = wait_outcome p addr ws h.
Proof.
  induction fuel as [|fuel IH]; intros ws h Hin Hws Hfuel; [lia|].
  assert (Hp := Hin). destruct Hp as (_ & Hp & _).
  destruct (lookup_lt_is_Some_2 _ _ Hp) as [me Hme].
  assert (Hrun := wait_body_run p addr h ws me Hin Hws Hme).
  unfold run. rewrite runk_bind.
  destruct ws as [|w ws']; cbn [wait_outcome]; rewrite Hme;
    destruct (list_find (zombie_child p) (procs h)) as [[k z]|].
  1,3: destruct (bool_decide (addr ≠ 0));
       [ cbn zeta in Hrun |- *;
         destruct (copyout (mem h) (pagetable me) addr (int_bytes (xstate z))).1
       | ];
       erewrite loop_return by exact Hrun; reflexivity.
  - destruct (negb (has_child p (procs h)) || pkilled p h).
    + erewrite loop_return by exact Hrun. reflexivity.
    + erewrite loop_blocked by exact Hrun. reflexivity.
  - destruct (negb (has_child p (procs h)) || pkilled p h).
    + erewrite loop_return by exact Hrun. reflexivity.
    + erewrite loop_step by exact Hrun. rewrite <- runk_bind.
      apply Forall_cons in Hws as [Hw Hws].
      apply IH; [apply dispatched_woken, Hw | exact Hws | cbn [length] in Hfuel; lia].
Qed.

(** Whenever the loop of [wait] returns, the wait lock has been released. *)
Lemma wait_outcome_held p addr : forall ws h,
  inlock WaitLock p h -> Forall (dispatched p) ws ->
  match wait_outcome p addr ws h with
  | Done _ sf => held sf = []
  | Blocked _ => True
  | _ => False
  end.
Proof.
  assert (Hheld : forall t : @kstate umem,
            held t = [WaitLock] -> held (unlock WaitLock t) = []).
  { intros t Ht. unfold unlock. ksimpl. rewrite Ht.
    rewrite filter_cons_False by (intros H; apply H; reflexivity). reflexivity. }
  induction ws as [|w ws IH]; intros h Hin Hws;
    assert (Hp := Hin); destruct Hp as (_ & Hp & Hh & _);
    destruct (lookup_lt_is_Some_2 _ _ Hp) as [me Hme];
    cbn [wait_outcome]; rewrite Hme;
    destruct (list_find (zombie_child p) (procs h)) as [[k z]|].
  1,3: destruct (bool_decide (addr ≠ 0));
       [ cbn zeta;
         destruct (copyout (mem h) (pagetable me) addr (int_bytes (xstate z))).1
       | ]; apply Hheld; exact Hh.
  - destruct (negb (has_child p (procs h)) || pkilled p h); [|exact I].
    apply Hheld; exact Hh.
  - destruct (negb (has_child p (procs h)) || pkilled p h).
    + apply Hheld; exact Hh.
    + apply Forall_cons in Hws as [Hw Hws].
      apply IH; [apply dispatched_woken, Hw | exact Hws].
Qed.

(** C5 (as amended). [wait(addr)] called by process [p] that holds no
    lock, dispatched again after its successive sleeps in the states
    [ws], with fuel for every sleep, comes to [wait_outcome].  At each
    scan of the table, the one at entry and the one after each wake-up, a
    ZOMBIE child (the first in table order) is reaped: its xstate is
    copied to [addr] unless [addr] is 0, its slot is freed and its pid
    returned, whether or not the caller is killed, or -1 is returned when
    the copy fails.  When the scan finds no ZOMBIE child, [wait] returns
    -1 if the caller has no child or is killed, and otherwise sleeps on
    its own slot until it is dispatched again.  It never panics, and
    whenever it returns no lock is held. *)
Theorem wait_result p fuel addr s ws :
  entry p s -> Forall (dispatched p) ws -> (length ws < fuel)%nat ->
  run (wait copyout TRAMPOLINE TRAPFRAME fuel addr s) ws
    = wait_outcome p addr ws (enter WaitLock s) /\
  match run (wait copyout TRAMPOLINE TRAPFRAME fuel addr s) ws with
  | Done _ sf => held sf = []
  | Blocked _ => True
  | _ => False
  end.
Proof.
  intros He Hws Hfuel.
  assert (Hin : inlock WaitLock p (enter WaitLock s)) by apply enter_inlock, He.
  assert (Hrun : run (wait copyout TRAMPOLINE TRAPFRAME fuel addr s) ws
                 = wait_outcome p addr ws (enter WaitLock s)).
  { unfold wait.
    rewrite (enter_run WaitLock p s
      (fun pr => bind (loop fuel (wait_body copyout TRAMPOLINE TRAPFRAME pr addr) tt)
         (fun r => match r with inr v => ret v | inl _ => fun _ => Diverge end)) He).
    apply wait_loop_run; assumption. }
  split; [exact Hrun|]. rewrite Hrun. apply wait_outcome_held; assumption.
Qed.

Lemma wrap_int_small x : - 2 ^ 31 <= x < 2 ^ 31 -> wrap_int x = x.
Proof.
  intros H. unfold wrap_int. change (2 ^ 31) with 2147483648 in H |- *.
  change (2 ^ 32) with 4294967296. clear_unused.
  Z.to_euclidean_division_equations. lia.
Qed.

Lemma allocpids_run k : forall s,
  PidLock ∉ held s -> 0 <= noff (kcpu s) ->
  - 2 ^ 31 <= nextpid s < 2 ^ 31 -> nextpid s + Z.of_nat k <= 2 ^ 31 ->
  exists s',
    allocpids k s = Ret ((fun j => nextpid s + Z.of_nat j) <$> seq 0 k) s' /\
    nextpid s' = wrap_int (nextpid s + Z.of_nat k) /\
    procs s' = procs s /\ held s' = held s.
Proof.
  induction k as [|k IH]; intros s Hh Hn Hlo Hhi.
  - exists s. split; [reflexivity|]. split; [|split; reflexivity].
    rewrite wrap_int_small by lia. lia.
  - cbn [allocpids]. erewrite bind_eq by (apply allocpid_ok; assumption). cbn [bindr].
    set (s1 := set_kcpu _ _).
    assert (Hlist : (fun j => nextpid s + Z.of_nat j) <$> seq 0 (S k)
                    = nextpid s :: ((fun j => nextpid s + 1 + Z.of_nat j) <$> seq 0 k)).
    { cbn [seq fmap list_fmap]. rewrite Z.add_0_r. f_equal.
      rewrite <- seq_shift, <- list_fmap_compose. apply list_fmap_ext.
      intros _ j _. cbn. lia. }
    rewrite Hlist.
    destruct k as [|k].
    + exists s1. split; [reflexivity|]. split; [|split; reflexivity]. reflexivity.
    + assert (Hw : nextpid s1 = nextpid s + 1).
      { unfold s1. ksimpl. apply wrap_int_small. lia. }
      destruct (IH s1) as (s' & Hrun & Hnp & Hps & Hhs).
      { exact Hh. }
      { unfold s1. ksimpl. rewrite norm_cpu_noff. exact Hn. }
      { rewrite Hw. lia. }
      { rewrite Hw. lia. }
      exists s'. erewrite bind_eq by exact Hrun. cbn [bindr]. unfold ret.
      rewrite Hw in Hnp.
      split; [|split; [|split; assumption]].
      * rewrite Hw. reflexivity.
      * rewrite Hnp. f_equal. lia.
Qed.

Lemma seq_pids_sorted a k i :
  StronglySorted Z.lt ((fun j => a + Z.of_nat j) <$> seq i k).
Proof.
  revert i. induction k as [|k IH]; intros i; cbn [seq fmap list_fmap].
  - constructor.
  - constructor; [apply IH|].
    apply Forall_fmap, Forall_forall. intros j Hj%elem_of_seq. cbn. lia.
Qed.

(** C9 (as amended). A run of [k] calls of [allocpid] that starts with
    the counter at [nextpid] and does not take the 32-bit counter past
    its largest value (nextpid + k <= 2^31) returns nextpid, nextpid + 1,
    ..., nextpid + k - 1: each call returns the current value of the
    counter and increments it, the pids are strictly increasing and no
    two are the same. *)
Theorem allocpid_increasing k s :
  PidLock ∉ held s -> 0 <= noff (kcpu s) ->
  - 2 ^ 31 <= nextpid s < 2 ^ 31 -> nextpid s + Z.of_nat k <= 2 ^ 31 ->
  exists pids s',
    allocpids k s = Ret pids s' /\
    pids = (fun j => nextpid s + Z.of_nat j) <$> seq 0 k /\
    StronglySorted Z.lt pids /\ NoDup pids /\
    nextpid s' = wrap_int (nextpid s + Z.of_nat k).
Proof.
  intros Hh Hn Hlo Hhi.
  destruct (allocpids_run k s Hh Hn Hlo Hhi) as (s' & Hrun & Hnp & _).
  eexists _, s'. split; [exact Hrun|]. split; [reflexivity|].
  split; [apply seq_pids_sorted|]. split; [|exact Hnp].
  apply NoDup_fmap_2; [|apply NoDup_seq].
  intros i j Hij. lia.
Qed.

(** C6. [kill(pid)] called with no slot lock held returns 0 if some slot
    holds that pid and -1 otherwise.  In the first slot that holds it,
    [killed] becomes 1 and [state] changes only from SLEEPING to RUNNABLE;
    the other fields of that slot, every other slot and the rest of the
    kernel state stay as they were. *)
Theorem kill_result pid0 s :
  0 <= noff (kcpu s) -> (forall j, ProcLock j ∉ held s) ->
  exists v s',
    kill pid0 s = Ret v s' /\ frame s s' /\
    match list_find (fun q => pid q = pid0) (procs s) with
    | Some (k, pr) =>
        v = 0 /\
        procs s' =
          <[k := mkProc (if bool_decide (state pr = SLEEPING) then RUNNABLE else state pr)
                        (chan pr) 1 (xstate pr) (pid pr) (parent pr) (kstack pr)
                        (sz pr) (pagetable pr) (trapframe pr) (context pr)
                        (ofile pr) (cwd pr) (name pr)]> (procs s)
    | None => v = -1 /\ procs s' = procs s
    end.
Proof.
  intros Hn Hh. unfold kill, NPROC. unfold bind, gets. cbn [bindr].
  destruct (kill_scan_ok (length (procs s)) 0 pid0 s Hn Hh eq_refl)
    as (v & s' & Hrun & Hfr & Hres).
  exists v, s'. split; [exact Hrun|]. split; [exact Hfr|].
  destruct Hres as [(k & pr & _ & Hl & Hpid & Hbefore & -> & Hps)|(-> & Hnone & Hps)].
  - assert (Hfind : list_find (fun q => pid q = pid0) (procs s) = Some (k, pr)).
    { apply list_find_Some. split; [exact Hl|]. split; [exact Hpid|].
      intros j y Hy Hj. eapply Hbefore; [|exact Hy]. lia. }
    rewrite Hfind. split; [reflexivity|]. rewrite Hps. f_equal.
    unfold kill_slot. destruct (bool_decide (state pr = SLEEPING)); reflexivity.
  - assert (Hfind : list_find (fun q => pid q = pid0) (procs s) = None).
    { apply list_find_None, Forall_lookup. intros j y Hy. eapply Hnone; [|exact Hy]. lia. }
    rewrite Hfind. split; [reflexivity|exact Hps].
Qed.

(** C8. [freeproc] on slot [p]: the trapframe page is given back to the
    allocator if there is one; the user page table, if there is one, is
    unmapped from the trampoline and the trapframe and freed together with
    the user memory up to [sz]; then [trapframe], [pagetable], [sz],
    [pid], [parent], [chan], [killed] and [xstate] are zero, the name is
    the empty string (its first byte is 0) and the state is UNUSED.  The
    other fields of the slot and the other slots are unchanged. *)
Theorem freeproc_frees p pr s :
  procs s !! p = Some pr ->
  exists s',
    freeproc TRAMPOLINE TRAPFRAME p s = Ret tt s' /\
    trace s' = trace s ++
      (if bool_decide (trapframe pr ≠ 0) then [EvKfree (trapframe pr)] else []) ++
      (if bool_decide (pagetable pr ≠ 0)
       then [EvUvmunmap (pagetable pr) TRAMPOLINE 1 0;
             EvUvmunmap (pagetable pr) TRAPFRAME 1 0;
             EvUvmfree (pagetable pr) (sz pr)]
       else []) /\
    procs s' =
      <[p := mkProc UNUSED NoChan 0 0 0 None (kstack pr) 0 0 0 (context pr)
                    (ofile pr) (cwd pr) (<[0%nat := 0]> (name pr))]> (procs s) /\
    kcpu s' = kcpu s /\ held s' = held s /\ nextpid s' = nextpid s /\
    kpipe s' = kpipe s /\ mem s' = mem s.
Proof.
  intros Hp. eexists. split; [apply freeproc_ok, Hp|].
  repeat split.
Qed.

Lemma disciplined_push (c : cpu) : disciplined (push_cpu c).
Proof. intros _. reflexivity. Qed.

Lemma disciplined_pop (c : cpu) :
  0 < noff c -> disciplined c -> disciplined (pop_cpu c).
Proof.
  intros Hn Hd Hpos. unfold pop_cpu in Hpos |- *. cbn [noff sie] in Hpos |- *.
  destruct (Z.eqb_spec (noff c - 1) 0) as [E|_]; [lia|]. cbn [andb].
  apply Hd, Hn.
Qed.

(** C7. [sched] called by process [p] in a state that respects the
    interrupt discipline of the locks panics exactly when one of its four
    preconditions is violated: the caller does not hold its slot lock, the
    nesting count is not 1, the state is RUNNING, or interrupts are
    enabled; when all four hold it does not panic.  (Under the discipline,
    enabled interrupts mean a nesting count of 0, and it is the check of
    the count that fires: see [sched_not_interruptible].) *)
Theorem sched_panics_iff_precondition_violated s p pr :
  0 <= noff (kcpu s) -> cproc (kcpu s) = Some p -> procs s !! p = Some pr ->
  disciplined (kcpu s) ->
  (exists msg s', sched s = Panic msg s') <->
  (ProcLock p ∉ held s \/ noff (kcpu s) <> 1 \/ state pr = RUNNING \/
   sie (kcpu s) = true).
Proof.
  intros Hn Hc Hp Hd. rewrite (sched_panics_iff s p pr Hn Hc Hp). split.
  - intros [H|[H|H]]; auto.
  - intros [H|[H|[H|H]]]; auto.
    right. left. intros H1. rewrite Hd in H by lia. discriminate H.
Qed.

(** C1 (the code at the failing input). [sleep(chan, lk)] with [lk] the
    caller's own slot lock never blocks on [chan]: if the caller holds the
    lock, [acquire] finds it held and panics; if not, the acquire and the
    release leave it free and [sched] panics because the caller does not
    hold its slot lock. *)
Theorem sleep_own_lock_panics s p pr ch :
  0 <= noff (kcpu s) -> cproc (kcpu s) = Some p -> procs s !! p = Some pr ->
  exists s',
    sleep ch (ProcLock p) s =
    Panic (if bool_decide (ProcLock p ∈ held s) then "acquire" else "sched p->lock") s'.
Proof. apply sleep_own_lock. Qed.

(** *** wakeup, sleep, sched and yield on their own *)

(** X1. [wakeup(chan)] called inside a critical section with no slot lock
    held but possibly the caller's own: every slot other than the
    caller's that is SLEEPING on [chan] becomes RUNNABLE; the caller's
    slot, the slots in other states or on other channels, and the rest
    of the kernel state stay as they are. *)
Theorem wakeup_wakes_sleepers ch s :
  critical s ->
  (forall j, Some j ≠ cproc (kcpu s) -> ProcLock j ∉ held s) ->
  exists s',
    wakeup ch s = Ret tt s' /\
    length (procs s') = length (procs s) /\
    (forall j pr, procs s !! j = Some pr ->
       procs s' !! j =
       Some (if bool_decide (Some j ≠ cproc (kcpu s)) &&
                bool_decide (state pr = SLEEPING) && bool_decide (chan pr = ch)
             then set_state RUNNABLE pr else pr)) /\
    kcpu s' = kcpu s /\ held s' = held s /\ nextpid s' = nextpid s /\
    kpipe s' = kpipe s /\ mem s' = mem s /\ trace s' = trace s.
Proof.
  intros Hc Hh. exists (woke ch s). split; [apply wakeup_ok; assumption|].
  unfold woke. ksimpl. split; [apply wake_length|].
  split; [|repeat split].
  intros j pr Hj. rewrite wake_lookup, Hj. reflexivity.
Qed.

(** X2. [sleep(chan, lk)] called by process [p] that holds [lk], a lock other
    than its own slot lock, and nothing else: it leaves the CPU with the
    slot SLEEPING on [chan], [lk] released and the slot lock held; when
    the scheduler dispatches [p] again, [sleep] returns with [chan]
    cleared, the slot lock released, [lk] held again and the saved
    interrupt state of the caller restored. *)
Theorem sleep_releases_then_blocks s p pr ch lk :
  cproc (kcpu s) = Some p -> procs s !! p = Some pr ->
  held s = [lk] -> lk <> ProcLock p ->
  noff (kcpu s) = 1 -> sie (kcpu s) = false ->
  exists s1 k,
    sleep ch lk s = Swtch s1 k /\
    procs s1 = <[p := set_state SLEEPING (set_chan ch pr)]> (procs s) /\
    held s1 = [ProcLock p] /\ kcpu s1 = kcpu s /\
    forall w q, dispatched p w -> procs w !! p = Some q ->
      exists w',
        k w = Ret tt w' /\
        procs w' = <[p := set_chan NoChan q]> (procs w) /\
        held w' = [lk] /\
        kcpu w' = mkCpu (Some p) 1 (intena (kcpu s)) false /\
        nextpid w' = nextpid w /\ kpipe w' = kpipe w /\ mem w' = mem w /\
        trace w' = trace w.
Proof.
  intros Hc Hp Hh Hne Hn Hs.
  exists (sleeping p ch s), (sleep_resume p lk (intena (kcpu s))).
  split; [eapply sleep_switch; eassumption|].
  unfold sleeping, set_slot. rewrite Hp. ksimpl.
  split; [reflexivity|]. split; [reflexivity|]. split; [reflexivity|].
  intros w q Hw Hq. exists (woken p lk (intena (kcpu s)) w).
  split; [apply sleep_resume_ok; assumption|].
  destruct Hw as (Hcw & _). unfold woken, set_slot. rewrite Hq, Hcw. ksimpl.
  repeat split.
Qed.

(** X3. [sched] called by process [p]: the checks are made in the order of
    the source, so that it panics with "sched p->lock" when the slot lock
    is not held, else with "sched locks" when the nesting is not one, else
    with "sched running" when the state is RUNNING; in every other case
    it switches, leaving the process table and the locks as they are, and
    when the process is resumed it returns with [intena] of the CPU set
    back to the value it had at the call. *)
Theorem sched_outcome s p pr :
  0 <= noff (kcpu s) -> cproc (kcpu s) = Some p -> procs s !! p = Some pr ->
  (ProcLock p ∉ held s -> exists s', sched s = Panic "sched p->lock" s') /\
  (ProcLock p ∈ held s -> noff (kcpu s) <> 1 ->
   exists s', sched s = Panic "sched locks" s') /\
  (ProcLock p ∈ held s -> noff (kcpu s) = 1 -> state pr = RUNNING ->
   exists s', sched s = Panic "sched running" s') /\
  (ProcLock p ∈ held s -> noff (kcpu s) = 1 -> state pr <> RUNNING ->
   exists s1 k,
     sched s = Swtch s1 k /\
     procs s1 = procs s /\ held s1 = held s /\ sie (kcpu s1) = false /\
     forall w,
       k w = Ret tt (set_kcpu (mkCpu (cproc (kcpu w)) (noff (kcpu w))
                                     (intena (kcpu s)) (sie (kcpu w))) w)).
Proof.
  intros Hn Hc Hp. rewrite (sched_unfold s p pr Hn Hc Hp). cbn zeta.
  split_and!.
  - intros Hh. rewrite bool_decide_eq_false_2 by exact Hh. cbn [negb]. eauto.
  - intros Hh Hne. rewrite bool_decide_eq_true_2 by exact Hh. cbn [negb].
    destruct (Z.eqb_spec (noff (kcpu s)) 1); [contradiction|]. cbn [negb]. eauto.
  - intros Hh H1 Hr. rewrite bool_decide_eq_true_2 by exact Hh. cbn [negb].
    rewrite H1. cbn [Z.eqb Pos.eqb negb].
    rewrite bool_decide_eq_true_2 by exact Hr. eauto.
  - intros Hh H1 Hr. rewrite bool_decide_eq_true_2 by exact Hh. cbn [negb].
    rewrite H1. cbn [Z.eqb Pos.eqb negb].
    rewrite bool_decide_eq_false_2 by exact Hr.
    eexists _, _. split; [reflexivity|]. ksimpl.
    split; [reflexivity|]. split; [reflexivity|].
    split.
    + unfold norm_cpu. ksimpl. rewrite H1. cbn. destruct (intena (kcpu s)); reflexivity.
    + intros w. unfold set_intena, modify. do 2 f_equal.
      unfold norm_cpu. ksimpl. rewrite H1. reflexivity.
Qed.

(** X4. [yield] called by a process [p] that holds no lock: it leaves the CPU
    with its slot RUNNABLE and its slot lock held; dispatched again, it
    returns with no lock held and interrupts as they were at the call. *)
Theorem yield_gives_up_cpu s p pr :
  entry p s -> procs s !! p = Some pr ->
  exists s1 k,
    yield s = Swtch s1 k /\
    procs s1 = <[p := set_state RUNNABLE pr]> (procs s) /\
    held s1 = [ProcLock p] /\ noff (kcpu s1) = 1 /\ sie (kcpu s1) = false /\
    forall w, dispatched p w ->
      exists w',
        k w = Ret tt w' /\ procs w' = procs w /\ held w' = [] /\
        noff (kcpu w') = 0 /\ sie (kcpu w') = sie (kcpu s) /\
        cproc (kcpu w') = Some p.
Proof.
  intros (Hc & Hlt & Hh & Hn) Hp. unfold yield.
  erewrite bind_eq by (apply myproc_ok; lia). cbn [bindr].
  rewrite Hc. unfold bind at 1, deref, ret at 1. cbn [bindr].
  erewrite bind_eq.
  2:{ apply acquire_ok. ksimpl. rewrite Hh. apply not_elem_of_nil. }
  cbn [bindr].
  erewrite bind_eq by (apply setp_ok with (pr := pr); exact Hp). cbn [bindr].
  set (s2 := set_procs _ _).
  assert (Hh2 : held s2 = [ProcLock p]) by (unfold s2; ksimpl; rewrite Hh; reflexivity).
  assert (Hn2 : noff (kcpu s2) = 1).
  { unfold s2, norm_cpu. ksimpl. rewrite Hn. reflexivity. }
  assert (Hs2 : sie (kcpu s2) = false) by reflexivity.
  erewrite bind_eq.
  2:{ eapply sched_unfold with (p := p).
      - lia.
      - unfold s2. ksimpl. exact Hc.
      - unfold s2. ksimpl. apply list_lookup_insert_eq. eapply lookup_lt_Some, Hp. }
  cbn zeta. rewrite Hh2. rewrite bool_decide_eq_true_2 by left. cbn [negb].
  rewrite Hn2. cbn [Z.eqb Pos.eqb negb state set_state].
  rewrite bool_decide_eq_false_2 by discriminate. cbn [bindr].
  rewrite norm_cpu_critical by (rewrite ?Hn2, ?Hs2; first [lia | reflexivity]).
  eexists _, _. split; [reflexivity|].
  replace (set_kcpu (kcpu s2) s2) with s2 by (destruct s2; reflexivity).
  split; [reflexivity|]. split; [exact Hh2|]. split; [exact Hn2|]. split; [exact Hs2|].
  intros w (Hcw & Hpw & Hhw & Hnw & Hsw).
  unfold set_intena, modify. cbn [bindr].
  erewrite release_ok; ksimpl; [| rewrite Hhw; left | exact Hsw | lia].
  eexists. split; [reflexivity|]. unfold unlock. ksimpl.
  rewrite Hhw, Hnw, Hcw.
  rewrite filter_cons_False by (intros H; apply H; reflexivity).
  split; [reflexivity|]. split; [reflexivity|]. split; [reflexivity|].
  split; [|reflexivity].
  unfold s2, norm_cpu. ksimpl. rewrite Hn, Hsw. cbn.
  destruct (sie (kcpu s)); reflexivity.
Qed.

(** *** scheduler *)

Lemma scheduler_visit_skip i pr s :
  held s = [] -> noff (kcpu s) = 0 -> procs s !! i = Some pr -> ~ runnable pr ->
  scheduler_visit i s = Ret tt (set_kcpu (norm_cpu (kcpu s)) s).
Proof.
  intros Hh Hn Hp Hr. unfold scheduler_visit.
  assert (Hf : ProcLock i ∉ held s) by (rewrite Hh; apply not_elem_of_nil).
  erewrite bind_eq by (apply acquire_ok; exact Hf). cbn [bindr].
  erewrite bind_eq by (apply getp_ok; ksimpl; exact Hp). cbn [bindr].
  rewrite bool_decide_eq_false_2 by exact Hr.
  unfold bind at 1, ret at 1. cbn [bindr].
  rewrite release_ok; ksimpl; [| left | reflexivity | lia].
  rewrite unlock_lock_gen by exact Hf. reflexivity.
Qed.

Lemma scheduler_visit_run i pr s :
  held s = [] -> noff (kcpu s) = 0 -> procs s !! i = Some pr -> runnable pr ->
  exists kont,
    scheduler_visit i s = Swtch (dispatch i pr s) kont /\
    forall w, kont w = bind (set_cproc None) (fun _ => release (ProcLock i)) w.
Proof.
  intros Hh Hn Hp Hr. unfold scheduler_visit.
  assert (Hf : ProcLock i ∉ held s) by (rewrite Hh; apply not_elem_of_nil).
  erewrite bind_eq by (apply acquire_ok; exact Hf). cbn [bindr].
  erewrite bind_eq by (apply getp_ok; ksimpl; exact Hp). cbn [bindr].
  rewrite bool_decide_eq_true_2 by exact Hr.
  unfold bind at 1.
  erewrite bind_eq by (apply setp_ok with (pr := pr); ksimpl; exact Hp).
  cbn [bindr]. unfold bind at 1, set_cproc at 1, modify at 1. cbn [bindr].
  unfold bind at 1, swtch. cbn [bindr].
  eexists. split.
  - f_equal. unfold dispatch. apply kstate_eq; ksimpl; try reflexivity.
    + rewrite Hn. reflexivity.
    + rewrite Hh. reflexivity.
  - intros w. reflexivity.
Qed.

Lemma norm_cpu_idle (c : cpu) :
  noff c = 0 -> norm_cpu c = mkCpu (cproc c) 0 (sie c) (sie c).
Proof.
  destruct c as [p n ie si]. cbn [noff cproc sie]. intros ->.
  destruct si; reflexivity.
Qed.

Lemma dispatch_norm k pr s :
  noff (kcpu s) = 0 -> dispatch k pr (set_kcpu (norm_cpu (kcpu s)) s) = dispatch k pr s.
Proof. intros Hn. unfold dispatch. ksimpl. rewrite norm_cpu_idle by exact Hn. reflexivity. Qed.

Lemma scheduler_scan_run n : forall i s,
  held s = [] -> noff (kcpu s) = 0 -> (i + n = length (procs s))%nat ->
  match list_find runnable (drop i (procs s)) with
  | Some (j, pr) =>
      exists kont,
        scheduler_scan n i s = Swtch (dispatch (i + j) pr s) kont /\
        forall w, kont w = scheduler_rest (n - S j) (i + j) w
  | None =>
      scheduler_scan n i s =
      Ret tt (match n with O => s | S _ => set_kcpu (norm_cpu (kcpu s)) s end)
  end.
Proof.
  induction n as [|n IH]; intros i s Hh Hn Hlen.
  - rewrite drop_ge by lia. reflexivity.
  - destruct (lookup_lt_is_Some_2 (procs s) i ltac:(lia)) as [pr Hp].
    rewrite (drop_S _ _ _ Hp). cbn [list_find].
    destruct (decide (runnable pr)) as [Hr|Hr].
    + destruct (scheduler_visit_run i pr s Hh Hn Hp Hr) as (kont & Hv & Hk).
      cbn [scheduler_scan]. erewrite bind_eq by exact Hv. cbn [bindr].
      rewrite Nat.add_0_r. eexists. split; [reflexivity|].
      intros w. cbn beta. rewrite Hk. unfold scheduler_rest.
      replace (S n - 1)%nat with n by lia. reflexivity.
    + cbn [scheduler_scan].
      erewrite bind_eq by (eapply scheduler_visit_skip; eassumption). cbn [bindr].
      set (s1 := set_kcpu _ s).
      assert (Hn1 : noff (kcpu s1) = 0).
      { unfold s1. ksimpl. rewrite norm_cpu_noff. exact Hn. }
      specialize (IH (S i) s1 Hh Hn1 ltac:(unfold s1; ksimpl; lia)).
      change (procs s1) with (procs s) in IH.
      destruct (list_find runnable (drop (S i) (procs s))) as [[j q]|]; cbn [fmap option_fmap option_map prod_map fst snd id].
      * destruct IH as (kont & Hs & Hk). exists kont. split.
        -- rewrite Hs. f_equal. unfold s1. rewrite dispatch_norm by exact Hn.
           f_equal. lia.
        -- intros w. rewrite Hk. f_equal; lia.
      * rewrite IH. f_equal. destruct n; [reflexivity|].
        unfold s1. ksimpl.
        rewrite (norm_cpu_idle (norm_cpu (kcpu s))) by (rewrite norm_cpu_noff; exact Hn).
        rewrite (norm_cpu_idle (kcpu s)) by exact Hn. reflexivity.
Qed.

Lemma dispatch_dispatched k pr s :
  procs s !! k = Some pr -> dispatched k (dispatch k pr s).
Proof.
  intros Hp. unfold dispatched, dispatch. ksimpl. rewrite length_insert.
  split_and!; try reflexivity. eapply lookup_lt_Some, Hp.
Qed.

Lemma list_find_drop_lookup {A} (P : A -> Prop) `{!forall x, Decision (P x)}
    (l : list A) i j x :
  list_find P (drop i l) = Some (j, x) -> l !! (i + j)%nat = Some x /\ P x.
Proof.
  intros Hf%list_find_Some. destruct Hf as (Hl & HP & _).
  rewrite lookup_drop in Hl. auto.
Qed.

(** A pass of the scheduler over a table with no RUNNABLE slot. *)
Lemma scheduler_loop_idle fuel : forall s,
  held s = [] -> noff (kcpu s) = 0 ->
  list_find runnable (procs s) = None ->
  loop fuel (@scheduler_body umem) tt s = Diverge.
Proof.
  induction fuel as [|fuel IH]; intros s Hh Hn Hnone; [reflexivity|].
  cbn [loop]. unfold scheduler_body at 1.
  unfold bind at 1. unfold bind at 1, intr_on at 1, modify at 1. cbn [bindr].
  unfold bind at 1, NPROC at 1, gets at 1. cbn [bindr].
  set (s1 := set_kcpu _ s).
  assert (Hrun := scheduler_scan_run (length (procs s1)) 0 s1 Hh Hn eq_refl).
  rewrite drop_0 in Hrun. change (procs s1) with (procs s) in Hrun.
  rewrite Hnone in Hrun.
  erewrite bind_eq by exact Hrun. cbn [bindr]. unfold ret at 1. cbn [bindr].
  apply IH.
  - destruct (length (procs s)); exact Hh.
  - destruct (length (procs s)); ksimpl; [exact Hn|].
    rewrite norm_cpu_noff. exact Hn.
  - destruct (length (procs s)); exact Hnone.
Qed.

(** A pass of the scheduler over a table with a RUNNABLE slot. *)
Lemma scheduler_loop_run fuel s k pr :
  held s = [] -> noff (kcpu s) = 0 ->
  list_find runnable (procs s) = Some (k, pr) ->
  exists kont,
    bind (loop (S fuel) (@scheduler_body umem) tt)
         (fun r => match r with
                   | inr e => ret e
                   | inl _ => fun _ => Diverge
                   end) s
    = Swtch (dispatch k pr (set_kcpu (mkCpu (cproc (kcpu s)) 0 (intena (kcpu s)) true) s)) kont /\
    forall w, kont w = scheduler_from fuel (length (procs s) - S k) k w.
Proof.
  intros Hh Hn Hfind.
  cbn [loop]. unfold scheduler_body at 1.
  unfold bind at 1. unfold bind at 1. unfold bind at 1, intr_on at 1, modify at 1.
  cbn [bindr]. rewrite Hn.
  unfold bind at 1, NPROC at 1, gets at 1. cbn [bindr].
  set (s1 := set_kcpu _ s).
  assert (Hrun := scheduler_scan_run (length (procs s1)) 0 s1 Hh eq_refl eq_refl).
  rewrite drop_0 in Hrun. change (procs s1) with (procs s) in Hrun.
  rewrite Hfind in Hrun. destruct Hrun as (kont & Hs & Hk).
  erewrite bind_eq by exact Hs. cbn [bindr Nat.add].
  eexists. split; [reflexivity|].
  intros w. cbn beta. rewrite Hk. reflexivity.
Qed.

Lemma scheduler_from_run fuel n k w :
  held w = [ProcLock k] -> noff (kcpu w) = 1 -> sie (kcpu w) = false ->
  (S k + n = length (procs w))%nat ->
  match list_find runnable (drop (S k) (procs w)), list_find runnable (procs w) with
  | Some (j, q), _ =>
      exists s2 kont2,
        scheduler_from (S fuel) n k w = Swtch s2 kont2 /\
        procs s2 = <[(S k + j)%nat := set_state RUNNING q]> (procs w) /\
        dispatched (S k + j) s2
  | None, Some (j, q) =>
      exists s2 kont2,
        scheduler_from (S fuel) n k w = Swtch s2 kont2 /\
        procs s2 = <[j := set_state RUNNING q]> (procs w) /\
        dispatched j s2
  | None, None => scheduler_from (S fuel) n k w = Diverge
  end.
Proof.
  intros Hh Hn Hs Hlen.
  remember (scheduler_from (S fuel) n k w) as X eqn:HX.
  unfold scheduler_from, scheduler_rest in HX.
  unfold bind at 1 in HX. unfold bind at 1 in HX. unfold bind at 1 in HX.
  unfold bind at 1, set_cproc at 1, modify at 1 in HX. cbn [bindr] in HX.
  erewrite bind_eq in HX.
  2:{ apply release_ok; ksimpl; [rewrite Hh; left | exact Hs | lia]. }
  cbn [bindr] in HX. set (w2 := unlock _ _) in HX.
  assert (Hh2 : held w2 = []).
  { unfold w2, unlock. ksimpl. rewrite Hh.
    rewrite filter_cons_False by (intros H; apply H; reflexivity). reflexivity. }
  assert (Hn2 : noff (kcpu w2) = 0) by (unfold w2, unlock; ksimpl; lia).
  assert (Hrun := scheduler_scan_run n (S k) w2 Hh2 Hn2 Hlen).
  change (procs w2) with (procs w) in Hrun.
  destruct (list_find runnable (drop (S k) (procs w))) as [[j q]|] eqn:Hf1.
  - destruct Hrun as (kont & Hsc & _). rewrite Hsc in HX. cbn [bindr] in HX.
    subst X. eexists _, _. split; [reflexivity|]. split; [reflexivity|].
    apply dispatch_dispatched.
    apply list_find_drop_lookup in Hf1 as [Hl _]. exact Hl.
  - rewrite Hrun in HX. cbn [bindr] in HX. unfold ret at 1 in HX. cbn [bindr] in HX.
    set (w3 := match n with O => w2 | S _ => _ end) in HX.
    assert (Hh3 : held w3 = []) by (unfold w3; destruct n; exact Hh2).
    assert (Hn3 : noff (kcpu w3) = 0).
    { unfold w3; destruct n; ksimpl; rewrite ?norm_cpu_noff; exact Hn2. }
    assert (Hp3 : procs w3 = procs w) by (unfold w3; destruct n; reflexivity).
    destruct (list_find runnable (procs w)) as [[j q]|] eqn:Hf2.
    + destruct (scheduler_loop_run fuel w3 j q Hh3 Hn3) as (kont & Hl & _).
      { rewrite Hp3. exact Hf2. }
      unfold bind in Hl. rewrite Hl in HX. subst X.
      eexists _, _. split; [reflexivity|]. unfold dispatch at 1. ksimpl.
      rewrite Hp3. split; [reflexivity|].
      apply dispatch_dispatched. ksimpl. rewrite Hp3.
      apply list_find_Some in Hf2 as (Hl2 & _). exact Hl2.
    + rewrite scheduler_loop_idle in HX; [exact HX | exact Hh3 | exact Hn3 |].
      rewrite Hp3. exact Hf2.
Qed.

(** X5. [scheduler] on a CPU that holds no lock, with a RUNNABLE slot in the
    table: it switches to the first RUNNABLE slot in table order, having
    made it RUNNING and the CPU's current process, with interrupts off
    and that slot's lock as the only lock held, which is the state a
    process finds when it is dispatched. *)
Theorem scheduler_dispatches_first_runnable fuel s k pr :
  held s = [] -> noff (kcpu s) = 0 ->
  list_find (fun q => state q = RUNNABLE) (procs s) = Some (k, pr) ->
  exists s1 kont,
    scheduler (S fuel) s = Swtch s1 kont /\
    procs s1 = <[k := set_state RUNNING pr]> (procs s) /\
    dispatched k s1 /\ intena (kcpu s1) = true /\
    nextpid s1 = nextpid s /\ kpipe s1 = kpipe s /\ mem s1 = mem s /\
    trace s1 = trace s.
Proof.
  intros Hh Hn Hfind. unfold scheduler.
  unfold bind at 1, mycpu at 1, gets at 1. cbn [bindr].
  unfold bind at 1, set_cproc at 1, modify at 1. cbn [bindr].
  set (s0 := set_kcpu _ s).
  destruct (scheduler_loop_run fuel s0 k pr Hh Hn Hfind) as (kont & Hl & _).
  rewrite Hl. eexists _, _. split; [reflexivity|].
  unfold dispatch at 1. ksimpl. split; [reflexivity|].
  split; [|repeat split].
  apply dispatch_dispatched. ksimpl.
  apply list_find_Some in Hfind as (Hl2 & _). exact Hl2.
Qed.

(** X6. [scheduler] with no RUNNABLE slot in the table never switches and
    never panics: it goes on scanning, whatever the number of passes. *)
Theorem scheduler_idle_spins fuel s :
  held s = [] -> noff (kcpu s) = 0 ->
  list_find (fun q => state q = RUNNABLE) (procs s) = None ->
  scheduler fuel s = Diverge.
Proof.
  intros Hh Hn Hfind. unfold scheduler.
  unfold bind at 1, mycpu at 1, gets at 1. cbn [bindr].
  unfold bind at 1, set_cproc at 1, modify at 1. cbn [bindr].
  unfold bind. rewrite scheduler_loop_idle; [reflexivity | exact Hh | exact Hn | exact Hfind].
Qed.

(** X7. Round robin.  When the process in slot [k], to which [scheduler] has
    switched, switches back (holding its slot lock, in a table [w] that
    may have changed), the scheduler releases the lock and goes on with
    the slots after [k]: it switches to the first RUNNABLE slot after
    [k], or, when there is none, to the first RUNNABLE slot of the next
    pass, which starts at slot 0. *)
Theorem scheduler_round_robin fuel s k pr :
  held s = [] -> noff (kcpu s) = 0 ->
  list_find (fun q => state q = RUNNABLE) (procs s) = Some (k, pr) ->
  exists s1 kont,
    scheduler (S (S fuel)) s = Swtch s1 kont /\
    forall w,
      held w = [ProcLock k] -> noff (kcpu w) = 1 -> sie (kcpu w) = false ->
      length (procs w) = length (procs s) ->
      match list_find (fun q => state q = RUNNABLE) (drop (S k) (procs w)),
            list_find (fun q => state q = RUNNABLE) (procs w) with
      | Some (j, q), _ =>
          exists s2 kont2,
            kont w = Swtch s2 kont2 /\
            procs s2 = <[(S k + j)%nat := set_state RUNNING q]> (procs w) /\
            dispatched (S k + j) s2
      | None, Some (j, q) =>
          exists s2 kont2,
            kont w = Swtch s2 kont2 /\
            procs s2 = <[j := set_state RUNNING q]> (procs w) /\
            dispatched j s2
      | None, None => kont w = Diverge
      end.
Proof.
  intros Hh Hn Hfind. unfold scheduler.
  unfold bind at 1, mycpu at 1, gets at 1. cbn [bindr].
  unfold bind at 1, set_cproc at 1, modify at 1. cbn [bindr].
  set (s0 := set_kcpu _ s).
  destruct (scheduler_loop_run (S fuel) s0 k pr Hh Hn Hfind) as (kont & Hl & Hk).
  rewrite Hl. eexists _, kont. split; [reflexivity|].
  intros w Hhw Hnw Hsw Hlen. rewrite Hk.
  apply scheduler_from_run; try assumption.
  change (procs s0) with (procs s). rewrite Hlen.
  apply list_find_Some in Hfind as (Hl2 & _).
  apply lookup_lt_Some in Hl2. lia.
Qed.

(** *** pipeclose *)

(** X8. [pipeclose(pi, writable)] called with no lock held: it clears
    [writeopen] (for [writable != 0]) or [readopen], wakes the processes
    sleeping at the other end, and frees the pipe exactly when both ends
    are closed afterwards; the ring and its counters are not touched and
    the pipe lock is released again. *)
Theorem pipeclose_effect writable s :
  held s = [] -> noff (kcpu s) = 0 ->
  exists s',
    pipeclose writable s = Ret tt s' /\
    kpipe s' =
      (if writable =? 0
       then mkPipe (data (kpipe s)) (nread (kpipe s)) (nwrite (kpipe s)) 0
                   (writeopen (kpipe s))
       else mkPipe (data (kpipe s)) (nread (kpipe s)) (nwrite (kpipe s))
                   (readopen (kpipe s)) 0) /\
    procs s' = wake (if writable =? 0 then PipeNwrite else PipeNread)
                    (cproc (kcpu s)) (procs s) /\
    trace s' = trace s ++
      (if (readopen (kpipe s') =? 0) && (writeopen (kpipe s') =? 0)
       then [EvKfreePipe] else []) /\
    held s' = [] /\ noff (kcpu s') = 0 /\ sie (kcpu s') = sie (kcpu s) /\
    nextpid s' = nextpid s /\ mem s' = mem s.
Proof.
  intros Hh Hn. unfold pipeclose.
  assert (Hf : PipeLock ∉ held s) by (rewrite Hh; apply not_elem_of_nil).
  erewrite bind_eq by (apply acquire_ok; exact Hf). cbn [bindr].
  set (s1 := lock PipeLock s).
  assert (Hwk : forall ch (f : pipe -> pipe),
            bind (set_pipe f) (fun _ => wakeup ch) s1
            = Ret tt (woke ch (set_kpipe (f (kpipe s)) s1))).
  { intros ch f. unfold bind, set_pipe, modify. cbn [bindr].
    apply wakeup_ok.
    - split; unfold s1; ksimpl; [lia | reflexivity].
    - intros j _. unfold s1. ksimpl. rewrite Hh. intros H%list_elem_of_singleton. discriminate. }
  assert (Hfin : forall ch (pi' : pipe),
            let s3 := woke ch (set_kpipe pi' s1) in
            release PipeLock s3 = Ret tt (unlock PipeLock s3)).
  { intros ch pi' s3. apply release_ok; unfold s3, woke, s1; ksimpl; [left | reflexivity | lia]. }
  assert (Hdone : forall ch (pi' : pipe) (ev : list event),
            ev = (if (readopen pi' =? 0) && (writeopen pi' =? 0)
                  then [EvKfreePipe] else []) ->
            let s' := set_trace (trace s ++ ev)
                        (unlock PipeLock (woke ch (set_kpipe pi' s1))) in
            kpipe s' = pi' /\
            procs s' = wake ch (cproc (kcpu s)) (procs s) /\
            trace s' = trace s ++
              (if (readopen (kpipe s') =? 0) && (writeopen (kpipe s') =? 0)
               then [EvKfreePipe] else []) /\
            held s' = [] /\ noff (kcpu s') = 0 /\ sie (kcpu s') = sie (kcpu s) /\
            nextpid s' = nextpid s /\ mem s' = mem s).
  { intros ch pi' ev -> s'. unfold s', set_trace, woke, unlock, s1. ksimpl.
    rewrite Hh, Hn.
    rewrite filter_cons_False by (intros H; apply H; reflexivity).
    split_and!; try reflexivity. cbn. destruct (sie (kcpu s)); reflexivity. }
  destruct (writable =? 0); cbn [negb].
  - erewrite bind_eq by apply Hwk. cbn [bindr].
    unfold bind at 1, gets at 1. cbn [bindr]. unfold woke at 1 2. ksimpl.
    cbn [readopen writeopen].
    destruct ((0 =? 0) && (writeopen (kpipe s) =? 0)) eqn:Hb.
    + erewrite bind_eq by apply Hfin. cbn [bindr]. unfold modify.
      eexists. split; [reflexivity|].
      apply (Hdone PipeNwrite _ [EvKfreePipe]). cbn [readopen writeopen].
      rewrite Hb. reflexivity.
    + rewrite Hfin. eexists. split; [reflexivity|].
      set (sf := unlock _ _).
      replace sf with (set_trace (trace s ++ []) sf)
        by (unfold set_trace; rewrite app_nil_r; apply kstate_eq; reflexivity).
      apply (Hdone PipeNwrite _ []). cbn [readopen writeopen].
      rewrite Hb. reflexivity.
  - erewrite bind_eq by apply Hwk. cbn [bindr].
    unfold bind at 1, gets at 1. cbn [bindr]. unfold woke at 1 2. ksimpl.
    cbn [readopen writeopen].
    destruct ((readopen (kpipe s) =? 0) && (0 =? 0)) eqn:Hb.
    + erewrite bind_eq by apply Hfin. cbn [bindr]. unfold modify.
      eexists. split; [reflexivity|].
      apply (Hdone PipeNread _ [EvKfreePipe]). cbn [readopen writeopen].
      rewrite Hb. reflexivity.
    + rewrite Hfin. eexists. split; [reflexivity|].
      set (sf := unlock _ _).
      replace sf with (set_trace (trace s ++ []) sf)
        by (unfold set_trace; rewrite app_nil_r; apply kstate_eq; reflexivity).
      apply (Hdone PipeNread _ []). cbn [readopen writeopen].
      rewrite Hb. reflexivity.
Qed.

(** *** The ring as a queue *)

Lemma taken_eq j pi :
  0 <= nread pi < 2 ^ 32 ->
  taken j pi = mkPipe (data pi) (wrap_uint (nread pi + Z.of_nat j)) (nwrite pi)
                      (readopen pi) (writeopen pi).
Proof.
  intros Hr. induction j as [|j IH].
  - change (taken 0 pi) with pi. destruct pi as [d r w ro wo]. cbn [nread] in Hr.
    cbn [data nread nwrite readopen writeopen]. f_equal. unfold wrap_uint.
    rewrite Z.add_0_r, Z.mod_small; [reflexivity | exact Hr].
  - change (taken (S j) pi) with (pipe_take (taken j pi)). rewrite IH.
    unfold pipe_take. cbn [data nread nwrite readopen writeopen]. f_equal.
    unfold wrap_uint. rewrite Zplus_mod_idemp_l. f_equal. lia.
Qed.

Lemma pipe_byte_taken j pi :
  0 <= nread pi < 2 ^ 32 ->
  pipe_byte (taken j pi) =
  default 0 (data pi !! Z.to_nat ((nread pi + Z.of_nat j) mod 512)).
Proof.
  intros Hr. rewrite taken_eq by exact Hr. unfold pipe_byte, PIPESIZE, wrap_uint.
  cbn [data nread]. do 3 f_equal.
  apply Z.mod_mod_divide. exists 8388608. reflexivity.
Qed.

Lemma used_put ch pi :
  pipe_ok pi -> pipe_full pi = false -> used (pipe_put ch pi) = used pi + 1.
Proof.
  intros ((H1 & H2) & H3 & _ & _) Hf. unfold pipe_put.
  unfold used at 1. cbn [nread nwrite]. wrap_lia.
Qed.

Lemma used_take pi :
  pipe_ok pi -> pipe_empty pi = false -> used pi = used (pipe_take pi) + 1.
Proof.
  intros ((H1 & H2) & H3 & _ & _) Hf. unfold pipe_take.
  unfold used at 2. cbn [nread nwrite]. wrap_lia.
Qed.

Lemma contents_put ch pi :
  pipe_wf pi -> pipe_full pi = false ->
  contents (pipe_put ch pi) = contents pi ++ [ch].
Proof.
  intros [Hok Hlen] Hf. unfold contents.
  rewrite used_put by assumption.
  assert (Hok' := Hok). destruct Hok' as ((H1 & H2) & H3 & _ & _).
  replace (Z.to_nat (used pi + 1)) with (S (Z.to_nat (used pi))) by lia.
  rewrite seq_S, fmap_app. cbn [fmap list_fmap Nat.add]. f_equal.
  - apply list_fmap_ext. intros i j [-> Hj]%lookup_seq. cbn [Nat.add].
    rewrite !pipe_byte_taken by (unfold pipe_put; cbn [nread]; assumption).
    unfold pipe_put. cbn [data nread]. unfold PIPESIZE.
    rewrite list_lookup_insert_ne; [reflexivity|].
    intros Heq. apply Z2Nat.inj in Heq; [| apply Z.mod_pos_bound; lia
                                          | apply Z.mod_pos_bound; lia].
    revert Heq. wrap_lia.
  - f_equal. rewrite pipe_byte_taken by (unfold pipe_put; cbn [nread]; assumption).
    unfold pipe_put. cbn [data nread]. unfold PIPESIZE.
    replace ((nread pi + Z.of_nat (Z.to_nat (used pi))) mod 512)
      with (nwrite pi mod 512) by wrap_lia.
    rewrite list_lookup_insert_eq; [reflexivity|].
    rewrite Hlen. pose proof (Z.mod_pos_bound (nwrite pi) 512). lia.
Qed.

Lemma contents_take pi :
  pipe_ok pi -> pipe_empty pi = false ->
  contents pi = pipe_byte pi :: contents (pipe_take pi).
Proof.
  intros Hok He. unfold contents. rewrite (used_take pi) by assumption.
  assert (Hok' := pipe_take_ok pi Hok He). destruct Hok' as (_ & H3 & _ & _).
  replace (Z.to_nat (used (pipe_take pi) + 1))
    with (S (Z.to_nat (used (pipe_take pi)))) by lia.
  cbn [seq fmap list_fmap]. f_equal.
  rewrite <- fmap_S_seq, <- list_fmap_compose.
  apply list_fmap_ext. intros i j _. cbn [compose]. rewrite taken_S. reflexivity.
Qed.

Lemma contents_empty pi :
  pipe_ok pi -> pipe_empty pi = true -> contents pi = [].
Proof.
  intros (_ & _ & _ & He) H. unfold contents. rewrite (proj1 He H). reflexivity.
Qed.

Lemma length_contents pi : length (contents pi) = Z.to_nat (used pi).
Proof. unfold contents. rewrite length_fmap, length_seq. reflexivity. Qed.

Lemma pipe_not_full pi : pipe_ok pi -> used pi < PIPESIZE -> pipe_full pi = false.
Proof.
  intros (_ & _ & Hf & _) Hu. destruct (pipe_full pi); [|reflexivity].
  pose proof (proj1 Hf eq_refl). lia.
Qed.

Lemma put_all_wf bs : forall pi,
  pipe_wf pi -> used pi + Z.of_nat (length bs) <= PIPESIZE ->
  pipe_wf (put_all bs pi) /\
  contents (put_all bs pi) = contents pi ++ bs /\
  used (put_all bs pi) = used pi + Z.of_nat (length bs) /\
  readopen (put_all bs pi) = readopen pi /\
  writeopen (put_all bs pi) = writeopen pi.
Proof.
  induction bs as [|ch bs IH]; intros pi Hwf Hroom.
  - cbn [put_all fold_left length]. rewrite app_nil_r, Z.add_0_r. auto.
  - cbn [length] in Hroom. destruct Hwf as [Hok Hlen].
    assert (Hnf : pipe_full pi = false) by (apply pipe_not_full; [exact Hok | lia]).
    assert (Hwf1 : pipe_wf (pipe_put ch pi)).
    { split; [apply pipe_put_ok; assumption|].
      unfold pipe_put. cbn [data]. rewrite length_insert. exact Hlen. }
    assert (Hu1 := used_put ch pi Hok Hnf).
    destruct (IH (pipe_put ch pi) Hwf1 ltac:(lia)) as (Hwf' & Hc & Hu & Hro & Hwo).
    change (put_all (ch :: bs) pi) with (put_all bs (pipe_put ch pi)).
    split; [exact Hwf'|]. split.
    { rewrite Hc, contents_put by (try split; assumption).
      rewrite <- app_assoc. reflexivity. }
    split; [cbn [length]; lia|]. split; [rewrite Hro | rewrite Hwo]; reflexivity.
Qed.

Lemma whead_put p q s pi' :
  whead p q s -> pipe_wf pi' -> readopen pi' = readopen (kpipe s) ->
  whead p q (set_kpipe pi' s).
Proof.
  intros (Hin & Hq & Hk & Hro & _) Hwf Hro'. unfold whead. ksimpl.
  rewrite Hro'. split_and!; assumption.
Qed.

Lemma set_kpipe_same s : set_kpipe (kpipe s) s = s.
Proof. destruct s; reflexivity. Qed.

Lemma set_kpipe_twice pi1 pi2 s : set_kpipe pi2 (set_kpipe pi1 s) = set_kpipe pi2 s.
Proof. reflexivity. Qed.

(** The iterations of the loop of [pipewrite] that put the bytes [bs], for
    which there is room, in the ring. *)
Lemma pw_puts p q addr n : forall bs i s ws fuel,
  whead p q s -> Forall (dispatched p) ws ->
  used (kpipe s) + Z.of_nat (length bs) <= PIPESIZE ->
  i + Z.of_nat (length bs) <= n ->
  (forall j ch, bs !! j = Some ch ->
     copyin (mem s) (pagetable q) (wrap_uint64 (addr + (i + Z.of_nat j))) = Some ch) ->
  runk (loop (length bs + fuel) (pw_body p addr n) i s) ws
  = runk (loop fuel (pw_body p addr n) (i + Z.of_nat (length bs))
            (set_kpipe (put_all bs (kpipe s)) s)) ws.
Proof.
  induction bs as [|ch bs IH]; intros i s ws fuel Hw Hws Hroom Hn Hcp.
  - cbn [length Nat.add put_all fold_left]. rewrite set_kpipe_same, Z.add_0_r.
    reflexivity.
  - cbn [length] in Hroom, Hn. cbn [length Nat.add].
    assert (Hw' := Hw). destruct Hw' as (Hin & Hq & Hk & Hro & Hok & Hlen).
    assert (Hnf : pipe_full (kpipe s) = false) by (apply pipe_not_full; [exact Hok | lia]).
    assert (Hstep : iter_step (pw_body p addr n) (i, s, ws)
                      (i + 1, set_kpipe (pipe_put ch (kpipe s)) s, ws)).
    { unfold iter_step. cbn [fst snd]. rewrite pw_body_run by assumption.
      unfold pw_outcome.
      destruct (Z.ltb_spec i n) as [_|Hge]; [|lia]. cbn [negb].
      destruct (Z.eqb_spec (readopen (kpipe s)) 0) as [?|_]; [contradiction|].
      rewrite (pkilled_slot p s q Hq), Hk. cbn [Z.eqb negb orb].
      rewrite Hnf, Hq.
      specialize (Hcp 0%nat ch eq_refl). rewrite Z.add_0_r in Hcp. rewrite Hcp.
      reflexivity. }
    rewrite (loop_step _ _ _ _ _ _ _ _ Hstep).
    assert (Hwf1 : pipe_wf (pipe_put ch (kpipe s))).
    { split; [apply pipe_put_ok; assumption|].
      unfold pipe_put. cbn [data]. rewrite length_insert. exact Hlen. }
    rewrite IH.
    + ksimpl. replace (i + 1 + Z.of_nat (length bs)) with (i + Z.of_nat (S (length bs))) by lia.
      reflexivity.
    + apply whead_put; [exact Hw | exact Hwf1 | reflexivity].
    + exact Hws.
    + ksimpl. rewrite used_put by assumption. lia.
    + lia.
    + intros j c Hj. ksimpl. specialize (Hcp (S j) c Hj).
      replace (i + 1 + Z.of_nat j) with (i + Z.of_nat (S j)) by lia. exact Hcp.
Qed.

Lemma wake_self ch p ps : wake ch (Some p) ps !! p = ps !! p.
Proof.
  rewrite wake_lookup. destruct (ps !! p) as [q|]; [|reflexivity].
  cbn [fmap option_fmap option_map]. unfold wake_slot.
  rewrite bool_decide_eq_false_2 by (intros H; apply H; reflexivity). reflexivity.
Qed.

(** The end of [pipewrite] once the loop is left with [i] bytes written:
    the readers are woken and the lock is released. *)
Lemma pipewrite_end p (i : Z) s ws :
  inlock PipeLock p s ->
  runk (bind (wakeup PipeNread) (fun _ => bind (release PipeLock) (fun _ => ret i)) s) ws
  = (Done i (unlock PipeLock (woke PipeNread s)), ws).
Proof.
  intros Hin.
  destruct (inlock_wakeup PipeLock p PipeNread s Hin) as [Hw Hin']; [discriminate|].
  erewrite bind_eq by exact Hw. cbn [bindr].
  erewrite bind_eq by (eapply inlock_release, Hin'). reflexivity.
Qed.

Lemma pipewrite_room_run p q fuel addr bs s :
  entry p s -> procs s !! p = Some q -> killed q = 0 -> readopen (kpipe s) <> 0 ->
  pipe_wf (kpipe s) -> used (kpipe s) + Z.of_nat (length bs) <= PIPESIZE ->
  (forall j ch, bs !! j = Some ch ->
     copyin (mem s) (pagetable q) (wrap_uint64 (addr + Z.of_nat j)) = Some ch) ->
  (length bs < fuel)%nat ->
  run (pipewrite copyin fuel addr (Z.of_nat (length bs)) s) []
  = Done (Z.of_nat (length bs))
      (unlock PipeLock (woke PipeNread
         (set_kpipe (put_all bs (kpipe s)) (enter PipeLock s)))).
Proof.
  intros He Hq Hk Hro Hwf Hroom Hcp Hfuel. unfold pipewrite, run.
  rewrite (enter_run PipeLock p s _ He). rewrite runk_bind.
  assert (Hin := enter_inlock PipeLock p s He).
  assert (Hw : whead p q (enter PipeLock s)) by (split_and!; assumption).
  replace fuel with (length bs + S (fuel - S (length bs)))%nat by lia.
  rewrite (pw_puts p q addr _ bs 0 _ [] _ Hw); [| constructor | exact Hroom | lia | exact Hcp].
  rewrite Z.add_0_l.
  set (s1 := set_kpipe _ (enter PipeLock s)).
  assert (Hin1 : inlock PipeLock p s1) by exact Hin.
  erewrite loop_break.
  2:{ rewrite pw_body_run by (try exact Hin1; constructor). unfold pw_outcome.
      rewrite Z.ltb_irrefl. reflexivity. }
  cbn [bind_outcome]. rewrite (pipewrite_end p _ s1 [] Hin1). reflexivity.
Qed.

(** X9. [pipewrite] of bytes for which the ring has room, by a process that
    is not killed, on a pipe whose read end is open: it returns their
    number without sleeping; the bytes are appended, in order, to those
    waiting in the pipe, and the sleeping readers are woken. *)
Theorem pipewrite_appends p q fuel addr bs s :
  entry p s -> procs s !! p = Some q -> killed q = 0 -> readopen (kpipe s) <> 0 ->
  pipe_wf (kpipe s) -> used (kpipe s) + Z.of_nat (length bs) <= PIPESIZE ->
  (forall j ch, bs !! j = Some ch ->
     copyin (mem s) (pagetable q) (wrap_uint64 (addr + Z.of_nat j)) = Some ch) ->
  (length bs < fuel)%nat ->
  exists sf,
    run (pipewrite copyin fuel addr (Z.of_nat (length bs)) s) []
    = Done (Z.of_nat (length bs)) sf /\
    contents (kpipe sf) = contents (kpipe s) ++ bs /\
    pipe_wf (kpipe sf) /\
    procs sf = wake PipeNread (Some p) (procs s) /\
    mem sf = mem s /\ held sf = [] /\ noff (kcpu sf) = 0.
Proof.
  intros He Hq Hk Hro Hwf Hroom Hcp Hfuel.
  eexists. split; [eapply pipewrite_room_run; eassumption|].
  destruct (put_all_wf bs (kpipe s) Hwf Hroom) as (Hwf' & Hc & _).
  destruct He as (Hc0 & Hp0 & Hh0 & Hn0).
  unfold woke, unlock, enter. ksimpl. rewrite norm_cpu_cproc, norm_cpu_noff, Hc0, Hh0, Hn0.
  rewrite filter_cons_False by (intros H; apply H; reflexivity).
  split_and!; try assumption; reflexivity.
Qed.

(** X10. [pipewrite] of more bytes than the ring has room for: the bytes [bs]
    that fill the ring are appended, then the writer wakes the readers and
    goes to sleep on [&pi->nwrite] with the pipe lock released. *)
Theorem pipewrite_blocks_when_full p q fuel addr n bs s :
  entry p s -> procs s !! p = Some q -> killed q = 0 -> readopen (kpipe s) <> 0 ->
  pipe_wf (kpipe s) -> used (kpipe s) + Z.of_nat (length bs) = PIPESIZE ->
  Z.of_nat (length bs) < n ->
  (forall j ch, bs !! j = Some ch ->
     copyin (mem s) (pagetable q) (wrap_uint64 (addr + Z.of_nat j)) = Some ch) ->
  (length bs < fuel)%nat ->
  exists sb,
    run (pipewrite copyin fuel addr n s) [] = Blocked sb /\
    contents (kpipe sb) = contents (kpipe s) ++ bs /\
    pipe_full (kpipe sb) = true /\
    procs sb = <[p := set_state SLEEPING (set_chan PipeNwrite q)]>
                 (wake PipeNread (Some p) (procs s)) /\
    held sb = [ProcLock p].
Proof.
  intros He Hq Hk Hro Hwf Hroom Hn Hcp Hfuel. unfold pipewrite, run.
  rewrite (enter_run PipeLock p s _ He). rewrite runk_bind.
  assert (Hin := enter_inlock PipeLock p s He).
  assert (Hw : whead p q (enter PipeLock s)) by (split_and!; assumption).
  replace fuel with (length bs + S (fuel - S (length bs)))%nat by lia.
  rewrite (pw_puts p q addr _ bs 0 _ [] _ Hw);
    [| constructor | change (kpipe (enter PipeLock s)) with (kpipe s); lia | lia | exact Hcp].
  rewrite Z.add_0_l.
  destruct (put_all_wf bs (kpipe s) Hwf ltac:(lia)) as (Hwf' & Hc & Hu & Hro' & _).
  set (s1 := set_kpipe _ (enter PipeLock s)).
  assert (Hin1 : inlock PipeLock p s1) by exact Hin.
  assert (Hfull : pipe_full (kpipe s1) = true).
  { destruct Hwf' as [(_ & _ & Hf & _) _]. apply Hf. unfold s1. ksimpl.
    change (kpipe (enter PipeLock s)) with (kpipe s). lia. }
  erewrite loop_blocked.
  2:{ rewrite pw_body_run by (try exact Hin1; constructor). unfold pw_outcome.
      destruct (Z.ltb_spec (Z.of_nat (length bs)) n) as [_|?]; [|lia]. cbn [negb].
      change (kpipe s1) with (put_all bs (kpipe s)) at 1. rewrite Hro'.
      destruct (Z.eqb_spec (readopen (kpipe s)) 0) as [?|_]; [contradiction|].
      rewrite (pkilled_slot p s1 q Hq), Hk. cbn [Z.eqb negb orb].
      rewrite Hfull. reflexivity. }
  cbn [bind_outcome fst]. eexists. split; [reflexivity|].
  unfold sleeping, set_slot, woke. ksimpl.
  change (procs s1) with (procs s). change (cproc (kcpu s1)) with (cproc (kcpu (enter PipeLock s))).
  destruct Hin as (Hc1 & _). rewrite Hc1, wake_self, Hq. ksimpl.
  split_and!; try reflexivity; assumption.
Qed.

Lemma contents_nonempty pi :
  pipe_ok pi -> contents pi <> [] -> pipe_empty pi = false.
Proof.
  intros Hok Hne. destruct (pipe_empty pi) eqn:He; [|reflexivity].
  exfalso. apply Hne, contents_empty; assumption.
Qed.

Lemma set_mem_kpipe_same s : set_mem (mem s) (set_kpipe (kpipe s) s) = s.
Proof. destruct s; reflexivity. Qed.

(** The copy loop of [piperead] on a pipe that holds the bytes [bs], when
    each [copyout] succeeds: the first [cnt] of them are copied out, in
    order, and leave the ring. *)
Lemma piperead_copy_contents p q : forall cnt s addr i um',
  procs s !! p = Some q -> pipe_ok (kpipe s) ->
  copied_out (take cnt (contents (kpipe s))) (mem s) (pagetable q) addr i = Some um' ->
  exists pi',
    piperead_copy copyout cnt (Some p) addr i s
    = Ret (i + Z.of_nat (length (take cnt (contents (kpipe s)))))
          (set_mem um' (set_kpipe pi' s)) /\
    pipe_ok pi' /\ contents pi' = drop cnt (contents (kpipe s)) /\
    data pi' = data (kpipe s) /\
    readopen pi' = readopen (kpipe s) /\ writeopen pi' = writeopen (kpipe s).
Proof.
  induction cnt as [|cnt IH]; intros s addr i um' Hq Hok Hco.
  - cbn [take] in Hco. injection Hco as <-. exists (kpipe s).
    cbn [piperead_copy take length drop]. rewrite set_mem_kpipe_same, Z.add_0_r.
    unfold ret. split_and!; try reflexivity; assumption.
  - rewrite (piperead_copy_S p q cnt s addr i Hq).
    destruct (pipe_empty (kpipe s)) eqn:He.
    + rewrite (contents_empty _ Hok He) in Hco |- *. cbn [take] in Hco.
      injection Hco as <-. exists (kpipe s).
      cbn [take length drop]. rewrite set_mem_kpipe_same, Z.add_0_r.
      split_and!; try reflexivity; try assumption.
      apply contents_empty; assumption.
    + rewrite (contents_take _ Hok He) in Hco |- *.
      cbn [take copied_out] in Hco. cbn zeta in Hco |- *.
      destruct (copyout (mem s) (pagetable q) (wrap_uint64 (addr + i))
                  [pipe_byte (kpipe s)]) as [ok um1] eqn:Hc1.
      cbn [fst snd] in Hco |- *. destruct ok; [|discriminate].
      set (s1 := set_mem um1 (set_kpipe (pipe_take (kpipe s)) s)).
      destruct (IH s1 addr (i + 1) um' Hq (pipe_take_ok _ Hok He) Hco)
        as (pi' & Hrun & Hok' & Hc' & Hd & Hro & Hwo).
      exists pi'. rewrite Hrun. unfold s1. ksimpl. cbn [take length drop].
      split; [f_equal; lia|]. split_and!; assumption.
Qed.

Lemma piperead_data_run p q fuel addr n s um' :
  entry p s -> procs s !! p = Some q -> pipe_ok (kpipe s) ->
  (contents (kpipe s) <> [] \/ writeopen (kpipe s) = 0) ->
  copied_out (take (Z.to_nat n) (contents (kpipe s))) (mem s) (pagetable q) addr 0
    = Some um' ->
  exists pi',
    run (piperead copyout (S fuel) addr n s) []
    = Done (Z.of_nat (length (take (Z.to_nat n) (contents (kpipe s)))))
        (unlock PipeLock (woke PipeNwrite
           (set_mem um' (set_kpipe pi' (enter PipeLock s))))) /\
    pipe_ok pi' /\ contents pi' = drop (Z.to_nat n) (contents (kpipe s)) /\
    data pi' = data (kpipe s) /\
    readopen pi' = readopen (kpipe s) /\ writeopen pi' = writeopen (kpipe s).
Proof.
  intros He Hq Hok Hdata Hco. unfold piperead, run.
  rewrite (enter_run PipeLock p s _ He).
  assert (Hnw : pr_waiting (kpipe (enter PipeLock s)) = false).
  { change (kpipe (enter PipeLock s)) with (kpipe s). unfold pr_waiting.
    destruct Hdata as [Hne|Hwo].
    - rewrite (contents_nonempty _ Hok Hne). reflexivity.
    - rewrite Hwo. apply andb_false_r. }
  cbn [loop]. unfold bind at 1. unfold bind at 1.
  rewrite (piperead_wait_break p tt _ Hnw). cbn [bindr]. unfold ret at 1. cbn [bindr].
  assert (Hin := enter_inlock PipeLock p s He).
  destruct (piperead_copy_contents p q (Z.to_nat n) (enter PipeLock s) addr 0 um' Hq Hok Hco)
    as (pi' & Hrun & Hok' & Hc' & Hd & Hro & Hwo).
  erewrite bind_eq by exact Hrun. cbn [bindr]. rewrite Z.add_0_l.
  set (s2 := set_mem um' (set_kpipe pi' (enter PipeLock s))).
  assert (Hin2 : inlock PipeLock p s2) by exact Hin.
  destruct (inlock_wakeup PipeLock p PipeNwrite s2 Hin2) as [Hw Hin']; [discriminate|].
  erewrite bind_eq by exact Hw. cbn [bindr].
  erewrite bind_eq by (eapply inlock_release, Hin'). cbn [bindr].
  exists pi'. split; [reflexivity|]. split_and!; assumption.
Qed.

(** X11. [piperead] of [n] bytes on a pipe that holds the bytes [bs] (or on an
    empty pipe whose write end is closed): when the copies to user
    memory succeed, it returns without sleeping, has copied out the first
    [n] bytes of [bs] in the order they were written ([bs] whole when it
    is shorter), and leaves the others in the pipe; the sleeping writers
    are woken. *)
Theorem piperead_takes p q fuel addr n s um' :
  entry p s -> procs s !! p = Some q -> pipe_ok (kpipe s) ->
  (contents (kpipe s) <> [] \/ writeopen (kpipe s) = 0) ->
  copied_out (take (Z.to_nat n) (contents (kpipe s))) (mem s) (pagetable q) addr 0
    = Some um' ->
  exists sf,
    run (piperead copyout (S fuel) addr n s) []
    = Done (Z.of_nat (length (take (Z.to_nat n) (contents (kpipe s))))) sf /\
    mem sf = um' /\
    contents (kpipe sf) = drop (Z.to_nat n) (contents (kpipe s)) /\
    pipe_ok (kpipe sf) /\
    procs sf = wake PipeNwrite (Some p) (procs s) /\
    held sf = [] /\ noff (kcpu sf) = 0.
Proof.
  intros He Hq Hok Hdata Hco.
  destruct (piperead_data_run p q fuel addr n s um' He Hq Hok Hdata Hco)
    as (pi' & Hrun & Hok' & Hc' & _).
  eexists. split; [exact Hrun|].
  destruct He as (Hc0 & Hp0 & Hh0 & Hn0).
  unfold woke, unlock, enter. ksimpl. rewrite norm_cpu_cproc, norm_cpu_noff, Hc0, Hh0, Hn0.
  rewrite filter_cons_False by (intros H; apply H; reflexivity).
  split_and!; try assumption; reflexivity.
Qed.

Lemma contents_nil_empty pi : pipe_ok pi -> contents pi = [] -> pipe_empty pi = true.
Proof.
  intros Hok Hc. destruct (pipe_empty pi) eqn:He; [reflexivity|].
  rewrite (contents_take _ Hok He) in Hc. discriminate.
Qed.

(** X12. What a process writes to an empty pipe is what a process that reads
    the pipe afterwards gets: [pipewrite] of the bytes [bs], at most 512,
    followed by a [piperead] of at least as many bytes by a process [r],
    hands [bs] to [copyout] byte by byte in the order written, returns
    their number and leaves the pipe empty. *)
Theorem pipe_round_trip p q fuel addr addr2 n bs s :
  entry p s -> procs s !! p = Some q -> killed q = 0 -> readopen (kpipe s) <> 0 ->
  pipe_wf (kpipe s) -> pipe_empty (kpipe s) = true ->
  bs <> [] -> Z.of_nat (length bs) <= PIPESIZE -> Z.of_nat (length bs) <= n ->
  (forall j ch, bs !! j = Some ch ->
     copyin (mem s) (pagetable q) (wrap_uint64 (addr + Z.of_nat j)) = Some ch) ->
  (length bs < fuel)%nat ->
  exists s1,
    run (pipewrite copyin fuel addr (Z.of_nat (length bs)) s) []
    = Done (Z.of_nat (length bs)) s1 /\
    forall r q2 s1' um',
      entry r s1' -> procs s1' !! r = Some q2 -> kpipe s1' = kpipe s1 ->
      copied_out bs (mem s1') (pagetable q2) addr2 0 = Some um' ->
      exists s2,
        run (piperead copyout fuel addr2 n s1') [] = Done (Z.of_nat (length bs)) s2 /\
        mem s2 = um' /\ pipe_empty (kpipe s2) = true.
Proof.
  intros He Hq Hk Hro Hwf Hemp Hne Hlen Hn Hcp Hfuel.
  assert (Hu : used (kpipe s) = 0).
  { destruct Hwf as [(_ & _ & _ & Hu) _]. apply Hu, Hemp. }
  eexists. split.
  { eapply pipewrite_room_run; try eassumption. lia. }
  intros r q2 s1' um' Her Hq2 Hpipe Hco.
  destruct (put_all_wf bs (kpipe s) Hwf ltac:(lia)) as ([Hok' _] & Hc & _).
  rewrite (contents_empty _ (proj1 Hwf) Hemp) in Hc. cbn [app] in Hc.
  assert (Hks : kpipe s1' = put_all bs (kpipe s)) by exact Hpipe.
  assert (Htk : take (Z.to_nat n) bs = bs) by (apply take_ge; lia).
  destruct fuel as [|fuel]; [lia|].
  destruct (piperead_data_run r q2 fuel addr2 n s1' um' Her Hq2)
    as (pi' & Hrun & Hokp & Hcp' & _).
  - rewrite Hks. exact Hok'.
  - left. rewrite Hks, Hc. exact Hne.
  - rewrite Hks, Hc, Htk. exact Hco.
  - rewrite Hks, Hc, Htk in Hrun. eexists. split; [exact Hrun|].
    unfold woke, unlock. ksimpl. split; [reflexivity|].
    apply contents_nil_empty; [exact Hokp|].
    rewrite Hcp', Hks, Hc. apply drop_ge. lia.
Qed.

(** *** Sleepers that find the other end closed *)

Lemma piperead_copy_empty cnt pr addr i s :
  pipe_empty (kpipe s) = true -> piperead_copy copyout cnt pr addr i s = Ret i s.
Proof.
  intros He. destruct cnt; [reflexivity|].
  cbn [piperead_copy]. unfold bind, gets. cbn [bindr]. rewrite He. reflexivity.
Qed.

(** X13. A reader that finds the pipe empty and the write end open goes to
    sleep on [&pi->nread]; dispatched again after the write end has been
    closed, the pipe still empty, it returns 0, the end of file. *)
Theorem piperead_eof_after_close p q fuel addr n s w :
  entry p s -> procs s !! p = Some q -> killed q = 0 ->
  pipe_empty (kpipe s) = true -> writeopen (kpipe s) <> 0 ->
  dispatched p w -> pipe_empty (kpipe w) = true -> writeopen (kpipe w) = 0 ->
  exists sb sf,
    run (piperead copyout (S (S fuel)) addr n s) [] = Blocked sb /\
    procs sb = <[p := set_state SLEEPING (set_chan PipeNread q)]> (procs s) /\
    held sb = [ProcLock p] /\
    run (piperead copyout (S (S fuel)) addr n s) [w] = Done 0 sf /\
    held sf = [] /\ kpipe sf = kpipe w.
Proof.
  intros He Hq Hk Hemp Hwo Hw Hempw Hwow. unfold piperead, run.
  rewrite (enter_run PipeLock p s _ He). rewrite !runk_bind.
  assert (Hin := enter_inlock PipeLock p s He).
  assert (Hwait : pr_waiting (kpipe (enter PipeLock s)) = true).
  { change (kpipe (enter PipeLock s)) with (kpipe s). unfold pr_waiting.
    rewrite Hemp. destruct (Z.eqb_spec (writeopen (kpipe s)) 0); [contradiction|reflexivity]. }
  assert (Hnk : pkilled p (enter PipeLock s) = false).
  { unfold pkilled. change (procs (enter PipeLock s)) with (procs s).
    rewrite Hq, Hk. reflexivity. }
  eexists _, _. split; [|split; [|split; [|split]]].
  - erewrite loop_blocked; [reflexivity|].
    rewrite pr_body_run by (try exact Hin; constructor).
    unfold pr_outcome. rewrite Hwait, Hnk. reflexivity.
  - unfold sleeping, set_slot. ksimpl.
    change (procs (enter PipeLock s)) with (procs s). rewrite Hq. reflexivity.
  - reflexivity.
  - erewrite loop_step.
    2:{ unfold iter_step. cbn [fst snd].
        rewrite pr_body_run
          by first [exact Hin | constructor; [exact Hw | constructor]].
        unfold pr_outcome. rewrite Hwait, Hnk. reflexivity. }
    set (s1 := woken _ _ _ w).
    assert (Hin1 : inlock PipeLock p s1) by (apply dispatched_woken, Hw).
    assert (Hk1 : kpipe s1 = kpipe w).
    { unfold s1, woken, set_slot. destruct (procs w !! p); reflexivity. }
    erewrite loop_break.
    2:{ rewrite pr_body_run by (try exact Hin1; constructor).
        unfold pr_outcome, pr_waiting. rewrite Hk1, Hwow. rewrite andb_false_r.
        reflexivity. }
    cbn [bind_outcome].
    erewrite bind_eq by (apply piperead_copy_empty; rewrite Hk1; exact Hempw).
    cbn [bindr].
    destruct (inlock_wakeup PipeLock p PipeNwrite s1 Hin1) as [Hwk Hin']; [discriminate|].
    erewrite bind_eq by exact Hwk. cbn [bindr].
    erewrite bind_eq by (eapply inlock_release, Hin'). cbn [bindr runk fst].
    reflexivity.
  - cbn beta. destruct Hw as (Hcw & Hpw & Hhw & Hnw & Hsw).
    unfold woke, unlock, woken, set_slot. destruct (procs w !! p); ksimpl;
      (split; [|reflexivity]);
      rewrite filter_cons_False by (intros H; apply H; reflexivity); reflexivity.
Qed.

(** X14. A reader asleep on an empty pipe that is killed: dispatched again,
    the pipe still empty and the write end still open, it finds [killed]
    set and returns -1 with the pipe lock released. *)
Theorem piperead_killed_while_blocked p q fuel addr n s w :
  entry p s -> procs s !! p = Some q -> killed q = 0 ->
  pipe_empty (kpipe s) = true -> writeopen (kpipe s) <> 0 ->
  dispatched p w -> pkilled p w = true ->
  pipe_empty (kpipe w) = true -> writeopen (kpipe w) <> 0 ->
  exists sf,
    run (piperead copyout (S (S fuel)) addr n s) [w] = Done (-1) sf /\
    held sf = [] /\ kpipe sf = kpipe w /\ mem sf = mem w.
Proof.
  intros He Hq Hk Hemp Hwo Hw Hkw Hempw Hwow. unfold piperead, run.
  rewrite (enter_run PipeLock p s _ He). rewrite !runk_bind.
  assert (Hin := enter_inlock PipeLock p s He).
  assert (Hwait : pr_waiting (kpipe (enter PipeLock s)) = true).
  { change (kpipe (enter PipeLock s)) with (kpipe s). unfold pr_waiting.
    rewrite Hemp. destruct (Z.eqb_spec (writeopen (kpipe s)) 0); [contradiction|reflexivity]. }
  assert (Hnk : pkilled p (enter PipeLock s) = false).
  { unfold pkilled. change (procs (enter PipeLock s)) with (procs s).
    rewrite Hq, Hk. reflexivity. }
  erewrite loop_step.
  2:{ unfold iter_step. cbn [fst snd].
      rewrite pr_body_run
        by first [exact Hin | constructor; [exact Hw | constructor]].
      unfold pr_outcome. rewrite Hwait, Hnk. reflexivity. }
  set (s1 := woken _ _ _ w).
  assert (Hin1 : inlock PipeLock p s1) by (apply dispatched_woken, Hw).
  assert (Hk1 : kpipe s1 = kpipe w).
  { unfold s1, woken, set_slot. destruct (procs w !! p); reflexivity. }
  assert (Hkill1 : pkilled p s1 = true).
  { revert Hkw. unfold pkilled, s1, woken, set_slot.
    destruct (procs w !! p) as [qw|] eqn:Hqw; [|discriminate]. ksimpl.
    rewrite list_lookup_insert_eq by (eapply lookup_lt_Some, Hqw). auto. }
  erewrite loop_return.
  2:{ rewrite pr_body_run by (try exact Hin1; constructor).
      unfold pr_outcome, pr_waiting. rewrite Hk1, Hempw, Hkill1.
      destruct (Z.eqb_spec (writeopen (kpipe w)) 0); [contradiction|]. reflexivity. }
  cbn [bind_outcome runk fst]. unfold ret. cbn [runk fst].
  eexists. split; [reflexivity|].
  destruct Hw as (Hcw & Hpw & Hhw & Hnw & Hsw).
  unfold unlock, s1, woken, set_slot. destruct (procs w !! p); ksimpl;
    rewrite filter_cons_False by (intros H; apply H; reflexivity);
    split_and!; reflexivity.
Qed.

(** X15. A writer asleep on a full pipe whose read end is then closed:
    dispatched again, it returns -1 and not the number of bytes it had
    put in the ring before it slept. *)
Theorem pipewrite_fails_after_read_close p q fuel addr n bs s w :
  entry p s -> procs s !! p = Some q -> killed q = 0 -> readopen (kpipe s) <> 0 ->
  pipe_wf (kpipe s) -> used (kpipe s) + Z.of_nat (length bs) = PIPESIZE ->
  Z.of_nat (length bs) < n ->
  (forall j ch, bs !! j = Some ch ->
     copyin (mem s) (pagetable q) (wrap_uint64 (addr + Z.of_nat j)) = Some ch) ->
  (S (length bs) < fuel)%nat ->
  dispatched p w -> readopen (kpipe w) = 0 ->
  exists sf,
    run (pipewrite copyin fuel addr n s) [w] = Done (-1) sf /\
    held sf = [] /\ kpipe sf = kpipe w.
Proof.
  intros He Hq Hk Hro Hwf Hroom Hn Hcp Hfuel Hw Hrow. unfold pipewrite, run.
  rewrite (enter_run PipeLock p s _ He). rewrite runk_bind.
  assert (Hin := enter_inlock PipeLock p s He).
  assert (Hwh : whead p q (enter PipeLock s)) by (split_and!; assumption).
  assert (Hws : Forall (dispatched p) [w]) by (constructor; [exact Hw | constructor]).
  replace fuel with (length bs + S (S (fuel - S (S (length bs)))))%nat by lia.
  rewrite (pw_puts p q addr _ bs 0 _ [w] _ Hwh);
    [| exact Hws | change (kpipe (enter PipeLock s)) with (kpipe s); lia | lia | exact Hcp].
  rewrite Z.add_0_l.
  destruct (put_all_wf bs (kpipe s) Hwf ltac:(lia)) as (Hwf' & Hc & Hu & Hro' & _).
  set (s1 := set_kpipe _ (enter PipeLock s)).
  assert (Hin1 : inlock PipeLock p s1) by exact Hin.
  assert (Hfull : pipe_full (kpipe s1) = true).
  { destruct Hwf' as [(_ & _ & Hf & _) _]. apply Hf. unfold s1. ksimpl.
    change (kpipe (enter PipeLock s)) with (kpipe s). lia. }
  erewrite loop_step.
  2:{ unfold iter_step. cbn [fst snd].
      rewrite pw_body_run by first [exact Hin1 | exact Hws]. unfold pw_outcome.
      destruct (Z.ltb_spec (Z.of_nat (length bs)) n) as [_|?]; [|lia]. cbn [negb].
      change (kpipe s1) with (put_all bs (kpipe s)) at 1. rewrite Hro'.
      destruct (Z.eqb_spec (readopen (kpipe s)) 0) as [?|_]; [contradiction|].
      rewrite (pkilled_slot p s1 q Hq), Hk. cbn [Z.eqb negb orb].
      rewrite Hfull. reflexivity. }
  set (s2 := woken _ _ _ w).
  assert (Hin2 : inlock PipeLock p s2) by (apply dispatched_woken, Hw).
  assert (Hk2 : kpipe s2 = kpipe w).
  { unfold s2, woken, set_slot. destruct (procs w !! p); reflexivity. }
  erewrite loop_return.
  2:{ rewrite pw_body_run by (try exact Hin2; constructor). unfold pw_outcome.
      destruct (Z.ltb_spec (Z.of_nat (length bs)) n) as [_|?]; [|lia]. cbn [negb].
      rewrite Hk2, Hrow. cbn [Z.eqb orb]. reflexivity. }
  cbn [bind_outcome runk fst]. unfold ret. cbn [runk fst].
  eexists. split; [reflexivity|].
  destruct Hw as (Hcw & Hpw & Hhw & Hnw & Hsw).
  unfold unlock, s2, woken, set_slot. destruct (procs w !! p); ksimpl;
    rewrite filter_cons_False by (intros H; apply H; reflexivity);
    split_and!; reflexivity.
Qed.

(** *** Creating and ending processes: the parameters *)

Variable PGSIZE : Z.
Variable PTE_R : Z.
Variable PTE_W : Z.
Variable PTE_X : Z.
Variable trampoline : Z.
Variable forkret : Z.
Variable initproc : option nat.
Variable kalloc : @M umem Z.
Variable uvmcreate : @M umem Z.
Variable mappages : Z -> Z -> Z -> Z -> Z -> @M umem Z.
Variable uvmcopy : Z -> Z -> Z -> @M umem Z.
Variable uvmalloc : Z -> Z -> Z -> @M umem Z.
Variable uvmdealloc : Z -> Z -> Z -> @M umem Z.
Variable filedup : Z -> @M umem Z.
Variable idup : Z -> @M umem Z.
Variable fileclose : Z -> @M umem unit.
Variable begin_op : @M umem unit.
Variable iput : Z -> @M umem unit.
Variable end_op : @M umem unit.
Variable trapframe_copy : Z -> Z -> @M umem unit.
Variable trapframe_set_a0 : Z -> Z -> @M umem unit.
Variable safestrcpy : list Z -> list Z -> Z -> list Z.

Local Abbreviation the_proc_pagetable :=
  (proc_pagetable TRAMPOLINE TRAPFRAME PGSIZE PTE_R PTE_W PTE_X trampoline
                  uvmcreate mappages).
Local Abbreviation the_allocproc :=
  (allocproc TRAMPOLINE TRAPFRAME PGSIZE PTE_R PTE_W PTE_X trampoline forkret
             kalloc uvmcreate mappages).
Local Abbreviation the_fork :=
  (fork TRAMPOLINE TRAPFRAME PGSIZE PTE_R PTE_W PTE_X trampoline forkret
        kalloc uvmcreate mappages uvmcopy filedup idup trapframe_copy
        trapframe_set_a0 safestrcpy).
Local Abbreviation the_exit := (exit initproc fileclose begin_op iput end_op).
Local Abbreviation the_growproc := (growproc uvmalloc uvmdealloc).

(** *** exit *)

Lemma same_kernel_refl s : same_kernel s s.
Proof. repeat split. Qed.

Lemma same_kernel_trans s1 s2 s3 :
  same_kernel s1 s2 -> same_kernel s2 s3 -> same_kernel s1 s3.
Proof.
  intros (H1 & H2 & H3 & H4 & H5) (G1 & G2 & G3 & G4 & G5).
  unfold same_kernel. rewrite G1, G2, G3, G4, G5. repeat split; assumption.
Qed.

Lemma same_kernel_set_procs s s' ps :
  same_kernel s s' -> same_kernel (set_procs ps s) (set_procs ps s').
Proof. intros (H1 & H2 & H3 & H4 & H5). repeat split; assumption. Qed.

(** A call of an external function in the middle of a computation. *)
Lemma extern_bind {A B} (m : @M umem A) (f : A -> @M umem B) s :
  extern m -> exists a s', same_kernel s s' /\ bind m f s = f a s'.
Proof.
  intros Hm. destruct (Hm s) as (a & s' & Heq & Hs). exists a, s'.
  split; [exact Hs|]. unfold bind. rewrite Heq. reflexivity.
Qed.

Lemma returns_bind {A B} (m : @M umem A) (f : A -> @M umem B) a s :
  returns m a -> exists s', same_kernel s s' /\ bind m f s = f a s'.
Proof.
  intros Hm. destruct (Hm s) as (s' & Heq & Hs). exists s'.
  split; [exact Hs|]. unfold bind. rewrite Heq. reflexivity.
Qed.

Lemma close_files_run p : forall n fd pr s,
  (forall f, extern (fileclose f)) ->
  procs s !! p = Some pr -> (fd + n = length (ofile pr))%nat ->
  exists s',
    close_files fileclose n fd p s = Ret tt s' /\
    procs s' = <[p := set_ofile (take fd (ofile pr) ++ replicate n 0) pr]> (procs s) /\
    kcpu s' = kcpu s /\ held s' = held s /\ nextpid s' = nextpid s /\
    kpipe s' = kpipe s.
Proof.
  induction n as [|n IH]; intros fd pr s Hext Hp Hlen.
  - exists s. cbn [close_files replicate]. rewrite app_nil_r.
    rewrite take_ge by lia.
    replace (set_ofile (ofile pr) pr) with pr by (destruct pr; reflexivity).
    rewrite list_insert_id by exact Hp. repeat split.
  - cbn [close_files]. erewrite bind_eq by (apply getp_ok; exact Hp). cbn [bindr].
    destruct (lookup_lt_is_Some_2 (ofile pr) fd ltac:(lia)) as [f Hf]. rewrite Hf.
    assert (Hnext : forall s1,
              procs s1 = <[p := set_ofile (<[fd := 0]> (ofile pr)) pr]> (procs s) \/
              (f = 0 /\ procs s1 = procs s) ->
              kcpu s1 = kcpu s -> held s1 = held s -> nextpid s1 = nextpid s ->
              kpipe s1 = kpipe s ->
              exists s',
                close_files fileclose n (S fd) p s1 = Ret tt s' /\
                procs s' = <[p := set_ofile (take fd (ofile pr) ++ replicate (S n) 0) pr]>
                             (procs s) /\
                kcpu s' = kcpu s /\ held s' = held s /\ nextpid s' = nextpid s /\
                kpipe s' = kpipe s).
    { intros s1 Hps Hk Hh Hn Hpi.
      assert (Hlt : (p < length (procs s))%nat) by (eapply lookup_lt_Some, Hp).
      assert (Hp1 : procs s1 !! p = Some (set_ofile (<[fd := 0]> (ofile pr)) pr)).
      { destruct Hps as [-> | [-> ->]].
        - apply list_lookup_insert_eq. exact Hlt.
        - rewrite Hp. f_equal. destruct pr; cbn [ofile set_ofile] in Hf |- *.
          rewrite list_insert_id by exact Hf. reflexivity. }
      destruct (IH (S fd) _ s1 Hext Hp1) as (s' & Hrun & Hps' & Hk' & Hh' & Hn' & Hpi').
      { cbn [ofile set_ofile]. rewrite length_insert. lia. }
      exists s'. split; [exact Hrun|].
      rewrite Hk', Hh', Hn', Hpi', Hk, Hh, Hn, Hpi. split; [|repeat split].
      rewrite Hps'. cbn [ofile set_ofile].
      replace (take (S fd) (<[fd:=0]> (ofile pr)) ++ replicate n 0)
        with (take fd (ofile pr) ++ replicate (S n) 0).
      2:{ rewrite (take_S_r _ _ 0) by (apply list_lookup_insert_eq; lia).
          rewrite take_insert_ge by lia. rewrite <- app_assoc. reflexivity. }
      destruct Hps as [-> | [_ ->]].
      - rewrite list_insert_insert_eq. reflexivity.
      - reflexivity. }
    destruct (Z.eqb_spec f 0) as [Hz|Hnz]; cbn [negb].
    + unfold bind at 1, ret at 1. cbn [bindr]. apply Hnext; auto.
    + unfold bind at 1.
      destruct (extern_bind (fileclose f)
                  (fun _ => setp p (fun q => set_ofile (<[fd:=0]> (ofile q)) q)) s (Hext f))
        as ([] & s1 & (Hs1 & Hk1 & Hh1 & Hn1 & Hp1) & Heq).
      rewrite Heq.
      erewrite setp_ok by (rewrite Hs1; exact Hp). cbn [bindr].
      apply Hnext; ksimpl; try assumption.
      left. rewrite Hs1. reflexivity.
Qed.

Lemma wake_slot_idem ch me j q :
  wake_slot ch me j (wake_slot ch me j q) = wake_slot ch me j q.
Proof.
  unfold wake_slot.
  destruct (bool_decide (Some j ≠ me) && bool_decide (state q = SLEEPING)
            && bool_decide (chan q = ch)) eqn:Hw.
  - cbn [state chan set_state].
    rewrite (bool_decide_eq_false_2 (RUNNABLE = SLEEPING)) by discriminate.
    rewrite andb_false_r. reflexivity.
  - rewrite Hw. reflexivity.
Qed.

Lemma wake_slot_adopt ch me j p q :
  wake_slot ch me j (adopt initproc p q) = adopt initproc p (wake_slot ch me j q).
Proof.
  unfold wake_slot, adopt.
  destruct (bool_decide (parent q = Some p)) eqn:Hp;
    destruct (bool_decide (Some j ≠ me) && bool_decide (state q = SLEEPING)
              && bool_decide (chan q = ch)) eqn:Hw;
    cbn [state chan parent set_parent set_state]; rewrite ?Hp, ?Hw; reflexivity.
Qed.

Lemma parent_wake_slot ch me j q : parent (wake_slot ch me j q) = parent q.
Proof. unfold wake_slot. destruct (_ && _); reflexivity. Qed.

Lemma has_child_fmap p l :
  has_child p l = existsb (fun x => bool_decide (x = Some p)) (parent <$> l).
Proof. induction l as [|q l IH]; [reflexivity|]. cbn. rewrite <- IH. reflexivity. Qed.

Lemma rp_slot_none i me j q :
  (j < i)%nat -> rp_slot initproc false i me j q = q.
Proof.
  intros Hlt. unfold rp_slot. cbn zeta.
  rewrite bool_decide_eq_false_2 by lia. reflexivity.
Qed.

Lemma set_procs_same s : set_procs (procs s) s = s.
Proof. destruct s; reflexivity. Qed.

Lemma inlock_set_procs lk p ps s :
  inlock lk p s -> length ps = length (procs s) -> inlock lk p (set_procs ps s).
Proof.
  intros (Hc & Hp & Hh & Hn & Hs) Hlen. unfold inlock. ksimpl. rewrite Hlen.
  split_and!; assumption.
Qed.

Lemma reparent_scan_run me n : forall i s,
  inlock WaitLock me s -> (i + n = length (procs s))%nat ->
  reparent_scan initproc n i (Some me) s =
  Ret tt (set_procs (imap (rp_slot initproc (has_child me (drop i (procs s))) i me)
                          (procs s)) s).
Proof.
  induction n as [|n IH]; intros i s Hin Hlen.
  - cbn [reparent_scan]. unfold ret. f_equal.
    rewrite drop_ge by lia. cbn [has_child existsb].
    rewrite <- (set_procs_same s) at 1. f_equal.
    apply list_eq. intros j. rewrite list_lookup_imap.
    destruct (procs s !! j) as [q|] eqn:Hj; [|reflexivity].
    cbn [fmap option_fmap option_map]. rewrite rp_slot_none; [reflexivity|].
    apply lookup_lt_Some in Hj. lia.
  - destruct (lookup_lt_is_Some_2 (procs s) i ltac:(lia)) as [pp Hpp].
    cbn [reparent_scan]. erewrite bind_eq by (apply getp_ok; exact Hpp). cbn [bindr].
    rewrite (drop_S _ _ _ Hpp). cbn [has_child existsb].
    fold (has_child me (drop (S i) (procs s))).
    destruct (bool_decide_reflect (parent pp = Some me)) as [Hch|Hch]; cbn [orb].
    + unfold bind at 1. unfold bind at 1.
      erewrite setp_ok by exact Hpp. cbn [bindr].
      set (s1 := set_procs _ s).
      assert (Hin1 : inlock WaitLock me s1).
      { apply inlock_set_procs; [exact Hin | apply length_insert]. }
      destruct (inlock_wakeup WaitLock me (chan_of initproc) s1 Hin1) as [Hw Hin2];
        [discriminate|].
      rewrite Hw. cbn [bindr].
      rewrite IH; [| exact Hin2 | unfold woke, s1; ksimpl; rewrite wake_length, length_insert; lia].
      f_equal. apply kstate_eq; try reflexivity.
      unfold woke, s1. ksimpl. rewrite (proj1 Hin).
      assert (Hb : has_child me (drop (S i) (wake (chan_of initproc) (Some me)
                      (<[i:=set_parent initproc pp]> (procs s))))
                   = has_child me (drop (S i) (procs s))).
      { rewrite !has_child_fmap. f_equal. apply list_eq. intros j.
        rewrite !list_lookup_fmap, !lookup_drop, wake_lookup.
        rewrite list_lookup_insert_ne by lia.
        destruct (procs s !! (S i + j)%nat); [|reflexivity].
        cbn [fmap option_fmap option_map]. rewrite parent_wake_slot. reflexivity. }
      rewrite Hb. apply list_eq. intros j.
      rewrite !list_lookup_imap, wake_lookup.
      destruct (decide (j = i)) as [->|Hne].
      * rewrite list_lookup_insert_eq by lia. rewrite Hpp.
        cbn [fmap option_fmap option_map]. f_equal. unfold rp_slot. cbn zeta.
        rewrite bool_decide_eq_false_2 by lia.
        rewrite bool_decide_eq_true_2 by lia.
        replace (adopt initproc me pp) with (set_parent initproc pp)
          by (unfold adopt; rewrite bool_decide_eq_true_2 by exact Hch; reflexivity).
        destruct (has_child me (drop (S i) (procs s))); [apply wake_slot_idem|reflexivity].
      * rewrite list_lookup_insert_ne by (intros E; apply Hne; symmetry; exact E).
        destruct (procs s !! j) as [q|]; [|reflexivity].
        cbn [fmap option_fmap option_map]. f_equal. unfold rp_slot. cbn zeta.
        destruct (bool_decide_reflect (S i <= j)%nat) as [Hle|Hle].
        -- rewrite (bool_decide_eq_true_2 (i <= j)%nat) by lia.
           rewrite <- wake_slot_adopt.
           destruct (has_child me (drop (S i) (procs s))); [apply wake_slot_idem|reflexivity].
        -- rewrite (bool_decide_eq_false_2 (i <= j)%nat) by lia.
           destruct (has_child me (drop (S i) (procs s))); [apply wake_slot_idem|reflexivity].
    + unfold bind at 1, ret at 1. cbn [bindr].
      rewrite IH by (try exact Hin; lia). f_equal.
      apply kstate_eq; try reflexivity. ksimpl.
      apply list_eq. intros j. rewrite !list_lookup_imap.
      destruct (procs s !! j) as [q|] eqn:Hj; [|reflexivity].
      cbn [fmap option_fmap option_map]. f_equal. unfold rp_slot. cbn zeta.
      destruct (decide (j = i)) as [->|Hne].
      * rewrite bool_decide_eq_false_2 by lia.
        rewrite bool_decide_eq_true_2 by lia.
        rewrite Hpp in Hj. injection Hj as <-.
        unfold adopt. rewrite bool_decide_eq_false_2 by exact Hch. reflexivity.
      * destruct (bool_decide_reflect (S i <= j)%nat) as [Hle|Hle].
        -- rewrite (bool_decide_eq_true_2 (i <= j)%nat) by lia. reflexivity.
        -- rewrite (bool_decide_eq_false_2 (i <= j)%nat) by lia. reflexivity.
Qed.

Lemma imap_insert {A B} (f : nat -> A -> B) (l : list A) i x :
  imap f (<[i := x]> l) = <[i := f i x]> (imap f l).
Proof.
  apply list_eq. intros j. rewrite list_lookup_imap.
  destruct (decide (i = j)) as [->|Hne].
  - destruct (decide (j < length l)%nat) as [Hlt|Hge].
    + rewrite !list_lookup_insert_eq by (rewrite ?length_imap; exact Hlt). reflexivity.
    + rewrite !lookup_ge_None_2 by (rewrite ?length_insert, ?length_imap; lia).
      reflexivity.
  - rewrite !list_lookup_insert_ne by exact Hne. rewrite list_lookup_imap. reflexivity.
Qed.

(** Step over a call of an external function. *)
Ltac ext_step H s' :=
  match goal with
  | |- context [bind ?m ?f ?s] =>
      let a := fresh "a" in
      let Hs := fresh "Hs" in
      let He := fresh "He" in
      destruct (extern_bind m f s H) as (a & s' & Hs & He); rewrite He; clear He
  end.

Lemma orphaned_insert p ps x pr :
  ps !! p = Some pr -> parent pr <> Some p -> parent x = parent pr ->
  orphaned initproc p (<[p := x]> ps) = <[p := x]> (orphaned initproc p ps).
Proof.
  intros Hp Hnp Hx. unfold orphaned.
  assert (Hb : has_child p (<[p := x]> ps) = has_child p ps).
  { rewrite !has_child_fmap. f_equal. rewrite list_fmap_insert, Hx.
    apply list_insert_id. rewrite list_lookup_fmap, Hp. reflexivity. }
  rewrite Hb, imap_insert. f_equal.
  unfold rp_slot, adopt. cbn zeta. rewrite bool_decide_eq_true_2 by lia.
  rewrite (bool_decide_eq_false_2 (parent x = Some p)) by (rewrite Hx; exact Hnp).
  destruct (has_child p ps); [|reflexivity].
  unfold wake_slot. rewrite bool_decide_eq_false_2 by (intros H; apply H; reflexivity).
  reflexivity.
Qed.

Lemma wake_insert_self ch p ps x :
  wake ch (Some p) (<[p := x]> ps) = <[p := x]> (wake ch (Some p) ps).
Proof.
  unfold wake. rewrite imap_insert. f_equal. unfold wake_slot.
  rewrite bool_decide_eq_false_2 by (intros H; apply H; reflexivity). reflexivity.
Qed.

Ltac ext_step_eq H s' Heq :=
  match goal with
  | |- context [bind ?m ?f ?s] =>
      let a := fresh "a" in
      let Hs := fresh "Hs" in
      destruct (H s) as (a & s' & Heq & Hs); destruct a;
      rewrite (bind_eq m f s _ Heq); cbn [bindr]
  end.

Lemma exit_run status p pr s :
  (forall f, extern (fileclose f)) -> extern begin_op ->
  (forall c, extern (iput c)) -> extern end_op ->
  entry p s -> procs s !! p = Some pr ->
  Some p <> initproc -> parent pr <> Some p ->
  exists s1 k,
    the_exit status s = Swtch s1 k /\
    procs s1 = <[p := exited status pr]>
                 (wake (chan_of (parent pr)) (Some p) (orphaned initproc p (procs s))) /\
    held s1 = [ProcLock p] /\ noff (kcpu s1) = 1 /\ sie (kcpu s1) = false /\
    cproc (kcpu s1) = Some p /\ nextpid s1 = nextpid s /\ kpipe s1 = kpipe s /\
    (exists sa sb sc sd,
       close_files fileclose (length (ofile pr)) 0 p (set_kcpu (norm_cpu (kcpu s)) s)
         = Ret tt sa /\
       begin_op sa = Ret tt sb /\ iput (cwd pr) sb = Ret tt sc /\
       end_op sc = Ret tt sd /\ mem s1 = mem sd) /\
    forall w, exists w', k w = Panic "zombie exit" w'.
Proof.
  intros Hfc Hbo Hip Heo (Hc & Hlt & Hh & Hn) Hp Hni Hnp. unfold exit.
  erewrite bind_eq by (apply myproc_ok; lia). cbn [bindr].
  rewrite Hc. rewrite bool_decide_eq_false_2 by exact Hni.
  unfold bind at 1, deref, ret at 1. cbn [bindr].
  set (s0 := set_kcpu _ s).
  erewrite bind_eq by (apply getp_ok; exact Hp). cbn [bindr].
  destruct (close_files_run p (length (ofile pr)) 0 pr s0 Hfc Hp eq_refl)
    as (s1 & Hcf & Hp1 & Hk1 & Hh1 & Hn1 & Hpi1).
  erewrite bind_eq by exact Hcf. cbn [bindr]. cbn [take app] in Hp1.
  set (x := set_ofile (replicate (length (ofile pr)) 0) pr) in Hp1.
  ext_step_eq Hbo s2 Hbo2. destruct Hs as (Hp2 & Hk2 & Hh2 & Hn2 & Hpi2).
  assert (Hx2 : procs s2 !! p = Some x).
  { rewrite Hp2, Hp1. apply list_lookup_insert_eq. exact Hlt. }
  erewrite bind_eq by (apply getp_ok; exact Hx2). cbn [bindr].
  ext_step_eq (Hip (cwd x)) s3 Hip3. destruct Hs as (Hp3 & Hk3 & Hh3 & Hn3 & Hpi3).
  ext_step_eq Heo s4 Heo4. destruct Hs as (Hp4 & Hk4 & Hh4 & Hn4 & Hpi4).
  assert (Hx4 : procs s4 !! p = Some x) by (rewrite Hp4, Hp3; exact Hx2).
  erewrite bind_eq by (apply setp_ok; exact Hx4). cbn [bindr].
  set (s5 := set_procs _ s4).
  assert (Hh5 : held s5 = []).
  { unfold s5. ksimpl. rewrite Hh4, Hh3, Hh2, Hh1. exact Hh. }
  assert (Hk5 : kcpu s5 = norm_cpu (kcpu s)).
  { unfold s5. ksimpl. rewrite Hk4, Hk3, Hk2, Hk1. reflexivity. }
  assert (Hp5 : procs s5 = <[p := set_cwd 0 x]> (procs s)).
  { unfold s5. ksimpl. rewrite Hp4, Hp3, Hp2, Hp1. apply list_insert_insert_eq. }
  erewrite bind_eq.
  2:{ apply acquire_ok. rewrite Hh5. apply not_elem_of_nil. }
  cbn [bindr]. set (s6 := lock WaitLock s5).
  assert (Hin6 : inlock WaitLock p s6).
  { unfold inlock, s6. ksimpl. rewrite Hk5, Hh5, Hp5, length_insert.
    rewrite norm_cpu_cproc, norm_cpu_noff, Hn. split_and!; try reflexivity; assumption. }
  unfold reparent. unfold bind at 1. unfold bind at 1, NPROC at 1, gets at 1. cbn [bindr].
  rewrite reparent_scan_run by (try exact Hin6; reflexivity). cbn [bindr].
  rewrite drop_0. fold (orphaned initproc p (procs s6)).
  set (s7 := set_procs _ s6).
  assert (Hp7 : procs s7 = <[p := set_cwd 0 x]> (orphaned initproc p (procs s))).
  { unfold s7, s6. ksimpl. rewrite Hp5.
    apply (orphaned_insert p (procs s) (set_cwd 0 x) pr Hp Hnp). reflexivity. }
  assert (Hin7 : inlock WaitLock p s7).
  { apply inlock_set_procs; [exact Hin6 | apply length_imap]. }
  assert (Hlen7 : (p < length (orphaned initproc p (procs s)))%nat).
  { unfold orphaned. rewrite length_imap. exact Hlt. }
  assert (Hx7 : procs s7 !! p = Some (set_cwd 0 x)).
  { rewrite Hp7. apply list_lookup_insert_eq. exact Hlen7. }
  erewrite bind_eq by (apply getp_ok; exact Hx7). cbn [bindr].
  change (parent (set_cwd 0 x)) with (parent pr).
  destruct (inlock_wakeup WaitLock p (chan_of (parent pr)) s7 Hin7) as [Hw Hin8];
    [discriminate|].
  erewrite bind_eq by exact Hw. cbn [bindr]. set (s8 := woke _ s7) in Hin8 |- *.
  assert (Hp8 : procs s8 = <[p := set_cwd 0 x]>
            (wake (chan_of (parent pr)) (Some p) (orphaned initproc p (procs s)))).
  { unfold s8, woke. ksimpl. rewrite (proj1 Hin7), Hp7. apply wake_insert_self. }
  assert (Hlen8 : (p < length (wake (chan_of (parent pr)) (Some p)
                                 (orphaned initproc p (procs s))))%nat).
  { rewrite wake_length. exact Hlen7. }
  destruct Hin8 as (Hc8 & Hlt8 & Hh8 & Hn8 & Hs8).
  erewrite bind_eq.
  2:{ apply acquire_ok. rewrite Hh8. intros H%list_elem_of_singleton. discriminate. }
  cbn [bindr].
  erewrite bind_eq.
  2:{ apply setp_ok with (pr := set_cwd 0 x). ksimpl. rewrite Hp8.
      apply list_lookup_insert_eq. exact Hlen8. }
  cbn [bindr].
  erewrite bind_eq.
  2:{ apply setp_ok. ksimpl. apply list_lookup_insert_eq.
      rewrite Hp8, length_insert. exact Hlen8. }
  cbn [bindr].
  erewrite bind_eq.
  2:{ apply release_ok; ksimpl; [rewrite Hh8; right; left | reflexivity | lia]. }
  cbn [bindr]. set (s9 := unlock WaitLock _).
  assert (Hp9 : procs s9 = <[p := exited status pr]>
            (wake (chan_of (parent pr)) (Some p) (orphaned initproc p (procs s)))).
  { unfold s9, unlock. ksimpl. rewrite Hp8, !list_insert_insert_eq. reflexivity. }
  assert (Hh9 : held s9 = [ProcLock p]).
  { unfold s9, unlock. ksimpl. rewrite Hh8.
    rewrite filter_cons_True by discriminate.
    rewrite filter_cons_False by (intros H; apply H; reflexivity). reflexivity. }
  assert (Hn9 : noff (kcpu s9) = 1) by (unfold s9, unlock; ksimpl; lia).
  assert (Hs9 : sie (kcpu s9) = false).
  { unfold s9, unlock. ksimpl. rewrite Hn8. cbn. reflexivity. }
  assert (Hc9 : cproc (kcpu s9) = Some p) by (unfold s9, unlock; ksimpl; exact Hc8).
  erewrite bind_eq.
  2:{ apply (sched_unfold s9 p (exited status pr)); [lia | exact Hc9 |].
      rewrite Hp9. apply list_lookup_insert_eq. exact Hlen8. }
  cbn zeta. rewrite Hh9. rewrite bool_decide_eq_true_2 by left. cbn [negb].
  rewrite Hn9. cbn [Z.eqb Pos.eqb negb].
  rewrite bool_decide_eq_false_2 by discriminate. cbn [bindr].
  rewrite norm_cpu_critical by (rewrite ?Hn9, ?Hs9; first [lia | reflexivity]).
  replace (set_kcpu (kcpu s9) s9) with s9 by (destruct s9; reflexivity).
  eexists _, _. split; [reflexivity|].
  split; [exact Hp9|]. split; [exact Hh9|]. split; [exact Hn9|]. split; [exact Hs9|].
  split; [exact Hc9|].
  split. { unfold s9, unlock, s8, woke, s7, s6, lock. ksimpl. unfold s5. ksimpl.
           rewrite Hn4, Hn3, Hn2, Hn1. reflexivity. }
  split. { unfold s9, unlock, s8, woke, s7, s6, lock. ksimpl. unfold s5. ksimpl.
           rewrite Hpi4, Hpi3, Hpi2, Hpi1. reflexivity. }
  split. { exists s1, s2, s3, s4. split_and!; try assumption.
           unfold s9, unlock, s8, woke, s7, s6, lock. ksimpl. unfold s5. ksimpl.
           reflexivity. }
  intros w. eexists. unfold set_intena, modify, panic. cbn [bindr]. reflexivity.
Qed.

Lemma logs_extern {A} (obs : umem -> list fs_call) (m : @M umem A) c :
  logs obs m c -> extern m.
Proof.
  intros H s. destruct (H s) as (a & s' & Heq & Hs & _). exists a, s'. auto.
Qed.

(** The loop of [exit] over the open files calls [fileclose] on each
    file that is open, in the order of the descriptors. *)
Lemma close_files_log (obs : umem -> list fs_call) p : forall n fd pr s s',
  (forall f, logs obs (fileclose f) [FsClose f]) ->
  procs s !! p = Some pr -> (fd + n = length (ofile pr))%nat ->
  close_files fileclose n fd p s = Ret tt s' ->
  obs (mem s') = obs (mem s) ++ (FsClose <$> filter (fun f => f ≠ 0) (drop fd (ofile pr))).
Proof.
  induction n as [|n IH]; intros fd pr s s' Hfc Hp Hlen Hrun.
  - cbn [close_files] in Hrun. injection Hrun as <-.
    rewrite drop_ge by lia. rewrite filter_nil, fmap_nil, app_nil_r. reflexivity.
  - cbn [close_files] in Hrun.
    erewrite bind_eq in Hrun by (apply getp_ok; exact Hp). cbn [bindr] in Hrun.
    destruct (lookup_lt_is_Some_2 (ofile pr) fd ltac:(lia)) as [f Hf].
    rewrite Hf in Hrun. rewrite (drop_S _ _ _ Hf), filter_cons.
    destruct (Z.eqb_spec f 0) as [Hz|Hnz]; cbn [negb] in Hrun.
    + unfold bind at 1, ret at 1 in Hrun. cbn [bindr] in Hrun.
      destruct (decide (f ≠ 0)) as [?|_]; [contradiction|].
      apply (IH (S fd) pr s s' Hfc Hp ltac:(lia) Hrun).
    + unfold bind at 1 in Hrun.
      destruct (Hfc f s) as (a & s1 & Heq & (Hp1 & _) & Hobs).
      rewrite (bind_eq _ _ _ _ Heq) in Hrun. cbn [bindr] in Hrun.
      erewrite setp_ok in Hrun by (rewrite Hp1; exact Hp). cbn [bindr] in Hrun.
      destruct (decide (f ≠ 0)) as [_|?]; [|contradiction].
      assert (Hlt : (p < length (procs s1))%nat).
      { rewrite Hp1. eapply lookup_lt_Some, Hp. }
      rewrite (IH (S fd) (set_ofile (<[fd := 0]> (ofile pr)) pr)
                 (set_procs (<[p := set_ofile (<[fd := 0]> (ofile pr)) pr]> (procs s1)) s1)
                 s' Hfc (list_lookup_insert_eq _ _ _ Hlt)
                 ltac:(cbn [ofile set_ofile]; rewrite length_insert; lia) Hrun).
      ksimpl. rewrite Hobs. cbn [ofile set_ofile].
      rewrite drop_insert_lt by lia. rewrite fmap_cons, <- app_assoc. reflexivity.
Qed.

(** X16. [exit(status)] called by a process [p] that holds no lock, the calls
    into the file system returning and leaving the kernel state of this
    model alone (they are seen through the log [obs]).  The init process
    panics.  Any other process (not its own parent) never returns.  It
    has called [fileclose] on each of its open files, in the order of the
    descriptors, and then [begin_op], [iput] on its working directory and
    [end_op], and nothing else of the file system.  It switches away for
    good as a ZOMBIE with [xstate = status], the entries of [ofile] and
    [cwd] cleared, holding only its slot lock; its children have been
    given to [initproc], which has been woken if there were any, and its
    parent has been woken; should it ever be resumed, it panics. *)
Theorem exit_becomes_zombie (obs : umem -> list fs_call) status p pr s :
  (forall f, logs obs (fileclose f) [FsClose f]) -> logs obs begin_op [FsBegin] ->
  (forall c, logs obs (iput c) [FsIput c]) -> logs obs end_op [FsEnd] ->
  entry p s -> procs s !! p = Some pr -> parent pr <> Some p ->
  if bool_decide (Some p = initproc)
  then exists s', the_exit status s = Panic "init exiting" s'
  else
    exists s1 k,
      the_exit status s = Swtch s1 k /\
      procs s1 = <[p := exited status pr]>
                   (wake (chan_of (parent pr)) (Some p)
                         (orphaned initproc p (procs s))) /\
      obs (mem s1) = obs (mem s) ++
                     (FsClose <$> filter (fun f => f ≠ 0) (ofile pr)) ++
                     [FsBegin; FsIput (cwd pr); FsEnd] /\
      held s1 = [ProcLock p] /\ noff (kcpu s1) = 1 /\ sie (kcpu s1) = false /\
      cproc (kcpu s1) = Some p /\ nextpid s1 = nextpid s /\ kpipe s1 = kpipe s /\
      forall w, exists w', k w = Panic "zombie exit" w'.
Proof.
  intros Hfc Hbo Hip Heo He Hp Hnp.
  destruct (bool_decide_reflect (Some p = initproc)) as [Hi|Hi].
  - destruct He as (Hc & Hlt & Hh & Hn). unfold exit.
    erewrite bind_eq by (apply myproc_ok; lia). cbn [bindr].
    rewrite Hc. rewrite bool_decide_eq_true_2 by exact Hi. eexists. reflexivity.
  - destruct (exit_run status p pr s
                (fun f => logs_extern obs _ _ (Hfc f)) (logs_extern obs _ _ Hbo)
                (fun c => logs_extern obs _ _ (Hip c)) (logs_extern obs _ _ Heo)
                He Hp Hi Hnp)
      as (s1 & k & Hex & Hp1 & Hh1 & Hn1 & Hs1 & Hc1 & Hnp1 & Hpi1 & Hfs & Hk).
    exists s1, k. split_and!; try assumption.
    destruct Hfs as (sa & sb & sc & sd & Ha & Hb & Hc & Hd & ->).
    destruct (Heo sc) as (a1 & s1' & Heq1 & _ & Hobs1). rewrite Hd in Heq1.
    injection Heq1 as _ <-. rewrite Hobs1.
    destruct (Hip (cwd pr) sb) as (a2 & s2' & Heq2 & _ & Hobs2). rewrite Hc in Heq2.
    injection Heq2 as _ <-. rewrite Hobs2.
    destruct (Hbo sa) as (a3 & s3' & Heq3 & _ & Hobs3). rewrite Hb in Heq3.
    injection Heq3 as _ <-. rewrite Hobs3.
    rewrite (close_files_log obs p _ 0 pr (set_kcpu (norm_cpu (kcpu s)) s) sa Hfc Hp
               eq_refl Ha).
    ksimpl. rewrite drop_0, <- !app_assoc. reflexivity.
Qed.

(** [wait] when the scan finds a ZOMBIE child. *)
Lemma wait_reaps p me fuel addr s k z :
  entry p s -> procs s !! p = Some me ->
  list_find (zombie_child p) (procs s) = Some (k, z) ->
  wait copyout TRAMPOLINE TRAPFRAME (S fuel) addr s =
  if bool_decide (addr ≠ 0) then
    let r := copyout (mem s) (pagetable me) addr (int_bytes (xstate z)) in
    if r.1 then Ret (pid z) (unlock WaitLock (reaped k z r.2 (enter WaitLock s)))
    else Ret (-1) (unlock WaitLock (set_mem r.2 (enter WaitLock s)))
  else Ret (pid z) (unlock WaitLock (reaped k z (mem s) (enter WaitLock s))).
Proof.
  intros He Hme Hfind. unfold wait.
  rewrite (enter_run WaitLock p s
    (fun pr => bind (loop (S fuel) (wait_body copyout TRAMPOLINE TRAPFRAME pr addr) tt)
       (fun r => match r with inr v => ret v | inl _ => fun _ => Diverge end)) He).
  assert (Hin := enter_inlock WaitLock p s He).
  apply list_find_Some in Hfind as (Hz & Hzc & Hbefore).
  assert (Hscan := wait_scan_zombie (length (procs s)) 0%nat p addr false
            (enter WaitLock s) k z me Hin eq_refl ltac:(lia) Hz Hzc
            ltac:(intros j y Hj Hy; eapply Hbefore; [exact Hy|lia]) Hme).
  cbn [loop]. unfold wait_body at 1.
  unfold bind at 1. unfold bind at 1. unfold bind at 1, NPROC at 1, gets at 1.
  cbn [bindr]. change (procs (enter WaitLock s)) with (procs s).
  erewrite bind_eq by exact Hscan. unfold reap.
  change (mem (enter WaitLock s)) with (mem s).
  destruct (bool_decide (addr ≠ 0)).
  - cbn zeta.
    destruct (copyout (mem s) (pagetable me) addr (int_bytes (xstate z))).1; reflexivity.
  - reflexivity.
Qed.

(** X17. The exit status reaches the parent.  After a process [c] has called
    [exit(status)], a [wait(addr)] by its parent that finds [c] as its
    first ZOMBIE child copies [status] to [addr], frees the slot of [c]
    and returns the pid of [c], with no lock held. *)
Theorem exit_status_reaches_wait status c pr s fuel addr :
  (forall f, extern (fileclose f)) -> extern begin_op ->
  (forall x, extern (iput x)) -> extern end_op ->
  entry c s -> procs s !! c = Some pr ->
  Some c <> initproc -> parent pr <> Some c ->
  exists s1 k,
    the_exit status s = Swtch s1 k /\
    procs s1 = <[c := exited status pr]>
                 (wake (chan_of (parent pr)) (Some c) (orphaned initproc c (procs s))) /\
    forall pp me sp z,
      entry pp sp -> procs sp = procs s1 -> procs sp !! pp = Some me ->
      list_find (zombie_child pp) (procs sp) = Some (c, z) ->
      addr <> 0 ->
      (copyout (mem sp) (pagetable me) addr (int_bytes status)).1 = true ->
      exists sf,
        wait copyout TRAMPOLINE TRAPFRAME (S fuel) addr sp = Ret (pid pr) sf /\
        mem sf = (copyout (mem sp) (pagetable me) addr (int_bytes status)).2 /\
        procs sf !! c = Some (freed (exited status pr)) /\ held sf = [].
Proof.
  intros Hfc Hbo Hip Heo He Hp Hni Hnp.
  destruct (exit_run status c pr s Hfc Hbo Hip Heo He Hp Hni Hnp)
    as (s1 & k & Hex & Hp1 & _).
  exists s1, k. split; [exact Hex|]. split; [exact Hp1|].
  intros pp me sp z Hep Hsp Hme Hfind Haddr Hco.
  assert (Hz : z = exited status pr).
  { apply list_find_Some in Hfind as (Hz & _). rewrite Hsp, Hp1 in Hz.
    rewrite list_lookup_insert_eq in Hz; [congruence|].
    rewrite wake_length. unfold orphaned. rewrite length_imap.
    destruct He as (_ & Hlt & _). exact Hlt. }
  subst z. rewrite (wait_reaps pp me fuel addr sp c _ Hep Hme Hfind).
  rewrite bool_decide_eq_true_2 by exact Haddr. cbn zeta.
  change (xstate (exited status pr)) with status. rewrite Hco.
  eexists. split; [reflexivity|].
  destruct Hep as (Hcp & Hltp & Hhp & Hnp').
  unfold unlock, reaped, set_trace, enter. ksimpl. rewrite Hhp.
  rewrite filter_cons_False by (intros H; apply H; reflexivity).
  split; [reflexivity|]. split; [|reflexivity].
  apply list_lookup_insert_eq. apply list_find_Some in Hfind as (Hz & _).
  eapply lookup_lt_Some, Hz.
Qed.

(** *** allocproc *)

(** Step over a call of an external function whose result is known. *)
Ltac ret_step H s' :=
  match goal with
  | |- context [bind ?m ?f ?s] =>
      let Hs := fresh "Hs" in
      let He := fresh "He" in
      destruct (returns_bind m f _ s H) as (s' & Hs & He); rewrite He; clear He
  end.

Lemma lock_norm lk s :
  noff (kcpu s) = 0 -> lock lk (set_kcpu (norm_cpu (kcpu s)) s) = lock lk s.
Proof.
  destruct s as [ps c h np pi m tr]. destruct c as [cp n ie si].
  cbn [kcpu noff]. intros ->. unfold lock, norm_cpu. cbn.
  destruct si; reflexivity.
Qed.

Lemma allocproc_scan_run n : forall i s,
  held s = [] -> noff (kcpu s) = 0 -> (i + n = length (procs s))%nat ->
  match list_find (fun q => state q = UNUSED) (drop i (procs s)) with
  | Some (j, pr) =>
      allocproc_scan n i s = Ret (Some (i + j)%nat) (lock (ProcLock (i + j)) s)
  | None =>
      allocproc_scan n i s =
      Ret None (match n with O => s | S _ => set_kcpu (norm_cpu (kcpu s)) s end)
  end.
Proof.
  induction n as [|n IH]; intros i s Hh Hn Hlen.
  - rewrite drop_ge by lia. reflexivity.
  - destruct (lookup_lt_is_Some_2 (procs s) i ltac:(lia)) as [pr Hp].
    rewrite (drop_S _ _ _ Hp). cbn [list_find allocproc_scan].
    assert (Hf : ProcLock i ∉ held s) by (rewrite Hh; apply not_elem_of_nil).
    erewrite bind_eq by (apply acquire_ok; exact Hf). cbn [bindr].
    erewrite bind_eq by (apply getp_ok; ksimpl; exact Hp). cbn [bindr].
    destruct (decide (state pr = UNUSED)) as [Hu|Hu].
    + rewrite bool_decide_eq_true_2 by exact Hu. rewrite Nat.add_0_r. reflexivity.
    + rewrite bool_decide_eq_false_2 by exact Hu.
      erewrite bind_eq.
      2:{ apply release_ok; ksimpl; [left | reflexivity | lia]. }
      cbn [bindr]. rewrite unlock_lock_gen by exact Hf.
      set (s1 := set_kcpu _ s).
      assert (Hn1 : noff (kcpu s1) = 0).
      { unfold s1. ksimpl. rewrite norm_cpu_noff. exact Hn. }
      specialize (IH (S i) s1 Hh Hn1 ltac:(unfold s1; ksimpl; lia)).
      change (procs s1) with (procs s) in IH.
      destruct (list_find (fun q => state q = UNUSED) (drop (S i) (procs s)))
        as [[j q]|]; cbn [fmap option_fmap option_map prod_map fst snd id].
      * rewrite IH. unfold s1. rewrite lock_norm by exact Hn.
        replace (S i + j)%nat with (i + S j)%nat by lia. reflexivity.
      * rewrite IH. f_equal. destruct n; [reflexivity|].
        unfold s1. ksimpl.
        rewrite (norm_cpu_idle (norm_cpu (kcpu s))) by (rewrite norm_cpu_noff; exact Hn).
        rewrite (norm_cpu_idle (kcpu s)) by exact Hn. reflexivity.
Qed.

Lemma allocproc_none_run s :
  held s = [] -> noff (kcpu s) = 0 ->
  list_find (fun q => state q = UNUSED) (procs s) = None ->
  exists s',
    the_allocproc s = Ret None s' /\
    procs s' = procs s /\ held s' = [] /\ noff (kcpu s') = 0 /\
    nextpid s' = nextpid s /\ trace s' = trace s.
Proof.
  intros Hh Hn Hfind. unfold allocproc.
  unfold bind at 1, NPROC at 1, gets at 1. cbn [bindr].
  assert (Hrun := allocproc_scan_run (length (procs s)) 0 s Hh Hn eq_refl).
  rewrite drop_0, Hfind in Hrun. erewrite bind_eq by exact Hrun. cbn [bindr].
  eexists. split; [reflexivity|].
  destruct (length (procs s)); ksimpl; rewrite ?norm_cpu_noff;
    split_and!; try reflexivity; assumption.
Qed.

(** X18. [allocproc] with no UNUSED slot in the table: it returns the null
    pointer, no lock is held and neither the table nor the pid counter
    has changed. *)
Theorem allocproc_no_free_slot s :
  held s = [] -> noff (kcpu s) = 0 ->
  list_find (fun q => state q = UNUSED) (procs s) = None ->
  exists s',
    allocproc TRAMPOLINE TRAPFRAME PGSIZE PTE_R PTE_W PTE_X trampoline forkret
              kalloc uvmcreate mappages s = Ret None s' /\
    procs s' = procs s /\ held s' = [] /\ noff (kcpu s') = 0 /\
    nextpid s' = nextpid s /\ trace s' = trace s.
Proof. apply allocproc_none_run. Qed.

(** [allocproc] up to the call of [kalloc], when slot [k] is the first
    UNUSED one. *)
Lemma allocproc_found k pr s (f : nat -> @M umem (option nat)) :
  held s = [] -> noff (kcpu s) = 0 ->
  list_find (fun q => state q = UNUSED) (procs s) = Some (k, pr) ->
  bind (allocproc_scan (length (procs s)) 0)
    (fun r => match r with
              | None => ret None
              | Some p =>
                  bind allocpid (fun pid =>
                    bind (setp p (set_pid pid)) (fun _ =>
                      bind (setp p (set_state USED)) (fun _ => f p)))
              end) s
  = f k
      (mkK (<[k := set_state USED (set_pid (nextpid s) pr)]> (procs s))
           (mkCpu (cproc (kcpu s)) 1 (sie (kcpu s)) false) [ProcLock k]
           (wrap_int (nextpid s + 1)) (kpipe s) (mem s) (trace s)).
Proof.
  intros Hh Hn Hfind.
  assert (Hrun := allocproc_scan_run (length (procs s)) 0 s Hh Hn eq_refl).
  rewrite drop_0, Hfind in Hrun. erewrite bind_eq by exact Hrun. cbn [bindr Nat.add].
  apply list_find_Some in Hfind as (Hp & _).
  assert (Hlt := lookup_lt_Some _ _ _ Hp).
  erewrite bind_eq.
  2:{ apply allocpid_ok; ksimpl; [rewrite Hh; intros H%list_elem_of_singleton; discriminate | lia]. }
  cbn [bindr].
  erewrite bind_eq by (apply setp_ok with (pr := pr); ksimpl; exact Hp). cbn [bindr].
  erewrite bind_eq by (apply setp_ok; ksimpl; apply list_lookup_insert_eq; exact Hlt).
  cbn [bindr]. f_equal. apply kstate_eq; ksimpl; try reflexivity.
  - apply list_insert_insert_eq.
  - revert Hn. destruct (kcpu s) as [cp n ie si]. cbn [noff cproc sie].
    intros ->. reflexivity.
  - rewrite Hh. reflexivity.
Qed.

Lemma same_kernel_slot s s' k q :
  same_kernel s s' -> procs s !! k = Some q -> procs s' !! k = Some q.
Proof. intros (Hp & _) H. rewrite Hp. exact H. Qed.

Lemma allocproc_success_run k pr tf pt s :
  held s = [] -> noff (kcpu s) = 0 ->
  list_find (fun q => state q = UNUSED) (procs s) = Some (k, pr) ->
  returns kalloc tf -> tf <> 0 -> returns uvmcreate pt -> pt <> 0 ->
  (forall a b c d e, returns (mappages a b c d e) 0) ->
  exists s',
    the_allocproc s = Ret (Some k) s' /\
    procs s' =
      <[k := mkProc USED (chan pr) (killed pr) (xstate pr) (nextpid s) (parent pr)
                    (kstack pr) (sz pr) pt tf (forkret, wrap_uint64 (kstack pr + PGSIZE))
                    (ofile pr) (cwd pr) (name pr)]> (procs s) /\
    held s' = [ProcLock k] /\
    kcpu s' = mkCpu (cproc (kcpu s)) 1 (sie (kcpu s)) false /\
    nextpid s' = wrap_int (nextpid s + 1) /\ kpipe s' = kpipe s.
Proof.
  intros Hh Hn Hfind Hka Htf Huc Hpt Hmp. unfold allocproc.
  unfold bind at 1, NPROC at 1, gets at 1. cbn [bindr].
  erewrite (allocproc_found k pr s _ Hh Hn Hfind).
  apply list_find_Some in Hfind as (Hp & _).
  assert (Hlt := lookup_lt_Some _ _ _ Hp).
  ret_step Hka s2. destruct Hs as (Hp2 & Hk2 & Hh2 & Hn2 & Hpi2).
  cbn [procs kcpu held nextpid kpipe] in Hp2, Hk2, Hh2, Hn2, Hpi2.
  erewrite bind_eq.
  2:{ apply setp_ok. rewrite Hp2. apply list_lookup_insert_eq. exact Hlt. }
  cbn [bindr]. destruct (Z.eqb_spec tf 0) as [?|_]; [contradiction|].
  unfold proc_pagetable. unfold bind at 1.
  ret_step Huc s3. destruct Hs as (Hp3 & Hk3 & Hh3 & Hn3 & Hpi3).
  destruct (Z.eqb_spec pt 0) as [?|_]; [contradiction|].
  ret_step (Hmp pt TRAMPOLINE PGSIZE trampoline (Z.lor PTE_R PTE_X)) s4.
  destruct Hs as (Hp4 & Hk4 & Hh4 & Hn4 & Hpi4).
  cbn [Z.ltb Z.compare].
  erewrite bind_eq.
  2:{ apply getp_ok. rewrite Hp4, Hp3. ksimpl. apply list_lookup_insert_eq.
      rewrite Hp2, length_insert. exact Hlt. }
  cbn [bindr]. cbn [trapframe set_trapframe].
  ret_step (Hmp pt TRAPFRAME PGSIZE tf (Z.lor PTE_R PTE_W)) s5.
  destruct Hs as (Hp5 & Hk5 & Hh5 & Hn5 & Hpi5).
  cbn [Z.ltb Z.compare]. unfold ret at 1. cbn [bindr].
  assert (Hq5 : procs s5 = <[k := set_trapframe tf (set_state USED (set_pid (nextpid s) pr))]>
                             (procs s)).
  { rewrite Hp5, Hp4, Hp3. ksimpl. rewrite Hp2. apply list_insert_insert_eq. }
  erewrite bind_eq.
  2:{ apply setp_ok. rewrite Hq5. apply list_lookup_insert_eq. exact Hlt. }
  cbn [bindr]. destruct (Z.eqb_spec pt 0) as [?|_]; [contradiction|].
  erewrite bind_eq.
  2:{ apply getp_ok. ksimpl. apply list_lookup_insert_eq.
      rewrite Hq5, length_insert. exact Hlt. }
  cbn [bindr].
  erewrite bind_eq.
  2:{ apply setp_ok. ksimpl. apply list_lookup_insert_eq.
      rewrite Hq5, length_insert. exact Hlt. }
  cbn [bindr]. unfold ret. eexists. split; [reflexivity|]. ksimpl.
  rewrite Hq5, !list_insert_insert_eq, Hh5, Hh4, Hh3, Hk5, Hk4, Hk3, Hn5, Hn4, Hn3,
    Hpi5, Hpi4, Hpi3.
  ksimpl. rewrite Hh2, Hk2, Hn2, Hpi2. split_and!; reflexivity.
Qed.

(** X19. [allocproc] when its allocations succeed: the first UNUSED slot is
    returned with its lock held (the only lock held), in state USED, with
    the next pid, the new trapframe page and page table, and a context
    that starts in [forkret] with the stack pointer at the top of the
    slot's kernel stack, [kstack + PGSIZE] computed in uint64. *)
Theorem allocproc_success k pr tf pt s :
  held s = [] -> noff (kcpu s) = 0 ->
  list_find (fun q => state q = UNUSED) (procs s) = Some (k, pr) ->
  returns kalloc tf -> tf <> 0 -> returns uvmcreate pt -> pt <> 0 ->
  (forall a b c d e, returns (mappages a b c d e) 0) ->
  exists s',
    the_allocproc s = Ret (Some k) s' /\
    procs s' =
      <[k := mkProc USED (chan pr) (killed pr) (xstate pr) (nextpid s) (parent pr)
                    (kstack pr) (sz pr) pt tf (forkret, wrap_uint64 (kstack pr + PGSIZE))
                    (ofile pr) (cwd pr) (name pr)]> (procs s) /\
    held s' = [ProcLock k] /\
    kcpu s' = mkCpu (cproc (kcpu s)) 1 (sie (kcpu s)) false /\
    nextpid s' = wrap_int (nextpid s + 1) /\ kpipe s' = kpipe s.
Proof. apply allocproc_success_run. Qed.

(** X20. [allocproc] when an allocation fails ([kalloc] returns 0, or it
    returns a page and [uvmcreate] then fails): the null pointer is
    returned, the slot is UNUSED again with its pid cleared and its lock
    released, and the trapframe page, if there was one, is the last thing
    given back to the allocator; the pid counter has advanced all the
    same. *)
Theorem allocproc_out_of_memory k pr tf s :
  held s = [] -> noff (kcpu s) = 0 ->
  list_find (fun q => state q = UNUSED) (procs s) = Some (k, pr) ->
  pagetable pr = 0 ->
  returns kalloc tf -> returns uvmcreate 0 ->
  exists s',
    the_allocproc s = Ret None s' /\
    procs s' =
      <[k := mkProc UNUSED NoChan 0 0 0 None (kstack pr) 0 0 0 (context pr)
                    (ofile pr) (cwd pr) (<[0%nat := 0]> (name pr))]> (procs s) /\
    held s' = [] /\ noff (kcpu s') = 0 /\
    nextpid s' = wrap_int (nextpid s + 1) /\
    (tf <> 0 -> exists tr, trace s' = tr ++ [EvKfree tf]).
Proof.
  intros Hh Hn Hfind Hpt0 Hka Huc. unfold allocproc.
  unfold bind at 1, NPROC at 1, gets at 1. cbn [bindr].
  erewrite (allocproc_found k pr s _ Hh Hn Hfind).
  apply list_find_Some in Hfind as (Hp & _).
  assert (Hlt := lookup_lt_Some _ _ _ Hp).
  ret_step Hka s2. destruct Hs as (Hp2 & Hk2 & Hh2 & Hn2 & Hpi2).
  cbn [procs kcpu held nextpid kpipe] in Hp2, Hk2, Hh2, Hn2, Hpi2.
  erewrite bind_eq.
  2:{ apply setp_ok. rewrite Hp2. apply list_lookup_insert_eq. exact Hlt. }
  cbn [bindr].
  set (q := set_trapframe tf (set_state USED (set_pid (nextpid s) pr))).
  assert (Hfin : forall (sx : @kstate umem) (qx : proc),
            procs sx = <[k := qx]> (procs s) -> held sx = [ProcLock k] ->
            kcpu sx = mkCpu (cproc (kcpu s)) 1 (sie (kcpu s)) false ->
            nextpid sx = wrap_int (nextpid s + 1) ->
            kstack qx = kstack pr -> context qx = context pr -> ofile qx = ofile pr ->
            cwd qx = cwd pr -> name qx = name pr ->
            exists s',
              bind (freeproc TRAMPOLINE TRAPFRAME k)
                   (fun _ => bind (release (ProcLock k))
                                  (fun _ => ret (@None nat))) sx
              = Ret None s' /\
              procs s' =
                <[k := mkProc UNUSED NoChan 0 0 0 None (kstack pr) 0 0 0 (context pr)
                              (ofile pr) (cwd pr) (<[0%nat := 0]> (name pr))]> (procs s) /\
              held s' = [] /\ noff (kcpu s') = 0 /\
              nextpid s' = wrap_int (nextpid s + 1) /\
              trace s' = trace sx ++ freeproc_calls qx).
  { intros sx qx Hpx Hhx Hkx Hnx E1 E2 E3 E4 E5.
    erewrite bind_eq.
    2:{ apply freeproc_ok. rewrite Hpx. apply list_lookup_insert_eq. exact Hlt. }
    cbn [bindr].
    erewrite bind_eq.
    2:{ apply release_ok; unfold set_trace; ksimpl;
          [rewrite Hhx; left | rewrite Hkx; reflexivity | rewrite Hkx; cbn; lia]. }
    cbn [bindr]. eexists. split; [reflexivity|].
    unfold unlock, set_trace. ksimpl. rewrite Hpx, Hhx, Hkx, Hnx, list_insert_insert_eq.
    rewrite filter_cons_False by (intros H; apply H; reflexivity).
    unfold freed. rewrite E1, E2, E3, E4, E5. split_and!; reflexivity. }
  destruct (Z.eqb_spec tf 0) as [Hz|Hnz].
  - destruct (Hfin (set_procs (<[k := q]> (procs s2)) s2) q) as (s' & Hr & H1 & H2 & H3 & H4 & _);
      try reflexivity.
    + ksimpl. rewrite Hp2. apply list_insert_insert_eq.
    + ksimpl. rewrite Hh2. reflexivity.
    + ksimpl. rewrite Hk2. reflexivity.
    + ksimpl. rewrite Hn2. reflexivity.
    + exists s'. split; [exact Hr|]. split_and!; try assumption. contradiction.
  - unfold proc_pagetable. unfold bind at 1.
    ret_step Huc s3. destruct Hs as (Hp3 & Hk3 & Hh3 & Hn3 & Hpi3).
    cbn [Z.eqb]. unfold ret at 1. cbn [bindr].
    erewrite bind_eq.
    2:{ apply setp_ok. rewrite Hp3. ksimpl. apply list_lookup_insert_eq.
        rewrite Hp2, length_insert. exact Hlt. }
    cbn [bindr Z.eqb].
    destruct (Hfin (set_procs (<[k := set_pagetable 0 q]> (procs s3)) s3) (set_pagetable 0 q))
      as (s' & Hr & H1 & H2 & H3 & H4 & H5); try reflexivity.
    + ksimpl. rewrite Hp3. ksimpl. rewrite Hp2, !list_insert_insert_eq. reflexivity.
    + ksimpl. rewrite Hh3. ksimpl. rewrite Hh2. reflexivity.
    + ksimpl. rewrite Hk3. ksimpl. rewrite Hk2. reflexivity.
    + ksimpl. rewrite Hn3. ksimpl. rewrite Hn2. reflexivity.
    + exists s'. split; [exact Hr|]. split_and!; try assumption.
      intros _. eexists. rewrite H5. unfold freeproc_calls.
      cbn [trapframe pagetable set_pagetable set_trapframe q].
      rewrite bool_decide_eq_true_2 by exact Hnz.
      rewrite bool_decide_eq_false_2 by (intros H; apply H; reflexivity).
      rewrite app_nil_r. reflexivity.
Qed.


(** *** growproc *)

Ltac ksimpl_in H :=
  cbn [procs kcpu held nextpid kpipe mem trace set_procs set_kcpu set_held
       set_nextpid set_kpipe set_mem emit cproc noff intena sie push_cpu pop_cpu
       lock unlock] in H.

(** X21. [growproc(n)] called by process [p].  The size goes through a 32-bit
    local: for [n = 0] the call returns 0 and leaves [sz] cut to 32 bits;
    for [n > 0] it asks [uvmalloc] for the range from the (cut) size to
    size + n and returns -1, leaving [sz] as it was, when the answer is 0
    in its low 32 bits, else stores the answer; for [n < 0] it stores
    what [uvmdealloc] answers and returns 0. *)
Theorem growproc_result n p pr r s :
  entry p s -> procs s !! p = Some pr ->
  (0 < n -> returns (uvmalloc (pagetable pr) (wrap_uint (sz pr))
                              (wrap_uint (wrap_uint (sz pr) + n))) r) ->
  (n < 0 -> returns (uvmdealloc (pagetable pr) (wrap_uint (sz pr))
                                (wrap_uint (wrap_uint (sz pr) + n))) r) ->
  exists v s',
    the_growproc n s = Ret v s' /\
    (if (0 <? n) && (wrap_uint r =? 0) then v = -1 /\ procs s' = procs s
     else v = 0 /\
          procs s' = <[p := set_sz (if n =? 0 then wrap_uint (sz pr) else wrap_uint r) pr]>
                       (procs s)) /\
    held s' = [] /\ noff (kcpu s') = 0.
Proof.
  intros (Hc & Hlt & Hh & Hn) Hp Hal Hde. unfold growproc.
  erewrite bind_eq by (apply myproc_ok; lia). cbn [bindr].
  rewrite Hc. unfold bind at 1, deref, ret at 1. cbn [bindr].
  erewrite bind_eq by (apply getp_ok; exact Hp). cbn [bindr]. cbn zeta.
  destruct (Z.ltb_spec 0 n) as [Hpos|Hnpos]; cbn [andb].
  - ret_step (Hal Hpos) s1. destruct Hs as (Hp1 & Hk1 & Hh1 & Hn1 & Hpi1).
    ksimpl_in Hp1; ksimpl_in Hk1; ksimpl_in Hh1.
    destruct (Z.eqb_spec (wrap_uint r) 0) as [Hz|Hnz].
    + eexists _, _. split; [reflexivity|].
      rewrite Hp1, Hh1, Hk1, norm_cpu_noff. split_and!; auto.
    + erewrite bind_eq by (apply setp_ok with (pr := pr); rewrite Hp1; exact Hp).
      cbn [bindr]. eexists _, _. split; [reflexivity|]. ksimpl.
      rewrite Hp1, Hh1, Hk1, norm_cpu_noff.
      destruct (Z.eqb_spec n 0); [lia|]. split_and!; auto.
  - destruct (Z.ltb_spec n 0) as [Hneg|Hz].
    + ret_step (Hde Hneg) s1. destruct Hs as (Hp1 & Hk1 & Hh1 & Hn1 & Hpi1).
      ksimpl_in Hp1; ksimpl_in Hk1; ksimpl_in Hh1.
      erewrite bind_eq by (apply setp_ok with (pr := pr); rewrite Hp1; exact Hp).
      cbn [bindr]. eexists _, _. split; [reflexivity|]. ksimpl.
      rewrite Hp1, Hh1, Hk1, norm_cpu_noff.
      destruct (Z.eqb_spec n 0); [lia|]. split_and!; auto.
    + erewrite bind_eq by (apply setp_ok with (pr := pr); exact Hp).
      cbn [bindr]. eexists _, _. split; [reflexivity|]. ksimpl.
      rewrite norm_cpu_noff.
      destruct (Z.eqb_spec n 0); [|lia]. split_and!; auto.
Qed.

(** *** fork *)

Lemma fork_files_run p np pr (dup : Z -> Z) : forall n i s qn,
  (forall f, returns (filedup f) (dup f)) -> p <> np ->
  procs s !! p = Some pr -> procs s !! np = Some qn ->
  (i + n = length (ofile pr))%nat -> length (ofile qn) = length (ofile pr) ->
  exists s',
    fork_files filedup n i p np s = Ret tt s' /\
    procs s' = <[np := set_ofile (take i (ofile qn) ++
                          fork_ofile dup (drop i (ofile pr)) (drop i (ofile qn))) qn]>
                 (procs s) /\
    kcpu s' = kcpu s /\ held s' = held s /\ nextpid s' = nextpid s /\
    kpipe s' = kpipe s.
Proof.
  induction n as [|n IH]; intros i s qn Hdup Hne Hp Hq Hlen Hlq.
  - exists s. cbn [fork_files]. rewrite !drop_ge by lia. unfold fork_ofile.
    cbn [zip_with]. rewrite app_nil_r, take_ge by lia.
    replace (set_ofile (ofile qn) qn) with qn by (destruct qn; reflexivity).
    rewrite list_insert_id by exact Hq. repeat split.
  - cbn [fork_files]. erewrite bind_eq by (apply getp_ok; exact Hp). cbn [bindr].
    destruct (lookup_lt_is_Some_2 (ofile pr) i ltac:(lia)) as [f Hf]. rewrite Hf.
    destruct (lookup_lt_is_Some_2 (ofile qn) i ltac:(lia)) as [c Hc].
    assert (Hlt : (np < length (procs s))%nat) by (eapply lookup_lt_Some, Hq).
    set (x := if f =? 0 then c else dup f).
    assert (Hnext : forall s1,
              procs s1 = <[np := set_ofile (<[i := x]> (ofile qn)) qn]> (procs s) ->
              kcpu s1 = kcpu s -> held s1 = held s -> nextpid s1 = nextpid s ->
              kpipe s1 = kpipe s ->
              exists s',
                fork_files filedup n (S i) p np s1 = Ret tt s' /\
                procs s' = <[np := set_ofile (take i (ofile qn) ++
                               fork_ofile dup (drop i (ofile pr)) (drop i (ofile qn))) qn]>
                             (procs s) /\
                kcpu s' = kcpu s /\ held s' = held s /\ nextpid s' = nextpid s /\
                kpipe s' = kpipe s).
    { intros s1 Hps Hk Hh Hn Hpi.
      destruct (IH (S i) s1 (set_ofile (<[i := x]> (ofile qn)) qn) Hdup Hne)
        as (s' & Hrun & Hps' & Hk' & Hh' & Hn' & Hpi').
      - rewrite Hps, list_lookup_insert_ne by (intros E; apply Hne; symmetry; exact E).
        exact Hp.
      - rewrite Hps. apply list_lookup_insert_eq. exact Hlt.
      - lia.
      - cbn [ofile set_ofile]. rewrite length_insert. exact Hlq.
      - exists s'. split; [exact Hrun|].
        rewrite Hk', Hh', Hn', Hpi', Hk, Hh, Hn, Hpi. split; [|repeat split].
        rewrite Hps', Hps, list_insert_insert_eq. f_equal.
        replace (ofile (set_ofile (<[i := x]> (ofile qn)) qn))
          with (<[i := x]> (ofile qn)) by (destruct qn; reflexivity).
        transitivity (set_ofile (take (S i) (<[i := x]> (ofile qn)) ++
                        fork_ofile dup (drop (S i) (ofile pr))
                          (drop (S i) (<[i := x]> (ofile qn)))) qn);
          [destruct qn; reflexivity|]. f_equal.
        rewrite (drop_S _ _ _ Hf), (drop_S _ _ _ Hc). unfold fork_ofile.
        cbn [zip_with]. fold x.
        rewrite (take_S_r _ _ x) by (apply list_lookup_insert_eq; eapply lookup_lt_Some, Hc).
        rewrite take_insert_ge by lia. rewrite drop_insert_lt by lia.
        rewrite <- app_assoc. reflexivity. }
    destruct (Z.eqb_spec f 0) as [Hz|Hnz]; cbn [negb].
    + unfold bind at 1, ret at 1. cbn [bindr]. apply Hnext; try reflexivity.
      unfold x. cbv iota.
      rewrite (list_insert_id (ofile qn)) by exact Hc.
      replace (set_ofile (ofile qn) qn) with qn by (destruct qn; reflexivity).
      symmetry. apply list_insert_id. exact Hq.
    + unfold bind at 1. unfold bind at 1.
      destruct (Hdup f s) as (s1 & Heq & (Hs1 & Hk1 & Hh1 & Hn1 & Hp1)).
      rewrite Heq. cbn [bindr].
      erewrite setp_ok by (rewrite Hs1; exact Hq). cbn [bindr].
      apply Hnext; ksimpl; try assumption.
      rewrite Hs1. unfold x. reflexivity.
Qed.

(** One step of a sequence, from a state known field by field. *)
Lemma at_state_refl s : at_state s (procs s) (kcpu s) (held s) (nextpid s) (kpipe s).
Proof. repeat split. Qed.

Lemma run_getp {A} i (f : proc -> @M umem A) s ps c h n pi pr :
  at_state s ps c h n pi -> ps !! i = Some pr -> bind (getp i) f s = f pr s.
Proof. intros (<- & _) Hl. erewrite bind_eq by (apply getp_ok, Hl). reflexivity. Qed.

Lemma run_setp {A} i g (f : unit -> @M umem A) s ps c h n pi pr :
  at_state s ps c h n pi -> ps !! i = Some pr ->
  exists s', bind (setp i g) f s = f tt s' /\ at_state s' (<[i := g pr]> ps) c h n pi.
Proof.
  intros (<- & <- & <- & <- & <-) Hl. eexists.
  split; [erewrite bind_eq by (apply setp_ok, Hl); reflexivity|]. repeat split.
Qed.

Lemma run_extern {A B} (m : @M umem B) (f : B -> @M umem A) s ps c h n pi :
  extern m -> at_state s ps c h n pi ->
  exists b s', bind m f s = f b s' /\ at_state s' ps c h n pi.
Proof.
  intros Hm (<- & <- & <- & <- & <-).
  destruct (extern_bind m f s Hm) as (b & s' & (H1 & H2 & H3 & H4 & H5) & He).
  exists b, s'. split; [exact He|]. repeat split; assumption.
Qed.

Lemma run_returns {A B} (m : @M umem B) b (f : B -> @M umem A) s ps c h n pi :
  returns m b -> at_state s ps c h n pi ->
  exists s', bind m f s = f b s' /\ at_state s' ps c h n pi.
Proof.
  intros Hm (<- & <- & <- & <- & <-).
  destruct (returns_bind m f b s Hm) as (s' & (H1 & H2 & H3 & H4 & H5) & He).
  exists s'. split; [exact He|]. repeat split; assumption.
Qed.

Lemma run_acquire {A} lk (f : unit -> @M umem A) s ps c h n pi :
  at_state s ps c h n pi -> lk ∉ h ->
  exists s', bind (acquire lk) f s = f tt s' /\
             at_state s' ps (push_cpu c) (lk :: h) n pi.
Proof.
  intros (<- & <- & <- & <- & <-) Hl. eexists.
  split; [erewrite bind_eq by (apply acquire_ok, Hl); reflexivity|]. repeat split.
Qed.

Lemma run_release {A} lk (f : unit -> @M umem A) s ps c h n pi :
  at_state s ps c h n pi -> lk ∈ h -> sie c = false -> 1 <= noff c ->
  exists s', bind (release lk) f s = f tt s' /\
             at_state s' ps (pop_cpu c) (filter (fun l => l ≠ lk) h) n pi.
Proof.
  intros (<- & <- & <- & <- & <-) Hl Hs Hn. eexists.
  split; [erewrite bind_eq by (apply release_ok; assumption); reflexivity|]. repeat split.
Qed.

Ltac run_get Hat :=
  match goal with
  | |- context [bind (getp ?i) ?f ?s] =>
      match type of Hat with
      | at_state _ ?ps _ _ _ _ =>
          let Hl := fresh "Hl" in
          eassert (Hl : ps !! i = Some _) by
            (rewrite ?list_lookup_insert_eq, ?list_lookup_insert_ne
               by (rewrite ?length_insert; first [assumption | congruence]);
             first [reflexivity | eassumption]);
          rewrite (run_getp i f s _ _ _ _ _ _ Hat Hl); clear Hl; cbv beta
      end
  end.

Ltac run_set Hat s' Hat' :=
  match goal with
  | |- context [bind (setp ?i ?g) ?f ?s] =>
      let He := fresh "He" in
      edestruct (run_setp i g f s) as (s' & He & Hat');
      [ exact Hat
      | rewrite ?list_lookup_insert_eq, ?list_lookup_insert_ne
          by (rewrite ?length_insert; first [assumption | congruence]);
        first [reflexivity | eassumption]
      | rewrite He; clear He; cbv beta ]
  end.

Ltac run_ext H Hat b s' Hat' :=
  match goal with
  | |- context [bind ?m ?f ?s] =>
      let He := fresh "He" in
      destruct (run_extern m f s _ _ _ _ _ H Hat) as (b & s' & He & Hat');
      rewrite He; clear He; cbv beta
  end.

Ltac run_ret H Hat s' Hat' :=
  match goal with
  | |- context [bind ?m ?f ?s] =>
      let He := fresh "He" in
      destruct (run_returns m _ f s _ _ _ _ _ H Hat) as (s' & He & Hat');
      rewrite He; clear He; cbv beta
  end.

(** X22. [fork] when the process table has no UNUSED slot: it returns -1 and
    the table, the locks, the pid counter and the allocator log are as
    before. *)
Theorem fork_no_free_slot p s :
  entry p s ->
  list_find (fun q => state q = UNUSED) (procs s) = None ->
  exists s',
    the_fork s = Ret (-1) s' /\ procs s' = procs s /\ held s' = [] /\
    noff (kcpu s') = 0 /\ nextpid s' = nextpid s /\ trace s' = trace s.
Proof.
  intros (Hc & Hlt & Hh & Hn) Hnone. unfold fork.
  erewrite bind_eq by (apply myproc_ok; lia). cbn [bindr].
  destruct (allocproc_none_run (set_kcpu (norm_cpu (kcpu s)) s))
    as (s1 & Hal & H1 & H2 & H3 & H4 & H5).
  - exact Hh.
  - ksimpl. rewrite norm_cpu_noff. exact Hn.
  - exact Hnone.
  - erewrite bind_eq by exact Hal. cbn [bindr]. exists s1. split; [reflexivity|].
    ksimpl_in H1. ksimpl_in H2. ksimpl_in H4. ksimpl_in H5.
    split_and!; assumption.
Qed.

Lemma cpu_push_idle (cp : option nat) (ie : bool) :
  push_cpu (mkCpu cp 0 ie ie) = mkCpu cp 1 ie false.
Proof. reflexivity. Qed.

Lemma cpu_pop_one (cp : option nat) (ie : bool) :
  pop_cpu (mkCpu cp 1 ie false) = mkCpu cp 0 ie ie.
Proof. destruct ie; reflexivity. Qed.

Ltac run_acq Hat s' Hat' :=
  match goal with
  | |- context [bind (acquire ?lk) ?f ?s] =>
      let He := fresh "He" in
      edestruct (run_acquire lk f s) as (s' & He & Hat');
      [ exact Hat | apply not_elem_of_nil | rewrite He; clear He; cbv beta ];
      rewrite cpu_push_idle in Hat'
  end.

Ltac run_rel Hat s' Hat' :=
  match goal with
  | |- context [bind (release ?lk) ?f ?s] =>
      let He := fresh "He" in
      edestruct (run_release lk f s) as (s' & He & Hat');
      [ exact Hat | left | reflexivity | cbn; lia | rewrite He; clear He; cbv beta ];
      rewrite cpu_pop_one, filter_cons_False in Hat'
        by (let H := fresh in intros H; apply H; reflexivity);
      rewrite filter_nil in Hat'
  end.

(** X23. [fork] when the allocations and the copy of the memory succeed: it
    returns the pid of the child, which is the value of the pid counter at
    the call; the child takes the first UNUSED slot and is left RUNNABLE
    with the caller as its parent, the caller's size, a duplicate of each
    of its open files and of its working directory, its name, and the
    context [allocproc] gave it; no lock is held on return and the
    interrupt state is the caller's. *)
Theorem fork_creates_child p pr k q tf pt r c (dup : Z -> Z) s :
  entry p s -> procs s !! p = Some pr -> state pr <> UNUSED ->
  list_find (fun q => state q = UNUSED) (procs s) = Some (k, q) ->
  length (ofile q) = length (ofile pr) ->
  returns kalloc tf -> tf <> 0 -> returns uvmcreate pt -> pt <> 0 ->
  (forall a b c d e, returns (mappages a b c d e) 0) ->
  returns (uvmcopy (pagetable pr) pt (sz pr)) r -> 0 <= r ->
  (forall a b, extern (trapframe_copy a b)) ->
  (forall a b, extern (trapframe_set_a0 a b)) ->
  (forall f, returns (filedup f) (dup f)) ->
  returns (idup (cwd pr)) c ->
  exists s',
    the_fork s = Ret (nextpid s) s' /\
    procs s' = <[k := forked PGSIZE forkret safestrcpy dup p pr q (nextpid s) tf pt c]>
                 (procs s) /\
    held s' = [] /\ noff (kcpu s') = 0 /\ sie (kcpu s') = sie (kcpu s) /\
    nextpid s' = wrap_int (nextpid s + 1) /\ kpipe s' = kpipe s.
Proof.
  intros (Hc & Hlt & Hh & Hn) Hp Hst Hfind Hlen Hka Htf Huc Hpt Hmp Hcp Hr Htc Hta Hdup Hid.
  unfold fork.
  erewrite bind_eq by (apply myproc_ok; lia). cbn [bindr].
  destruct (allocproc_success_run k q tf pt (set_kcpu (norm_cpu (kcpu s)) s))
    as (s1 & Hal & H1 & H2 & H3 & H4 & H5); try assumption.
  { ksimpl. rewrite norm_cpu_noff. exact Hn. }
  erewrite bind_eq by exact Hal. cbn [bindr].
  ksimpl_in H1; ksimpl_in H3; ksimpl_in H4; ksimpl_in H5.
  rewrite (norm_cpu_idle _ Hn) in H3. cbn [cproc sie] in H3.
  rewrite Hc in H3 |- *. unfold bind at 1, deref, ret at 1. cbn [bindr].
  apply list_find_Some in Hfind as (Hq & Hqs & _).
  assert (Hne : p <> k).
  { intros ->. rewrite Hp in Hq. injection Hq as ->. contradiction. }
  assert (Hltk := lookup_lt_Some _ _ _ Hq).
  assert (Hat1 := at_state_refl s1). rewrite H1, H2, H3, H4, H5 in Hat1.
  run_get Hat1. run_get Hat1. cbn [pagetable].
  run_ret Hcp Hat1 s2 Hat2.
  destruct (Z.ltb_spec r 0) as [?|_]; [lia|].
  run_get Hat2. run_set Hat2 s3 Hat3. rewrite list_insert_insert_eq in Hat3.
  cbn [set_sz] in Hat3.
  run_get Hat3. cbn [trapframe].
  run_ext (Htc tf (trapframe pr)) Hat3 u4 s4 Hat4.
  run_ext (Hta tf 0) Hat4 u5 s5 Hat5.
  match type of Hat5 with at_state _ (<[_ := ?x]> _) _ _ _ _ => set (q5 := x) in Hat5 end.
  assert (Hp5 : procs s5 !! p = Some pr).
  { rewrite (proj1 Hat5), list_lookup_insert_ne by congruence. exact Hp. }
  assert (Hq5 : procs s5 !! k = Some q5).
  { rewrite (proj1 Hat5). apply list_lookup_insert_eq. exact Hltk. }
  destruct (fork_files_run p k pr dup (length (ofile pr)) 0 s5 q5 Hdup Hne Hp5 Hq5
              eq_refl Hlen) as (s6 & Hff & Hp6 & Hk6 & Hh6 & Hn6 & Hpi6).
  unfold bind at 1. rewrite Hff. cbn [bindr].
  destruct Hat5 as (Hp5' & Hk5 & Hh5 & Hn5 & Hpi5).
  rewrite Hp5', list_insert_insert_eq in Hp6. rewrite Hk5 in Hk6. rewrite Hh5 in Hh6.
  rewrite Hn5 in Hn6. rewrite Hpi5 in Hpi6.
  assert (Hat6 := at_state_refl s6). rewrite Hp6, Hk6, Hh6, Hn6, Hpi6 in Hat6.
  cbn [take app drop] in Hat6.
  run_get Hat6. run_ret Hid Hat6 s7 Hat7.
  run_set Hat7 s8 Hat8. rewrite list_insert_insert_eq in Hat8.
  run_get Hat8. run_set Hat8 s9 Hat9. rewrite list_insert_insert_eq in Hat9.
  run_get Hat9. cbv zeta.
  run_rel Hat9 s10 Hat10.
  run_acq Hat10 s11 Hat11.
  run_set Hat11 s12 Hat12. rewrite list_insert_insert_eq in Hat12.
  run_rel Hat12 s13 Hat13.
  run_acq Hat13 s14 Hat14.
  run_set Hat14 s15 Hat15. rewrite list_insert_insert_eq in Hat15.
  run_rel Hat15 s16 Hat16.
  exists s16. destruct Hat16 as (Hp16 & Hk16 & Hh16 & Hn16 & Hpi16).
  split; [reflexivity|]. rewrite Hp16, Hk16, Hh16, Hn16, Hpi16.
  split_and!; reflexivity.
Qed.

(** X24. [fork] when [uvmcopy] fails: it returns -1, the slot it had allocated
    is UNUSED again with its lock released (the context [allocproc] wrote
    stays in it), and the trapframe page and the page table of the slot
    have been given back, in this order; the pid that was drawn is
    lost. *)
Theorem fork_copy_fails p pr k q tf pt r s :
  entry p s -> procs s !! p = Some pr -> state pr <> UNUSED ->
  list_find (fun q => state q = UNUSED) (procs s) = Some (k, q) ->
  returns kalloc tf -> tf <> 0 -> returns uvmcreate pt -> pt <> 0 ->
  (forall a b c d e, returns (mappages a b c d e) 0) ->
  returns (uvmcopy (pagetable pr) pt (sz pr)) r -> r < 0 ->
  exists s',
    the_fork s = Ret (-1) s' /\
    procs s' =
      <[k := mkProc UNUSED NoChan 0 0 0 None (kstack q) 0 0 0
                    (forkret, wrap_uint64 (kstack q + PGSIZE)) (ofile q) (cwd q)
                    (<[0%nat := 0]> (name q))]> (procs s) /\
    held s' = [] /\ noff (kcpu s') = 0 /\
    nextpid s' = wrap_int (nextpid s + 1) /\
    exists tr, trace s' = tr ++ [EvKfree tf; EvUvmunmap pt TRAMPOLINE 1 0;
                                 EvUvmunmap pt TRAPFRAME 1 0; EvUvmfree pt (sz q)].
Proof.
  intros (Hc & Hlt & Hh & Hn) Hp Hst Hfind Hka Htf Huc Hpt Hmp Hcp Hr.
  unfold fork.
  erewrite bind_eq by (apply myproc_ok; lia). cbn [bindr].
  destruct (allocproc_success_run k q tf pt (set_kcpu (norm_cpu (kcpu s)) s))
    as (s1 & Hal & H1 & H2 & H3 & H4 & H5); try assumption.
  { ksimpl. rewrite norm_cpu_noff. exact Hn. }
  erewrite bind_eq by exact Hal. cbn [bindr].
  ksimpl_in H1; ksimpl_in H3; ksimpl_in H4; ksimpl_in H5.
  rewrite (norm_cpu_idle _ Hn) in H3. cbn [cproc sie] in H3.
  rewrite Hc in H3 |- *. unfold bind at 1, deref, ret at 1. cbn [bindr].
  apply list_find_Some in Hfind as (Hq & Hqs & _).
  assert (Hne : p <> k).
  { intros ->. rewrite Hp in Hq. injection Hq as ->. contradiction. }
  assert (Hltk := lookup_lt_Some _ _ _ Hq).
  assert (Hat1 := at_state_refl s1). rewrite H1, H2, H3, H4, H5 in Hat1.
  run_get Hat1. run_get Hat1. cbn [pagetable].
  run_ret Hcp Hat1 s2 Hat2.
  destruct (Z.ltb_spec r 0) as [_|?]; [|lia].
  destruct Hat2 as (Hp2 & Hk2 & Hh2 & Hn2 & Hpi2).
  erewrite bind_eq.
  2:{ apply freeproc_ok. rewrite Hp2. apply list_lookup_insert_eq. exact Hltk. }
  cbn [bindr].
  erewrite bind_eq.
  2:{ apply release_ok; unfold set_trace; ksimpl;
        [rewrite Hh2; left | rewrite Hk2; reflexivity | rewrite Hk2; cbn; lia]. }
  cbn [bindr]. eexists. split; [reflexivity|].
  unfold unlock, set_trace. ksimpl. rewrite Hp2, Hh2, Hk2, Hn2, list_insert_insert_eq.
  rewrite filter_cons_False by (intros H; apply H; reflexivity).
  split_and!; try reflexivity.
  eexists. unfold freeproc_calls. cbn [trapframe pagetable sz].
  rewrite !bool_decide_eq_true_2 by assumption. reflexivity.
Qed.

(** *** allocproc when a mapping fails *)

Lemma allocproc_undo k q sx :
  procs sx !! k = Some q -> held sx = [ProcLock k] ->
  sie (kcpu sx) = false -> noff (kcpu sx) = 1 ->
  exists s',
    bind (freeproc TRAMPOLINE TRAPFRAME k)
         (fun _ => bind (release (ProcLock k)) (fun _ => ret (@None nat))) sx
    = Ret None s' /\
    procs s' = <[k := freed q]> (procs sx) /\ held s' = [] /\ noff (kcpu s') = 0 /\
    nextpid s' = nextpid sx /\ trace s' = trace sx ++ freeproc_calls q.
Proof.
  intros Hq Hh Hs Hn.
  erewrite bind_eq by (apply freeproc_ok; exact Hq). cbn [bindr].
  erewrite bind_eq.
  2:{ apply release_ok; unfold set_trace; ksimpl;
        [rewrite Hh; left | exact Hs | lia]. }
  cbn [bindr]. eexists. split; [reflexivity|].
  unfold unlock, set_trace. ksimpl. rewrite Hh, Hn.
  rewrite filter_cons_False by (intros H; apply H; reflexivity).
  split_and!; reflexivity.
Qed.

(** X25. [allocproc] when [proc_pagetable] cannot map the trampoline or the
    trapframe: the null pointer is returned and the slot is UNUSED again
    with its lock released.  The page table is given back once, by
    [proc_pagetable] itself (after the trampoline mapping is undone, when
    it was the second mapping that failed), and the trapframe page after
    it: [freeproc] finds the page table field cleared and does not free it
    a second time. *)
Theorem allocproc_mapping_fails k pr tf pt r1 r2 s :
  held s = [] -> noff (kcpu s) = 0 ->
  list_find (fun q => state q = UNUSED) (procs s) = Some (k, pr) ->
  returns kalloc tf -> tf <> 0 -> returns uvmcreate pt -> pt <> 0 ->
  returns (mappages pt TRAMPOLINE PGSIZE trampoline (Z.lor PTE_R PTE_X)) r1 ->
  returns (mappages pt TRAPFRAME PGSIZE tf (Z.lor PTE_R PTE_W)) r2 ->
  r1 < 0 \/ r2 < 0 ->
  exists s',
    the_allocproc s = Ret None s' /\
    procs s' =
      <[k := mkProc UNUSED NoChan 0 0 0 None (kstack pr) 0 0 0 (context pr)
                    (ofile pr) (cwd pr) (<[0%nat := 0]> (name pr))]> (procs s) /\
    held s' = [] /\ noff (kcpu s') = 0 /\
    exists tr,
      trace s' = tr ++ (if r1 <? 0 then [] else [EvUvmunmap pt TRAMPOLINE 1 0]) ++
                       [EvUvmfree pt 0; EvKfree tf].
Proof.
  intros Hh Hn Hfind Hka Htf Huc Hpt Hm1 Hm2 Hneg. unfold allocproc.
  unfold bind at 1, NPROC at 1, gets at 1. cbn [bindr].
  erewrite (allocproc_found k pr s _ Hh Hn Hfind).
  apply list_find_Some in Hfind as (Hp & _).
  assert (Hlt := lookup_lt_Some _ _ _ Hp).
  match goal with |- context [bind kalloc _ ?s0] => assert (Hat0 := at_state_refl s0) end.
  ksimpl_in Hat0.
  run_ret Hka Hat0 s2 Hat2.
  run_set Hat2 s3 Hat3. rewrite list_insert_insert_eq in Hat3.
  destruct (Z.eqb_spec tf 0) as [?|_]; [contradiction|].
  unfold proc_pagetable. unfold bind at 1.
  run_ret Huc Hat3 s4 Hat4.
  destruct (Z.eqb_spec pt 0) as [?|_]; [contradiction|].
  run_ret Hm1 Hat4 s5 Hat5.
  match goal with |- context [bindr _ ?f] => set (cont := f) end.
  assert (Htail : forall sx,
            procs sx = <[k := set_trapframe tf (set_state USED (set_pid (nextpid s) pr))]>
                         (procs s) ->
            kcpu sx = mkCpu (cproc (kcpu s)) 1 (sie (kcpu s)) false ->
            held sx = [ProcLock k] ->
            exists s',
              cont 0 sx = Ret None s' /\
              procs s' =
                <[k := mkProc UNUSED NoChan 0 0 0 None (kstack pr) 0 0 0 (context pr)
                              (ofile pr) (cwd pr) (<[0%nat := 0]> (name pr))]> (procs s) /\
              held s' = [] /\ noff (kcpu s') = 0 /\
              trace s' = trace sx ++ [EvKfree tf]).
  { intros sx Hpx Hkx Hhx. unfold cont.
    erewrite bind_eq.
    2:{ apply setp_ok. rewrite Hpx. apply list_lookup_insert_eq. exact Hlt. }
    cbn [bindr Z.eqb].
    match goal with
    | |- context [bind (freeproc _ _ k) _ ?sy] =>
        edestruct (allocproc_undo k
                     (set_pagetable 0
                        (set_trapframe tf (set_state USED (set_pid (nextpid s) pr)))) sy)
          as (s' & Hr & H1 & H2 & H3 & H4 & H5)
    end;
      [ ksimpl; apply list_lookup_insert_eq; rewrite Hpx, length_insert; exact Hlt
      | ksimpl; exact Hhx
      | ksimpl; rewrite Hkx; reflexivity
      | ksimpl; rewrite Hkx; reflexivity
      | ].
    exists s'. split; [exact Hr|]. ksimpl_in H1. ksimpl_in H5.
    rewrite H1, H5, Hpx, !list_insert_insert_eq. split_and!; try assumption.
    - reflexivity.
    - unfold freeproc_calls. cbn [trapframe pagetable set_pagetable set_trapframe].
      rewrite bool_decide_eq_true_2 by exact Htf.
      rewrite bool_decide_eq_false_2 by (intros H; apply H; reflexivity).
      rewrite app_nil_r. reflexivity. }
  destruct Hat5 as (Hp5 & Hk5 & Hh5 & Hn5 & Hpi5).
  destruct (Z.ltb_spec r1 0) as [Hr1|Hr1].
  - unfold bind at 1, uvmfree, modify, ret at 1. cbn [bindr].
    destruct (Htail (emit (EvUvmfree pt 0) s5)) as (s' & Hr & H1 & H2 & H3 & H4);
      [ksimpl; assumption ..|].
    exists s'. split_and!; try assumption.
    exists (trace s5). rewrite H4. ksimpl. rewrite <- app_assoc. reflexivity.
  - erewrite bind_eq.
    2:{ apply getp_ok. rewrite Hp5. apply list_lookup_insert_eq. exact Hlt. }
    cbn [bindr trapframe set_trapframe].
    destruct (returns_bind _ (fun r : Z =>
                if r <? 0
                then bind (uvmunmap pt TRAMPOLINE 1 0)
                          (fun _ => bind (uvmfree pt 0) (fun _ => ret 0))
                else ret pt) r2 s5 Hm2) as (s6 & (Hp6 & Hk6 & Hh6 & Hn6 & Hpi6) & He).
    rewrite He. clear He.
    destruct (Z.ltb_spec r2 0) as [Hr2|Hr2]; [|destruct Hneg; lia].
    unfold bind at 1, uvmunmap, modify. cbn [bindr].
    unfold bind at 1, uvmfree, modify, ret at 1. cbn [bindr].
    destruct (Htail (emit (EvUvmfree pt 0) (emit (EvUvmunmap pt TRAMPOLINE 1 0) s6)))
      as (s' & Hr & H1 & H2 & H3 & H4).
    + ksimpl. rewrite Hp6. exact Hp5.
    + ksimpl. rewrite Hk6. exact Hk5.
    + ksimpl. rewrite Hh6. exact Hh5.
    + exists s'. split_and!; try assumption.
      exists (trace s6). rewrite H4. ksimpl. rewrite <- !app_assoc. reflexivity.
Qed.

(** *** user/cat.c *)

Lemma cat_run {W} (read : Z -> list Z -> Z -> W -> Z * list Z * W)
    (write : Z -> list Z -> Z -> W -> Z * W) (fprintf : Z -> string -> list string -> W -> W)
    (input : Z -> W -> list Z) (output : W -> list Z) (fuel : nat) fd :
  file_reads read input output -> stdout_writes write input output ->
  forall (b : list Z) (w : W),
  (length (input fd w) < fuel)%nat ->
  exists b' (w' : W),
    cat read write fprintf fuel fd (b, w) = UReturn tt (b', w') /\
    output w' = output w ++ input fd w /\ input fd w' = [].
Proof.
  intros Hr Hw. induction fuel as [|fuel IH]; intros b w Hlen; [lia|].
  cbn [cat fst snd].
  destruct (Hr fd b 512 w ltac:(lia)) as (Ho & He & Hn).
  destruct (read fd b 512 w) as [[n b1] w1] eqn:Hrd. cbn [fst snd] in Ho, He, Hn.
  destruct (input fd w) as [|x xs] eqn:Hin.
  - destruct (He eq_refl) as (-> & Hi'). cbn [Z.ltb Z.compare].
    exists b1, w1. rewrite app_nil_r. split_and!; auto.
  - destruct Hn as (Hpos & Htk & Hle & Hdr); [discriminate|].
    destruct (Z.ltb_spec 0 n) as [_|?]; [|lia].
    destruct (Hw b1 n w1 ltac:(lia)) as (Hm & Hout & Hinp).
    destruct (write 1 b1 n w1) as [m w2] eqn:Hwr. cbn [fst snd] in Hm, Hout, Hinp.
    subst m. rewrite Z.eqb_refl. cbn [negb].
    destruct (IH b1 w2) as (b' & w' & Hc & Ho' & Hi').
    + rewrite Hinp, Hdr, length_drop. cbn [length] in Hlen |- *. lia.
    + exists b', w'. split; [exact Hc|]. split; [|exact Hi'].
      rewrite Ho', Hout, Ho, Hinp, Hdr, Htk, <- app_assoc, take_drop. reflexivity.
Qed.

(** X26. [cat] on a descriptor whose reads deliver the bytes left in chunks of
    any sizes, with writes to the standard output that take all they are
    given: given fuel for one read per byte and one more, it returns, all
    of the input has been read, and the output has grown by exactly the
    input. *)
Theorem cat_copies_input {W} (read : Z -> list Z -> Z -> W -> Z * list Z * W)
    (write : Z -> list Z -> Z -> W -> Z * W) (fprintf : Z -> string -> list string -> W -> W)
    (input : Z -> W -> list Z) (output : W -> list Z) (fuel : nat) fd (b : list Z) (w : W) :
  file_reads read input output -> stdout_writes write input output ->
  (length (input fd w) < fuel)%nat ->
  exists b' (w' : W),
    cat read write fprintf fuel fd (b, w) = UReturn tt (b', w') /\
    output w' = output w ++ input fd w /\ input fd w' = [].
Proof. intros Hr Hw Hlen. apply (cat_run read write fprintf input output); assumption. Qed.

(** X27. However the system calls behave: [cat] returns only when its last read
    returned 0, and when it exits it does so with status 1, right after
    printing one of its two messages on descriptor 2. *)
Theorem cat_return_or_exit_1 {W} (read : Z -> list Z -> Z -> W -> Z * list Z * W)
    (write : Z -> list Z -> Z -> W -> Z * W) (fprintf : Z -> string -> list string -> W -> W)
    (fuel : nat) fd (u : list Z * W) :
  match cat read write fprintf fuel fd u with
  | UReturn _ u' => exists b (w : W), read fd b 512 w = (0, u'.1, u'.2)
  | UExit st u' =>
      st = 1 /\
      exists w : W, u'.2 = fprintf 2 ("cat: write error" ++ nl)%string [] w \/
                    u'.2 = fprintf 2 ("cat: read error" ++ nl)%string [] w
  | UFuel => True
  end.
Proof.
  revert u. induction fuel as [|fuel IH]; intros [b w]; [exact I|].
  cbn [cat fst snd]. destruct (read fd b 512 w) as [[n b1] w1] eqn:Hrd.
  destruct (Z.ltb_spec 0 n) as [Hpos|Hnp].
  - destruct (write 1 b1 n w1) as [m w2]. destruct (m =? n); cbn [negb].
    + apply IH.
    + split; [reflexivity|]. exists w2. left. reflexivity.
  - destruct (Z.ltb_spec n 0) as [Hneg|Hz].
    + split; [reflexivity|]. exists w1. right. reflexivity.
    + exists b, w. cbn [fst snd]. rewrite Hrd. repeat f_equal. lia.
Qed.

Lemma main_args_run {W} (read : Z -> list Z -> Z -> W -> Z * list Z * W)
    (write : Z -> list Z -> Z -> W -> Z * W) (open : string -> Z -> W -> Z * W)
    (close : Z -> W -> Z * W) (fprintf : Z -> string -> list string -> W -> W)
    (input : Z -> W -> list Z) (output : W -> list Z)
    (content : string -> option (list Z)) (fuel : nat) (rest : list string) :
  file_reads read input output -> stdout_writes write input output ->
  opens open input output content -> closes close output ->
  forall (pre : list string) (b : list Z) (w : W),
  Forall (fun a => exists bs, content a = Some bs /\ (length bs < fuel)%nat) pre ->
  exists b' (w' : W),
    main_args read write open close fprintf fuel (pre ++ rest) (b, w)
      = main_args read write open close fprintf fuel rest (b', w') /\
    output w' = output w ++ contents_of content pre.
Proof.
  intros Hr Hw Hop Hcl. induction pre as [|a pre IH]; intros b w Hall.
  - exists b, w. cbn [app contents_of]. rewrite app_nil_r. split; reflexivity.
  - apply Forall_cons in Hall as ((bs & Hbs & Hlen) & Hall).
    cbn [app main_args fst snd contents_of]. rewrite Hbs. cbn [default].
    destruct (Hop a w) as (Ho1 & Hc1). rewrite Hbs in Hc1. destruct Hc1 as (Hfd & Hin1).
    destruct (open a 0 w) as [fd w1] eqn:Hopen. cbn [fst snd] in Ho1, Hfd, Hin1.
    destruct (Z.ltb_spec fd 0) as [?|_]; [lia|].
    destruct (cat_run read write fprintf input output fuel fd Hr Hw b w1)
      as (b2 & w2 & Hcat & Ho2 & _).
    { rewrite Hin1. exact Hlen. }
    rewrite Hcat. cbn [fst snd].
    assert (Ho3 := Hcl fd w2). destruct (close fd w2) as [r w3]. cbn [snd] in Ho3.
    destruct (IH b2 w3 Hall) as (b' & w' & Hrun & Ho').
    exists b', w'. split; [exact Hrun|].
    rewrite Ho', Ho3, Ho2, Ho1, Hin1, <- app_assoc. reflexivity.
Qed.

(** X28. [main]: with no argument it copies descriptor 0 to the standard
    output, with arguments that all name files it writes their contents
    one after the other; in both cases it exits with status 0. *)
Theorem main_concatenates {W} (read : Z -> list Z -> Z -> W -> Z * list Z * W)
    (write : Z -> list Z -> Z -> W -> Z * W) (open : string -> Z -> W -> Z * W)
    (close : Z -> W -> Z * W) (fprintf : Z -> string -> list string -> W -> W)
    (input : Z -> W -> list Z) (output : W -> list Z)
    (content : string -> option (list Z)) (fuel : nat) (argv : list string)
    (b : list Z) (w : W) :
  file_reads read input output -> stdout_writes write input output ->
  opens open input output content -> closes close output ->
  ((length argv <= 1)%nat -> (length (input 0%Z w) < fuel)%nat) ->
  Forall (fun a => exists bs, content a = Some bs /\ (length bs < fuel)%nat)
         (drop 1 argv) ->
  exists b' (w' : W),
    main read write open close fprintf fuel argv (b, w) = UExit 0 (b', w') /\
    output w' = output w ++
      (if bool_decide (length argv <= 1)%nat then input 0 w
       else contents_of content (drop 1 argv)).
Proof.
  intros Hr Hw Hop Hcl H0 Hall. unfold main.
  destruct (Z.leb_spec (Z.of_nat (length argv)) 1) as [Hle|Hgt].
  - rewrite bool_decide_eq_true_2 by lia.
    destruct (cat_run read write fprintf input output fuel 0 Hr Hw b w)
      as (b' & w' & Hcat & Ho & _); [apply H0; lia|].
    rewrite Hcat. exists b', w'. split; [reflexivity | exact Ho].
  - rewrite bool_decide_eq_false_2 by lia.
    destruct (main_args_run read write open close fprintf input output content fuel []
                Hr Hw Hop Hcl (drop 1 argv) b w Hall) as (b' & w' & Hrun & Ho).
    rewrite app_nil_r in Hrun. rewrite Hrun. cbn [main_args].
    exists b', w'. split; [reflexivity | exact Ho].
Qed.

(** X29. [main] when an argument cannot be opened: the files named before it
    have been written to the standard output, the message is printed on
    descriptor 2 with the path, and the program exits with status 1; the
    arguments after it are not looked at. *)
Theorem main_cannot_open {W} (read : Z -> list Z -> Z -> W -> Z * list Z * W)
    (write : Z -> list Z -> Z -> W -> Z * W) (open : string -> Z -> W -> Z * W)
    (close : Z -> W -> Z * W) (fprintf : Z -> string -> list string -> W -> W)
    (input : Z -> W -> list Z) (output : W -> list Z)
    (content : string -> option (list Z)) (fuel : nat) (prog a : string)
    (pre post : list string) (b : list Z) (w : W) :
  file_reads read input output -> stdout_writes write input output ->
  opens open input output content -> closes close output ->
  Forall (fun a => exists bs, content a = Some bs /\ (length bs < fuel)%nat) pre ->
  content a = None ->
  exists b' (w' : W),
    main read write open close fprintf fuel (prog :: pre ++ a :: post) (b, w)
      = UExit 1 (b', fprintf 2 ("cat: cannot open %s" ++ nl)%string [a] w') /\
    output w' = output w ++ contents_of content pre.
Proof.
  intros Hr Hw Hop Hcl Hall Hna. unfold main.
  destruct (Z.leb_spec (Z.of_nat (length (prog :: pre ++ a :: post))) 1) as [Hle|_].
  { cbn [length] in Hle. rewrite length_app in Hle. cbn [length] in Hle. lia. }
  change (drop 1 (prog :: pre ++ a :: post)) with (pre ++ a :: post).
  destruct (main_args_run read write open close fprintf input output content fuel
              (a :: post) Hr Hw Hop Hcl pre b w Hall) as (b' & w' & Hrun & Ho).
  rewrite Hrun. cbn [main_args fst snd].
  destruct (Hop a w') as (Ho1 & Hc1). rewrite Hna in Hc1.
  destruct (open a 0 w') as [fd w1]. cbn [fst snd] in Ho1, Hc1.
  destruct (Z.ltb_spec fd 0) as [_|?]; [|lia].
  exists b', w1. split; [reflexivity|]. rewrite Ho1. exact Ho.
Qed.

End Verification.

(** ** The theorems at concrete inputs *)

Lemma sleep_own_lock_panics_witness :
  0 <= noff (kcpu K_own_lock) /\ cproc (kcpu K_own_lock) = Some 0%nat /\
  procs K_own_lock !! 0%nat = Some proc_run /\
  exists s',
    sleep (AddrChan 100) (ProcLock 0) K_own_lock =
    Panic (if bool_decide (ProcLock 0 ∈ held K_own_lock)
           then "acquire" else "sched p->lock") s'.
Proof.
  assert (H1 : 0 <= noff (kcpu K_own_lock)) by (vm_compute; discriminate).
  assert (H2 : cproc (kcpu K_own_lock) = Some 0%nat) by reflexivity.
  assert (H3 : procs K_own_lock !! 0%nat = Some proc_run) by reflexivity.
  split; [exact H1|]. split; [exact H2|]. split; [exact H3|].
  exact (sleep_own_lock_panics K_own_lock 0 proc_run (AddrChan 100) H1 H2 H3).
Defined.

Lemma sched_panics_iff_precondition_violated_witness :
  disciplined (kcpu K1) /\
  (exists msg s', sched K1 = Panic msg s') /\
  disciplined (kcpu (K_resumed [set_state RUNNABLE proc_run] pipe_new)) /\
  ~ exists msg s', sched (K_resumed [set_state RUNNABLE proc_run] pipe_new) = Panic msg s'.
Proof.
  assert (H1 : disciplined (kcpu K1)) by (intros H; vm_compute in H; discriminate H).
  assert (H2 : disciplined (kcpu (K_resumed [set_state RUNNABLE proc_run] pipe_new)))
    by (intros _; reflexivity).
  split; [exact H1|]. split.
  - apply (sched_panics_iff_precondition_violated K1 0 proc_run);
      [vm_compute; discriminate | reflexivity | reflexivity | exact H1 |].
    left. vm_compute. apply not_elem_of_nil.
  - split; [exact H2|]. intros Hp.
    apply (sched_panics_iff_precondition_violated
             (K_resumed [set_state RUNNABLE proc_run] pipe_new) 0
             (set_state RUNNABLE proc_run)) in Hp;
      [|vm_compute; discriminate | reflexivity | reflexivity | exact H2].
    destruct Hp as [H|[H|[H|H]]].
    + apply H. vm_compute. left.
    + apply H. reflexivity.
    + discriminate H.
    + discriminate H.
Defined.

Lemma pipe_bounded_witness :
  rtc pool_step
      (set_kpipe (pipe_init (kpipe K1)) K1,
       (fun t => pipe_ops copyin0 copyout0 t.1 t.2) <$> [(5%nat, [OpWrite 10 3])])
      (K_written, []) /\
  (0 <= used (kpipe K_written) <= PIPESIZE) /\
  (pipe_full (kpipe K_written) = true <-> used (kpipe K_written) = PIPESIZE) /\
  (pipe_empty (kpipe K_written) = true <-> used (kpipe K_written) = 0).
Proof.
  assert (H : rtc pool_step
      (set_kpipe (pipe_init (kpipe K1)) K1,
       (fun t => pipe_ops copyin0 copyout0 t.1 t.2) <$> [(5%nat, [OpWrite 10 3])])
      (K_written, [])).
  { apply rtc_once.
    apply (pool_return (set_kpipe (pipe_init (kpipe K1)) K1)
             [pipe_ops copyin0 copyout0 5 [OpWrite 10 3]] 0
             (pipe_ops copyin0 copyout0 5 [OpWrite 10 3]) K1 K_written).
    - reflexivity.
    - reflexivity.
    - vm_compute. reflexivity. }
  split; [exact H|].
  exact (pipe_bounded copyin0 copyout0 [(5%nat, [OpWrite 10 3])] K1 K_written [] H).
Defined.

Lemma entry_K_user ps : (0 < length ps)%nat -> entry 0 (K_user ps).
Proof. intros H. repeat split. exact H. Defined.



Lemma wait_result_witness :
  run (wait copyout0 TRAMPOLINE0 TRAPFRAME0 2 100 K_waiting) [K_child_exited] = Done 2 K_reaped.
Proof.
  destruct (wait_result copyout0 TRAMPOLINE0 TRAPFRAME0 0 2 100 K_waiting [K_child_exited])
    as (Hrun & _).
  - apply entry_K_user. vm_compute. lia.
  - constructor; [|constructor]. repeat split. vm_compute. lia.
  - vm_compute. lia.
  - rewrite Hrun. vm_compute. reflexivity.
Defined.

(** C5 as stated fails: a killed caller with a ZOMBIE child gets the
    child's pid 2 from [wait], not -1. *)
Lemma wait_killed_reaps_child :
  pkilled 0 K_killed_parent = true /\
  match wait copyout0 TRAMPOLINE0 TRAPFRAME0 1 0 K_killed_parent with
  | Ret v _ => v = 2
  | _ => False
  end.
Proof. split; vm_compute; reflexivity. Qed.

Lemma kill_result_witness :
  0 <= noff (kcpu K_parent) /\ (forall j, ProcLock j ∉ held K_parent) /\
  exists v s',
    kill 2 K_parent = Ret v s' /\ frame K_parent s' /\
    match list_find (fun q => pid q = 2) (procs K_parent) with
    | Some (k, pr) =>
        v = 0 /\
        procs s' =
          <[k := mkProc (if bool_decide (state pr = SLEEPING) then RUNNABLE else state pr)
                        (chan pr) 1 (xstate pr) (pid pr) (parent pr) (kstack pr)
                        (sz pr) (pagetable pr) (trapframe pr) (context pr)
                        (ofile pr) (cwd pr) (name pr)]> (procs K_parent)
    | None => v = -1 /\ procs s' = procs K_parent
    end.
Proof.
  assert (H1 : 0 <= noff (kcpu K_parent)) by (vm_compute; discriminate).
  assert (H2 : forall j, ProcLock j ∉ held K_parent) by (intros j; apply not_elem_of_nil).
  split; [exact H1|]. split; [exact H2|].
  exact (kill_result 2 K_parent H1 H2).
Defined.

Lemma freeproc_frees_witness :
  procs K_parent !! 1%nat = Some proc_zombie /\
  exists s',
    freeproc TRAMPOLINE0 TRAPFRAME0 1 K_parent = Ret tt s' /\
    trace s' = trace K_parent ++
      (if bool_decide (trapframe proc_zombie ≠ 0) then [EvKfree (trapframe proc_zombie)] else []) ++
      (if bool_decide (pagetable proc_zombie ≠ 0)
       then [EvUvmunmap (pagetable proc_zombie) TRAMPOLINE0 1 0;
             EvUvmunmap (pagetable proc_zombie) TRAPFRAME0 1 0;
             EvUvmfree (pagetable proc_zombie) (sz proc_zombie)]
       else []) /\
    procs s' =
      <[1%nat := mkProc UNUSED NoChan 0 0 0 None (kstack proc_zombie) 0 0 0 (context proc_zombie)
                    (ofile proc_zombie) (cwd proc_zombie) (<[0%nat := 0]> (name proc_zombie))]>
        (procs K_parent) /\
    kcpu s' = kcpu K_parent /\ held s' = held K_parent /\ nextpid s' = nextpid K_parent /\
    kpipe s' = kpipe K_parent /\ mem s' = mem K_parent.
Proof.
  assert (H1 : procs K_parent !! 1%nat = Some proc_zombie) by reflexivity.
  split; [exact H1|].
  exact (freeproc_frees TRAMPOLINE0 TRAPFRAME0 1 proc_zombie K_parent H1).
Defined.

Lemma allocpid_increasing_witness :
  (PidLock ∉ held K1) /\ 0 <= noff (kcpu K1) /\
  - 2 ^ 31 <= nextpid K1 < 2 ^ 31 /\ nextpid K1 + Z.of_nat 4 <= 2 ^ 31 /\
  exists pids s',
    allocpids 4 K1 = Ret pids s' /\
    pids = (fun j => nextpid K1 + Z.of_nat j) <$> seq 0 4 /\
    StronglySorted Z.lt pids /\ NoDup pids /\
    nextpid s' = wrap_int (nextpid K1 + Z.of_nat 4).
Proof.
  assert (H1 : PidLock ∉ held K1) by apply not_elem_of_nil.
  assert (H2 : 0 <= noff (kcpu K1)) by (vm_compute; discriminate).
  assert (H3 : - 2 ^ 31 <= nextpid K1 < 2 ^ 31) by (vm_compute; split; [discriminate|reflexivity]).
  assert (H4 : nextpid K1 + Z.of_nat 4 <= 2 ^ 31) by (vm_compute; discriminate).
  split; [exact H1|]. split; [exact H2|]. split; [exact H3|]. split; [exact H4|].
  exact (allocpid_increasing 4 K1 H1 H2 H3 H4).
Defined.

(** C9 as stated fails: with the counter at the largest [int], two calls
    return 2147483647 and then -2147483648. *)
Lemma allocpid_wraps :
  match allocpids 2 K_maxpid with
  | Ret pids _ => pids = [2147483647; -2147483648]
  | _ => False
  end /\
  ~ StronglySorted Z.lt [2147483647; -2147483648].
Proof.
  split; [vm_compute; reflexivity|].
  intros H. inversion H as [|? ? _ Hall]; subst.
  apply Forall_inv in Hall. vm_compute in Hall. discriminate Hall.
Qed.

Lemma piperead_copyout_failure_witness :
  entry 0 K_two /\ procs K_two !! 0%nat = Some proc_run /\ (1 < Z.to_nat 2)%nat /\
  delivered copyout0 1 (mem K_two) (pagetable proc_run) 4095 (kpipe K_two) 0 = Some tt /\
  pipe_empty (taken 1 (kpipe K_two)) = false /\
  (let r := copyout0 tt (pagetable proc_run) (wrap_uint64 (4095 + Z.of_nat 1))
              [pipe_byte (taken 1 (kpipe K_two))] in
   r.1 = false /\
   exists sf,
     piperead copyout0 1 4095 2 K_two = Ret (Z.of_nat 1) sf /\
     kpipe sf = taken 2 (kpipe K_two) /\
     nread (kpipe sf) = wrap_uint (nread (kpipe K_two) + Z.of_nat 1 + 1) /\
     nwrite (kpipe sf) = nwrite (kpipe K_two) /\ data (kpipe sf) = data (kpipe K_two) /\
     mem sf = r.2).
Proof.
  assert (H1 : entry 0 K_two) by (repeat split; vm_compute; lia).
  assert (H2 : procs K_two !! 0%nat = Some proc_run) by reflexivity.
  assert (H3 : (1 < Z.to_nat 2)%nat) by (vm_compute; lia).
  assert (H4 : delivered copyout0 1 (mem K_two) (pagetable proc_run) 4095 (kpipe K_two) 0 = Some tt)
    by (vm_compute; reflexivity).
  assert (H5 : pipe_empty (taken 1 (kpipe K_two)) = false) by (vm_compute; reflexivity).
  assert (H6 : (copyout0 tt (pagetable proc_run) (wrap_uint64 (4095 + Z.of_nat 1))
                  [pipe_byte (taken 1 (kpipe K_two))]).1 = false) by (vm_compute; reflexivity).
  split; [exact H1|]. split; [exact H2|]. split; [exact H3|]. split; [exact H4|].
  split; [exact H5|]. cbn zeta. split; [exact H6|].
  exact (piperead_copyout_failure copyout0 0 0 4095 2 K_two proc_run 1 tt H1 H2 H3 H4 H5 H6).
Defined.

(** ** The further theorems at concrete inputs *)

Lemma wakeup_wakes_sleepers_witness :
  exists s',
    wakeup PipeNread K_in_pipe = Ret tt s' /\
    procs s' !! 1%nat = Some (set_state RUNNABLE proc_reader) /\
    procs s' !! 0%nat = Some proc_run /\ held s' = held K_in_pipe.
Proof.
  destruct (wakeup_wakes_sleepers PipeNread K_in_pipe) as (s' & Hr & _ & Hp & _ & Hh & _).
  - split; [vm_compute; discriminate | reflexivity].
  - intros j _ H. vm_compute in H. apply list_elem_of_singleton in H. discriminate H.
  - exists s'. split; [exact Hr|]. split; [exact (Hp 1%nat proc_reader eq_refl)|].
    split; [exact (Hp 0%nat proc_run eq_refl) | exact Hh].
Defined.

Lemma sleep_releases_then_blocks_witness :
  exists s1 k,
    sleep PipeNwrite PipeLock K_in_pipe = Swtch s1 k /\
    procs s1 = [set_state SLEEPING (set_chan PipeNwrite proc_run); proc_reader] /\
    held s1 = [ProcLock 0].
Proof.
  destruct (sleep_releases_then_blocks K_in_pipe 0 proc_run PipeNwrite PipeLock)
    as (s1 & k & Hs & Hp & Hh & _); try reflexivity; [discriminate|].
  exists s1, k. split; [exact Hs|]. split; [exact Hp | exact Hh].
Defined.

Lemma sched_outcome_witness :
  exists s1 k, sched K_intr_on = Swtch s1 k /\ held s1 = [ProcLock 0].
Proof.
  destruct (sched_outcome K_intr_on 0 (set_state RUNNABLE proc_run))
    as (_ & _ & _ & Hsw); [vm_compute; discriminate | reflexivity | reflexivity |].
  destruct Hsw as (s1 & k & Hs & _ & Hh & _);
    [vm_compute; left | reflexivity | vm_compute; discriminate |].
  exists s1, k. split; [exact Hs | exact Hh].
Defined.

Lemma yield_gives_up_cpu_witness :
  exists s1 k,
    yield K1 = Swtch s1 k /\
    procs s1 = [set_state RUNNABLE proc_run] /\ held s1 = [ProcLock 0].
Proof.
  destruct (yield_gives_up_cpu K1 0 proc_run) as (s1 & k & Hy & Hp & Hh & _).
  - apply entry_K_user. vm_compute. lia.
  - reflexivity.
  - exists s1, k. split; [exact Hy|]. split; [exact Hp | exact Hh].
Defined.

Lemma scheduler_dispatches_first_runnable_witness :
  exists s1 kont,
    scheduler 1 (K_sched [proc_reader; proc_ready]) = Swtch s1 kont /\
    procs s1 = [proc_reader; set_state RUNNING proc_ready] /\ dispatched 1 s1.
Proof.
  destruct (scheduler_dispatches_first_runnable 0 (K_sched [proc_reader; proc_ready])
              1 proc_ready) as (s1 & kont & Hs & Hp & Hd & _); try reflexivity.
  exists s1, kont. split; [exact Hs|]. split; [exact Hp | exact Hd].
Defined.

Lemma scheduler_idle_spins_witness :
  scheduler 3 (K_sched [proc_reader; proc_zombie]) = Diverge.
Proof.
  apply (scheduler_idle_spins 3 (K_sched [proc_reader; proc_zombie])); reflexivity.
Defined.

Lemma scheduler_round_robin_witness :
  exists s1 kont,
    scheduler 2 (K_sched [proc_reader; proc_ready; proc_ready]) = Swtch s1 kont /\
    exists s2 kont2, kont K_back = Swtch s2 kont2 /\ dispatched 2 s2.
Proof.
  destruct (scheduler_round_robin 0 (K_sched [proc_reader; proc_ready; proc_ready])
              1 proc_ready) as (s1 & kont & Hs & Hk); try reflexivity.
  exists s1, kont. split; [exact Hs|].
  destruct (Hk K_back eq_refl eq_refl eq_refl eq_refl) as (s2 & kont2 & Hw & _ & Hd).
  exists s2, kont2. split; [exact Hw | exact Hd].
Defined.

Lemma pipeclose_effect_witness :
  exists s',
    pipeclose 1 K1 = Ret tt s' /\
    kpipe s' = mkPipe (replicate 512 0) 0 0 1 0 /\ trace s' = [] /\ held s' = [].
Proof.
  destruct (pipeclose_effect 1 K1) as (s' & Hr & Hp & _ & Ht & Hh & _);
    try reflexivity.
  exists s'. split; [exact Hr|]. split; [exact Hp|]. split; [|exact Hh].
  rewrite Ht, Hp. reflexivity.
Defined.

Lemma pipe_new_wf : pipe_wf pipe_new.
Proof. split; [exact (pipe_init_ok pipe_new) | reflexivity]. Defined.

Lemma pipe_511_wf : pipe_wf pipe_511.
Proof.
  split; [|reflexivity].
  apply pipe_ok_intro; vm_compute; split; first [discriminate | reflexivity].
Defined.

Lemma copyin0_bytes (bs : list Z) :
  bs = [10; 11; 12] \/ bs = [10] ->
  forall (j : nat) (ch : Z), bs !! j = Some ch ->
    copyin0 tt (pagetable proc_run) (wrap_uint64 (10 + Z.of_nat j)) = Some ch.
Proof.
  intros [-> | ->] j ch Hj.
  - destruct j as [|[|[|j]]]; cbn in Hj; inversion Hj; subst; reflexivity.
  - destruct j as [|j]; cbn in Hj; inversion Hj; subst; reflexivity.
Defined.

Lemma pipewrite_appends_witness :
  exists sf,
    run (pipewrite copyin0 5 10 3 K1) [] = Done 3 sf /\
    contents (kpipe sf) = [10; 11; 12] /\ held sf = [].
Proof.
  destruct (pipewrite_appends copyin0 0 proc_run 5 10 [10; 11; 12] K1)
    as (sf & Hr & Hc & _ & _ & _ & Hh & _).
  - apply entry_K_user. vm_compute. lia.
  - reflexivity.
  - reflexivity.
  - vm_compute. discriminate.
  - exact pipe_new_wf.
  - vm_compute. discriminate.
  - apply copyin0_bytes. left. reflexivity.
  - vm_compute. lia.
  - exists sf. split; [exact Hr|]. split; [exact Hc | exact Hh].
Defined.

Lemma pipewrite_blocks_when_full_witness :
  exists sb,
    run (pipewrite copyin0 5 10 2 K_511) [] = Blocked sb /\
    pipe_full (kpipe sb) = true /\
    procs sb = [set_state SLEEPING (set_chan PipeNwrite proc_run)] /\
    held sb = [ProcLock 0].
Proof.
  destruct (pipewrite_blocks_when_full copyin0 0 proc_run 5 10 2 [10] K_511)
    as (sb & Hr & _ & Hf & Hp & Hh).
  - repeat split. vm_compute. lia.
  - reflexivity.
  - reflexivity.
  - vm_compute. discriminate.
  - exact pipe_511_wf.
  - reflexivity.
  - reflexivity.
  - apply copyin0_bytes. right. reflexivity.
  - vm_compute. lia.
  - exists sb. split; [exact Hr|]. split; [exact Hf|]. split; [exact Hp | exact Hh].
Defined.

Lemma pipe_two_ok : pipe_ok pipe_two.
Proof. apply pipe_ok_intro; vm_compute; split; first [discriminate | reflexivity]. Defined.

Lemma piperead_takes_witness :
  exists sf,
    run (piperead copyout0 1 100 2 K_two) [] = Done 2 sf /\
    contents (kpipe sf) = [] /\ held sf = [].
Proof.
  destruct (piperead_takes copyout0 0 proc_run 0 100 2 K_two tt)
    as (sf & Hr & _ & Hc & _ & _ & Hh & _).
  - repeat split. vm_compute. lia.
  - reflexivity.
  - exact pipe_two_ok.
  - left. vm_compute. discriminate.
  - vm_compute. reflexivity.
  - exists sf. split; [exact Hr|]. split; [exact Hc | exact Hh].
Defined.

Lemma pipe_round_trip_witness :
  exists s1,
    run (pipewrite copyin0 5 10 3 K1) [] = Done 3 s1 /\
    exists s2,
      run (piperead copyout0 5 100 3 s1) [] = Done 3 s2 /\
      pipe_empty (kpipe s2) = true.
Proof.
  destruct (pipe_round_trip copyin0 copyout0 0 proc_run 5 10 100 3 [10; 11; 12] K1)
    as (s1 & Hw & Hr).
  - apply entry_K_user. vm_compute. lia.
  - reflexivity.
  - reflexivity.
  - vm_compute. discriminate.
  - exact pipe_new_wf.
  - reflexivity.
  - discriminate.
  - vm_compute. discriminate.
  - vm_compute. discriminate.
  - apply copyin0_bytes. left. reflexivity.
  - vm_compute. lia.
  - exists s1. split; [exact Hw|].
    assert (Hc : run (pipewrite copyin0 5 10 3 K1) [] = Done 3 K_written)
      by (vm_compute; reflexivity).
    change (Z.of_nat (length [10; 11; 12])) with 3 in Hw.
    rewrite Hc in Hw. injection Hw as <-.
    destruct (Hr 0%nat proc_run K_written tt) as (s2 & Hrd & _ & He);
      [repeat split; vm_compute; lia | reflexivity | reflexivity | vm_compute; reflexivity |].
    exists s2. split; [exact Hrd | exact He].
Defined.

Lemma piperead_eof_after_close_witness :
  exists sb sf,
    run (piperead copyout0 2 100 4 K1) [] = Blocked sb /\
    run (piperead copyout0 2 100 4 K1) [K_wclosed] = Done 0 sf /\ held sf = [].
Proof.
  destruct (piperead_eof_after_close copyout0 0 proc_run 0 100 4 K1 K_wclosed)
    as (sb & sf & Hb & _ & _ & Hd & Hh & _).
  - apply entry_K_user. vm_compute. lia.
  - reflexivity.
  - reflexivity.
  - reflexivity.
  - vm_compute. discriminate.
  - repeat split. vm_compute. lia.
  - reflexivity.
  - reflexivity.
  - exists sb, sf. split; [exact Hb|]. split; [exact Hd | exact Hh].
Defined.

Lemma piperead_killed_while_blocked_witness :
  exists sf,
    run (piperead copyout0 2 100 4 K1) [K_resumed_killed] = Done (-1) sf /\
    held sf = [].
Proof.
  destruct (piperead_killed_while_blocked copyout0 0 proc_run 0 100 4 K1 K_resumed_killed)
    as (sf & Hd & Hh & _).
  - apply entry_K_user. vm_compute. lia.
  - reflexivity.
  - reflexivity.
  - reflexivity.
  - vm_compute. discriminate.
  - repeat split. vm_compute. lia.
  - reflexivity.
  - reflexivity.
  - vm_compute. discriminate.
  - exists sf. split; [exact Hd | exact Hh].
Defined.

Lemma pipewrite_fails_after_read_close_witness :
  exists sf,
    run (pipewrite copyin0 5 10 2 K_511) [K_rclosed] = Done (-1) sf /\ held sf = [].
Proof.
  destruct (pipewrite_fails_after_read_close copyin0 0 proc_run 5 10 2 [10] K_511 K_rclosed)
    as (sf & Hd & Hh & _).
  - repeat split. vm_compute. lia.
  - reflexivity.
  - reflexivity.
  - vm_compute. discriminate.
  - exact pipe_511_wf.
  - reflexivity.
  - reflexivity.
  - apply copyin0_bytes. right. reflexivity.
  - vm_compute. lia.
  - repeat split. vm_compute. lia.
  - reflexivity.
  - exists sf. split; [exact Hd | exact Hh].
Defined.

Lemma returns_answer {A : Type} (a : A) : returns (answer a) a.
Proof. intros s. exists s. split; [reflexivity | repeat split]. Qed.

Lemma extern_answer {A : Type} (a : A) : extern (answer a).
Proof. intros s. exists a, s. split; [reflexivity | repeat split]. Qed.

Lemma entry_K_exit : entry 1 K_exit.
Proof. repeat split. vm_compute. lia. Defined.

Lemma logs_fs_log (c : fs_call) : logs id (fs_log c) [c].
Proof. intros s. exists tt, (set_mem (mem s ++ [c]) s). repeat split. Qed.

Lemma exit_becomes_zombie_witness :
  exists s1 k,
    exit (Some 0%nat) (fun f => fs_log (FsClose f)) (fs_log FsBegin)
         (fun ip => fs_log (FsIput ip)) (fs_log FsEnd) 7 K_exit_logged = Swtch s1 k /\
    procs s1 = [set_state RUNNABLE proc_waiting;
                exited 7 proc_child;
                set_parent (Some 0%nat) proc_grandchild] /\
    mem s1 = [FsClose 5; FsClose 6; FsBegin; FsIput 3; FsEnd] /\
    held s1 = [ProcLock 1].
Proof.
  assert (H := exit_becomes_zombie (Some 0%nat) (fun f => fs_log (FsClose f))
                 (fs_log FsBegin) (fun ip => fs_log (FsIput ip)) (fs_log FsEnd)
                 id 7 1 proc_child K_exit_logged
                 (fun f => logs_fs_log (FsClose f)) (logs_fs_log FsBegin)
                 (fun ip => logs_fs_log (FsIput ip)) (logs_fs_log FsEnd)
                 ltac:(repeat split; vm_compute; lia) eq_refl ltac:(discriminate)).
  rewrite bool_decide_eq_false_2 in H by discriminate.
  destruct H as (s1 & k & He & Hp & Hm & Hh & _).
  exists s1, k. split; [exact He|]. split; [|split; [exact Hm | exact Hh]].
  rewrite Hp. vm_compute. reflexivity.
Defined.

Lemma exit_status_reaches_wait_witness :
  exists s1 k,
    exit (Some 0%nat) fileclose0 (answer tt) iput0 (answer tt) 7 K_exit = Swtch s1 k /\
    exists sf,
      wait copyout0 TRAMPOLINE0 TRAPFRAME0 1 100 (K_user (procs s1)) = Ret 2 sf /\
      procs sf !! 1%nat = Some (freed (exited 7 proc_child)) /\ held sf = [].
Proof.
  destruct (exit_status_reaches_wait copyout0 TRAMPOLINE0 TRAPFRAME0 (Some 0%nat)
              fileclose0 (answer tt) iput0 (answer tt) 7 1 proc_child K_exit 0 100
              (fun _ => extern_answer tt) (extern_answer tt)
              (fun _ => extern_answer tt) (extern_answer tt)
              entry_K_exit eq_refl ltac:(discriminate) ltac:(discriminate))
    as (s1 & k & He & Hp & Hw).
  exists s1, k. split; [exact He|].
  destruct (Hw 0%nat (set_state RUNNABLE proc_waiting) (K_user (procs s1))
              (exited 7 proc_child)) as (sf & Hr & _ & Hs & Hh).
  - apply entry_K_user. rewrite Hp. vm_compute. lia.
  - reflexivity.
  - change (procs (K_user (procs s1))) with (procs s1). rewrite Hp. reflexivity.
  - change (procs (K_user (procs s1))) with (procs s1). rewrite Hp.
    vm_compute. reflexivity.
  - discriminate.
  - reflexivity.
  - exists sf. split; [exact Hr|]. split; [exact Hs | exact Hh].
Defined.

Lemma allocproc_no_free_slot_witness :
  exists s',
    allocproc TRAMPOLINE0 TRAPFRAME0 PGSIZE0 PTE_R0 PTE_W0 PTE_X0 trampoline0 forkret0
              (answer 20480) (answer 24576) mappages_ok K_parent = Ret None s' /\
    procs s' = procs K_parent /\ held s' = [].
Proof.
  destruct (allocproc_no_free_slot TRAMPOLINE0 TRAPFRAME0 PGSIZE0 PTE_R0 PTE_W0 PTE_X0
              trampoline0 forkret0 (answer 20480) (answer 24576) mappages_ok K_parent)
    as (s' & Hr & Hp & Hh & _); try reflexivity.
  exists s'. split; [exact Hr|]. split; [exact Hp | exact Hh].
Defined.

Lemma allocproc_success_witness :
  exists s',
    allocproc TRAMPOLINE0 TRAPFRAME0 PGSIZE0 PTE_R0 PTE_W0 PTE_X0 trampoline0 forkret0
              (answer 20480) (answer 24576) mappages_ok K_fork = Ret (Some 1%nat) s' /\
    procs s' = [proc_parent;
                mkProc USED NoChan 0 0 3 None 8192 0 24576 20480 (forkret0, 12288)
                       [0; 0; 0] 0 (replicate 16 0)] /\
    held s' = [ProcLock 1] /\ nextpid s' = 4.
Proof.
  destruct (allocproc_success TRAMPOLINE0 TRAPFRAME0 PGSIZE0 PTE_R0 PTE_W0 PTE_X0
              trampoline0 forkret0 (answer 20480) (answer 24576) mappages_ok
              1 proc_free 20480 24576 K_fork)
    as (s' & Hr & Hp & Hh & _ & Hn & _);
    try reflexivity; try discriminate; try apply returns_answer.
  - intros a b c d e. apply returns_answer.
  - exists s'. split; [exact Hr|]. split; [exact Hp|]. split; [exact Hh | exact Hn].
Defined.

Lemma allocproc_out_of_memory_witness :
  exists s',
    allocproc TRAMPOLINE0 TRAPFRAME0 PGSIZE0 PTE_R0 PTE_W0 PTE_X0 trampoline0 forkret0
              (answer 20480) (answer 0) mappages_ok K_fork = Ret None s' /\
    procs s' = [proc_parent;
                mkProc UNUSED NoChan 0 0 0 None 8192 0 0 0 (0, 0) [0; 0; 0] 0
                       (replicate 16 0)] /\
    held s' = [] /\ nextpid s' = 4 /\ exists tr, trace s' = tr ++ [EvKfree 20480].
Proof.
  destruct (allocproc_out_of_memory TRAMPOLINE0 TRAPFRAME0 PGSIZE0 PTE_R0 PTE_W0 PTE_X0
              trampoline0 forkret0 (answer 20480) (answer 0) mappages_ok
              1 proc_free 20480 K_fork)
    as (s' & Hr & Hp & Hh & _ & Hn & Ht);
    try reflexivity; try apply returns_answer.
  exists s'. split; [exact Hr|]. split; [exact Hp|]. split; [exact Hh|].
  split; [exact Hn|]. apply Ht. discriminate.
Defined.

Lemma allocproc_mapping_fails_witness :
  exists s',
    allocproc TRAMPOLINE0 TRAPFRAME0 PGSIZE0 PTE_R0 PTE_W0 PTE_X0 trampoline0 forkret0
              (answer 20480) (answer 24576) mappages_trapframe_fails K_fork
      = Ret None s' /\
    held s' = [] /\
    exists tr, trace s' = tr ++ [EvUvmunmap 24576 TRAMPOLINE0 1 0;
                                 EvUvmfree 24576 0; EvKfree 20480].
Proof.
  destruct (allocproc_mapping_fails TRAMPOLINE0 TRAPFRAME0 PGSIZE0 PTE_R0 PTE_W0 PTE_X0
              trampoline0 forkret0 (answer 20480) (answer 24576)
              mappages_trapframe_fails 1 proc_free 20480 24576 0 (-1) K_fork)
    as (s' & Hr & _ & Hh & _ & Ht);
    try reflexivity; try discriminate; try apply returns_answer.
  - right. lia.
  - exists s'. split; [exact Hr|]. split; [exact Hh | exact Ht].
Defined.

Lemma growproc_result_witness :
  exists v s',
    growproc uvm_resize uvm_resize 4096 K1 = Ret v s' /\
    v = 0 /\ procs s' = [set_sz 8192 proc_run] /\ held s' = [].
Proof.
  destruct (growproc_result uvm_resize uvm_resize 4096 0 proc_run 8192 K1)
    as (v & s' & Hr & Hv & Hh & _).
  - apply entry_K_user. vm_compute. lia.
  - reflexivity.
  - intros _. apply (returns_answer 8192).
  - intros H. discriminate H.
  - exists v, s'. split; [exact Hr|]. destruct Hv as (Hv & Hp).
    split; [exact Hv|]. split; [exact Hp | exact Hh].
Defined.

Lemma fork_no_free_slot_witness :
  exists s',
    fork TRAMPOLINE0 TRAPFRAME0 PGSIZE0 PTE_R0 PTE_W0 PTE_X0 trampoline0 forkret0
         (answer 20480) (answer 24576) mappages_ok (uvmcopy_ret 0) filedup0 idup0
         trapframe_op0 trapframe_op0 safestrcpy0 K_parent = Ret (-1) s' /\
    procs s' = procs K_parent /\ held s' = [].
Proof.
  destruct (fork_no_free_slot TRAMPOLINE0 TRAPFRAME0 PGSIZE0 PTE_R0 PTE_W0 PTE_X0
              trampoline0 forkret0 (answer 20480) (answer 24576) mappages_ok
              (uvmcopy_ret 0) filedup0 idup0 trapframe_op0 trapframe_op0 safestrcpy0
              0 K_parent)
    as (s' & Hr & Hp & Hh & _).
  - apply entry_K_user. vm_compute. lia.
  - reflexivity.
  - exists s'. split; [exact Hr|]. split; [exact Hp | exact Hh].
Defined.

Lemma fork_creates_child_witness :
  exists s',
    fork TRAMPOLINE0 TRAPFRAME0 PGSIZE0 PTE_R0 PTE_W0 PTE_X0 trampoline0 forkret0
         (answer 20480) (answer 24576) mappages_ok (uvmcopy_ret 0) filedup0 idup0
         trapframe_op0 trapframe_op0 safestrcpy0 K_fork = Ret 3 s' /\
    procs s' = [proc_parent;
                mkProc RUNNABLE NoChan 0 0 3 (Some 0%nat) 8192 4096 24576 20480
                       (forkret0, 12288) [5; 0; 6] 3 init_name] /\
    held s' = [] /\ nextpid s' = 4.
Proof.
  destruct (fork_creates_child TRAMPOLINE0 TRAPFRAME0 PGSIZE0 PTE_R0 PTE_W0 PTE_X0
              trampoline0 forkret0 (answer 20480) (answer 24576) mappages_ok
              (uvmcopy_ret 0) filedup0 idup0 trapframe_op0 trapframe_op0 safestrcpy0
              0 proc_parent 1 proc_free 20480 24576 0 3 (fun f => f) K_fork)
    as (s' & Hr & Hp & Hh & _ & _ & Hn & _);
    try reflexivity; try discriminate;
    try (intros; apply returns_answer); try (intros; apply extern_answer);
    try (apply entry_K_user; vm_compute; lia).
  exists s'. split; [exact Hr|]. split; [exact Hp|]. split; [exact Hh | exact Hn].
Defined.

Lemma fork_copy_fails_witness :
  exists s',
    fork TRAMPOLINE0 TRAPFRAME0 PGSIZE0 PTE_R0 PTE_W0 PTE_X0 trampoline0 forkret0
         (answer 20480) (answer 24576) mappages_ok (uvmcopy_ret (-1)) filedup0 idup0
         trapframe_op0 trapframe_op0 safestrcpy0 K_fork = Ret (-1) s' /\
    procs s' = [proc_parent;
                mkProc UNUSED NoChan 0 0 0 None 8192 0 0 0 (forkret0, 12288)
                       [0; 0; 0] 0 (replicate 16 0)] /\
    held s' = [] /\
    exists tr, trace s' = tr ++ [EvKfree 20480; EvUvmunmap 24576 TRAMPOLINE0 1 0;
                                 EvUvmunmap 24576 TRAPFRAME0 1 0; EvUvmfree 24576 0].
Proof.
  destruct (fork_copy_fails TRAMPOLINE0 TRAPFRAME0 PGSIZE0 PTE_R0 PTE_W0 PTE_X0
              trampoline0 forkret0 (answer 20480) (answer 24576) mappages_ok
              (uvmcopy_ret (-1)) filedup0 idup0 trapframe_op0 trapframe_op0 safestrcpy0
              0 proc_parent 1 proc_free 20480 24576 (-1) K_fork)
    as (s' & Hr & Hp & Hh & _ & _ & Ht);
    try reflexivity; try discriminate;
    try (intros; apply returns_answer);
    try (apply entry_K_user; vm_compute; lia).
  exists s'. split; [exact Hr|]. split; [exact Hp|]. split; [exact Hh | exact Ht].
Defined.

Lemma read0_file_reads : file_reads read0 input0 w_out.
Proof.
  intros fd b n w Hn. unfold read0, input0. cbn [fst snd w_in w_out].
  set (k := Z.to_nat (Z.min (Z.min n 2) (Z.of_nat (length (w_in w))))).
  split; [reflexivity|]. split.
  - intros Hnil. subst k. rewrite Hnil. cbn [length]. split.
    + rewrite Z.min_r by lia. reflexivity.
    + apply drop_nil.
  - intros Hne. assert (0 < length (w_in w))%nat.
    { destruct (w_in w); [contradiction | cbn [length]; lia]. }
    rewrite Nat2Z.id. split_and!; try lia; try reflexivity.
    rewrite take_app_le by (rewrite length_take; lia).
    rewrite take_take, Nat.min_id. reflexivity.
Qed.

Lemma write0_stdout_writes : stdout_writes write0 input0 w_out.
Proof. intros b n w Hn. split_and!; reflexivity. Qed.

Lemma open0_opens : opens open0 input0 w_out content0.
Proof.
  intros a w. unfold open0. destruct (content0 a); cbn [fst snd w_out]; split;
    try reflexivity; try (split; [lia | reflexivity]); lia.
Qed.

Lemma close0_closes : closes close0 w_out.
Proof. intros fd w. reflexivity. Qed.

Lemma cat_copies_input_witness :
  exists b' w',
    cat read0 write0 fprintf0 4 0 (buf0, W_start) = UReturn tt (b', w') /\
    w_out w' = [7; 8; 9] /\ w_in w' = [].
Proof.
  destruct (cat_copies_input read0 write0 fprintf0 input0 w_out 4 0 buf0 W_start
              read0_file_reads write0_stdout_writes)
    as (b' & w' & Hc & Ho & Hi).
  - vm_compute. lia.
  - exists b', w'. split; [exact Hc|]. split; [exact Ho | exact Hi].
Defined.

Lemma main_concatenates_witness :
  exists b' w',
    main read0 write0 open0 close0 fprintf0 4 ["cat"; "a"; "b"]%string (buf0, W_start)
      = UExit 0 (b', w') /\
    w_out w' = [1; 2; 3; 4; 5].
Proof.
  destruct (main_concatenates read0 write0 open0 close0 fprintf0 input0 w_out content0
              4 ["cat"; "a"; "b"]%string buf0 W_start
              read0_file_reads write0_stdout_writes open0_opens close0_closes)
    as (b' & w' & Hm & Ho).
  - intros H. vm_compute in H. lia.
  - repeat constructor.
    + exists [1; 2; 3]. split; [reflexivity | vm_compute; lia].
    + exists [4; 5]. split; [reflexivity | vm_compute; lia].
  - exists b', w'. split; [exact Hm | exact Ho].
Defined.

Lemma main_cannot_open_witness :
  exists b' w',
    main read0 write0 open0 close0 fprintf0 4 ["cat"; "a"; "x"; "b"]%string
         (buf0, W_start)
      = UExit 1 (b', fprintf0 2 ("cat: cannot open %s" ++ nl)%string ["x"%string] w') /\
    w_out w' = [1; 2; 3].
Proof.
  destruct (main_cannot_open read0 write0 open0 close0 fprintf0 input0 w_out content0
              4 "cat"%string "x"%string ["a"%string] ["b"%string] buf0 W_start
              read0_file_reads write0_stdout_writes open0_opens close0_closes)
    as (b' & w' & Hm & Ho).
  - repeat constructor. exists [1; 2; 3]. split; [reflexivity | vm_compute; lia].
  - reflexivity.
  - exists b', w'. split; [exact Hm | exact Ho].
Defined.
